(** * Resume-fit analyzer: the scoring pipeline of [backend/app.py]

    A shallow embedding of [allowed_file], [extract_text],
    [analyze_resume] and the [/analyze], [/register] and [/login]
    routes, with Python's numbers written out: integers are exact,
    floats are binary64 values obtained by rounding the exact result of
    every operation to nearest, ties to even. *)

From Stdlib Require Import ZArith QArith Qround Qabs Qpower Qreduction.
From Stdlib Require Import Lia Lqa Bool List String Ascii.
From Stdlib Require Import Floats.SpecFloat.
From stdpp Require Import gmap strings.

Local Open Scope Z_scope.

(** ** Binary64 rounding *)

Module Binary64.

Local Open Scope Q_scope.

(** [ilog2 a] is the exponent [k] with [2^k <= a < 2^(k+1)], for [0 < a]. *)
Definition ilog2 (a : Q) : Z :=
  let k := (Z.log2 (Qnum a) - Z.log2 (Zpos (Qden a)))%Z in
  if Qle_bool (2 ^ k) a then k else (k - 1)%Z.

(** Rounding a rational to the nearest integer, ties to the even one. *)
Definition rhe (s : Q) : Z :=
  let f := Qfloor s in
  match Qcompare (s - inject_Z f) (1 # 2) with
  | Lt => f
  | Gt => (f + 1)%Z
  | Eq => if Z.even f then f else (f + 1)%Z
  end.

(** A positive rational rounded to 53 significant bits. The exponent
    range of binary64 is left out: what this program rounds are quotients
    of container lengths, which Python keeps below [2^63], and sums and
    products of such quotients with constants up to 1500, so no value
    comes near the subnormal numbers or the overflow threshold. *)
Definition rnd_pos (a : Q) : Q :=
  let e := (ilog2 a - 52)%Z in
  inject_Z (rhe (a / 2 ^ e)) * 2 ^ e.

Definition rnd (x : Q) : Q :=
  match Qcompare x 0 with
  | Eq => 0
  | Gt => Qred (rnd_pos x)
  | Lt => Qred (- rnd_pos (- x))
  end.

(** [repr c]: rounding leaves [c] as it is. *)
Definition repr (c : Q) : Prop := rnd c == c.

(** The unit roundoff: one rounding moves a value by at most this
    fraction of it. *)
Definition u : Q := 1 # (2 ^ 53).

End Binary64.

(** ** Python numbers

    [int] is exact; [float] is a binary64 value. Arithmetic on two ints
    stays exact, except [/], which is true division and returns the
    correctly rounded quotient; an int meeting a float is converted first. *)

Module Py.

Import Binary64.
Local Open Scope Q_scope.

Inductive num : Type :=
| Int (z : Z)
| Float (q : Q).

Definition val (x : num) : Q :=
  match x with Int z => inject_Z z | Float q => q end.

Definition to_float (x : num) : Q :=
  match x with Int z => rnd (inject_Z z) | Float q => q end.

Definition add (x y : num) : num :=
  match x, y with
  | Int a, Int b => Int (a + b)
  | _, _ => Float (rnd (to_float x + to_float y))
  end.

Definition sub (x y : num) : num :=
  match x, y with
  | Int a, Int b => Int (a - b)
  | _, _ => Float (rnd (to_float x - to_float y))
  end.

Definition mul (x y : num) : num :=
  match x, y with
  | Int a, Int b => Int (a * b)
  | _, _ => Float (rnd (to_float x * to_float y))
  end.

(** [x / y]; every divisor in this program is non-zero (a guarded
    length, 1500 or 4), so [ZeroDivisionError] has no case here. *)
Definition truediv (x y : num) : num :=
  match x, y with
  | Int a, Int b => Float (rnd (inject_Z a / inject_Z b))
  | _, _ => Float (rnd (to_float x / to_float y))
  end.

Definition ltb (x y : num) : bool := negb (Qle_bool (val y) (val x)).

(** [min(a, b)] and [max(a, b)] keep the first argument on a tie. *)
Definition min (a b : num) : num := if ltb b a then b else a.
Definition max (a b : num) : num := if ltb a b then b else a.

(** [int(x)] truncates towards zero. *)
Definition trunc (q : Q) : Z :=
  if Qle_bool 0 q then Qfloor q else Qceiling q.

Definition int (x : num) : Z :=
  match x with Int z => z | Float q => trunc q end.

End Py.

(** ** The same arithmetic in the Standard Library's IEEE 754 model

    [SpecFloat] specifies binary64 on mantissa and exponent pairs. The
    two expressions of the program that round are written here with its
    operations, to compare them with [Py] on concrete inputs. *)

Module IEEE.

Local Open Scope Q_scope.

Definition of_Z (n : Z) : spec_float := binary_normalize 53 1024 n 0 false.

Definition to_Q (f : spec_float) : Q :=
  match f with
  | S754_finite sign m e => inject_Z (if sign then Z.neg m else Z.pos m) * 2 ^ e
  | _ => 0
  end.

(** [a / b * 100] *)
Definition percent (a b : Z) : spec_float :=
  SFmul 53 1024 (SFdiv 53 1024 (of_Z a) (of_Z b)) (of_Z 100).

(** [100 - n / 1500] *)
Definition penalty (n : Z) : spec_float :=
  SFsub 53 1024 (of_Z 100) (SFdiv 53 1024 (of_Z n) (of_Z 1500)).

Definition percent_agrees (a b : Z) : bool :=
  Qeq_bool (to_Q (percent a b))
           (Py.val (Py.mul (Py.truediv (Py.Int a) (Py.Int b)) (Py.Int 100))).

Definition penalty_agrees (n : Z) : bool :=
  Qeq_bool (to_Q (penalty n))
           (Py.val (Py.sub (Py.Int 100) (Py.truediv (Py.Int n) (Py.Int 1500)))).

(** All the pairs [0 <= a <= b] with [1 <= b <= bound]. *)
Definition pairs_upto (bound : nat) : list (Z * Z) :=
  List.flat_map
    (fun b => List.map (fun a => (Z.of_nat a, Z.of_nat b)) (List.seq 0 (S b)))
    (List.seq 1 bound).

End IEEE.

(** ** Python strings

    A text is a string of code points below 256, on which [str.lower]
    moves A-Z and the accented capitals of Latin-1 (192-222 except the
    multiplication sign 215) up by 32 and leaves the rest alone. *)

Module Str.

Local Open Scope nat_scope.

Definition lower_char (c : ascii) : ascii :=
  let n := nat_of_ascii c in
  if ((65 <=? n) && (n <=? 90))
     || ((192 <=? n) && (n <=? 222) && negb (n =? 215))
  then ascii_of_nat (n + 32)
  else c.

Fixpoint lower (s : string) : string :=
  match s with
  | EmptyString => EmptyString
  | String c t => String (lower_char c) (lower t)
  end.

(** [hay.startswith(needle)] *)
Fixpoint startswith (hay needle : string) {struct needle} : bool :=
  match needle with
  | EmptyString => true
  | String a needle' =>
      match hay with
      | EmptyString => false
      | String b hay' => Ascii.eqb a b && startswith hay' needle'
      end
  end.

(** [needle in hay] *)
Fixpoint contains (needle hay : string) : bool :=
  startswith hay needle ||
  match hay with
  | EmptyString => false
  | String _ t => contains needle t
  end.

(** [s.endswith(suffix)] *)
Definition endswith (s suffix : string) : bool :=
  (String.length suffix <=? String.length s) &&
  String.eqb
    (String.substring (String.length s - String.length suffix)
                      (String.length suffix) s)
    suffix.

(** [x or ""] for a text that may be [None]. *)
Definition or_empty (x : option string) : string :=
  match x with Some s => s | None => EmptyString end.

(** [s * n] *)
Definition times (n : N) (s : string) : string :=
  N.iter n (String.append s) EmptyString.

(** [" ".join(parts)] *)
Fixpoint join (sep : string) (parts : list string) : string :=
  match parts with
  | [] => EmptyString
  | [p] => p
  | p :: rest => String.append p (String.append sep (join sep rest))
  end.

End Str.

(** ** The analysis: [analyze_resume] *)

(** What the code reads of a spaCy token. *)
Record Token : Type := { lemma_ : string; is_alpha : bool }.

(** The dictionary [analyze_resume] returns. *)
Record ScoreResult : Type := {
  overall : Z;
  keyword : Z;
  skill : Z;
  readability : Z;
  format : Z
}.

(** [set([token.lemma_ for token in doc if token.is_alpha])] *)
Definition alpha_lemmas (doc : list Token) : gset string :=
  list_to_set (List.map lemma_ (List.filter is_alpha doc)).

(** A set is true when its [len] is not zero. *)
Definition truthy (s : gset string) : bool := negb (Nat.eqb (size s) 0).

Definition len_set (s : gset string) : Py.num := Py.Int (Z.of_nat (size s)).
Definition len_str (s : string) : Py.num := Py.Int (Z.of_nat (String.length s)).

(** Line 73: the overlap percentage. *)
Definition keyword_match_of (resume_tokens jd_tokens : gset string) : Py.num :=
  if truthy jd_tokens
  then Py.mul (Py.truediv (len_set (resume_tokens ∩ jd_tokens)) (len_set jd_tokens))
              (Py.Int 100)
  else Py.Int 0.

(** Line 74. *)
Definition skill_match_of (keyword_match : Py.num) : Py.num :=
  Py.min (Py.Int 100) (Py.add keyword_match (Py.Int 10)).

(** Line 75. *)
Definition readability_of (resume_text : option string) : Py.num :=
  Py.max (Py.Int 30)
         (Py.sub (Py.Int 100)
                 (Py.truediv (len_str (Str.or_empty resume_text)) (Py.Int 1500))).

(** Line 76. *)
Definition format_score_of (resume_text : option string) : Py.num :=
  if Str.contains "experience" (Str.lower (Str.or_empty resume_text))
  then Py.Int 90 else Py.Int 70.

(** Line 77. *)
Definition overall_of (keyword_match skill_match readability format_score : Py.num) : Z :=
  Py.int (Py.truediv
            (Py.add (Py.add (Py.add keyword_match skill_match) readability)
                    format_score)
            (Py.Int 4)).

(** Lines 73 to 85, from the two token sets and the raw resume text. *)
Definition score (resume_tokens jd_tokens : gset string)
    (resume_text : option string) : ScoreResult :=
  let keyword_match := keyword_match_of resume_tokens jd_tokens in
  let skill_match := skill_match_of keyword_match in
  let readability := readability_of resume_text in
  let format_score := format_score_of resume_text in
  let overall := overall_of keyword_match skill_match readability format_score in
  {| overall := overall;
     keyword := Py.int keyword_match;
     skill := Py.int skill_match;
     readability := Py.int readability;
     format := Py.int format_score |}.

Section Analysis.

(** The loaded pipeline, [spacy.load("en_core_web_sm")]: from a text to
    its tokens. *)
Variable nlp : string -> list Token.

(** Lines 67 and 70 (68 and 71 for the job description): lower-case,
    run the pipeline, keep the lemmas of the alphabetic tokens. *)
Definition normalize (text : option string) : gset string :=
  alpha_lemmas (nlp (Str.lower (Str.or_empty text))).

Definition analyze_resume (resume_text jd_text : option string) : ScoreResult :=
  let resume_tokens := normalize resume_text in
  let jd_tokens := normalize jd_text in
  score resume_tokens jd_tokens resume_text.

End Analysis.

(** ** A plain pipeline

    The statistical model is not part of the repository. For concrete
    runs the file uses this stand-in: tokens are the maximal runs of
    characters other than the space, a token is its own lemma, and it is
    alphabetic when all its characters are ASCII letters. On lower-case
    texts of base-form words separated by single spaces this is also what
    the English model yields. *)

Module Plain.

Definition is_letter (c : ascii) : bool :=
  let n := nat_of_ascii c in
  (((65 <=? n) && (n <=? 90)) || ((97 <=? n) && (n <=? 122)))%nat.

Fixpoint all_letters (s : string) : bool :=
  match s with
  | EmptyString => true
  | String c t => is_letter c && all_letters t
  end.

Definition flush (cur : string) (acc : list string) : list string :=
  match cur with EmptyString => acc | _ => cur :: acc end.

(** [split cur s]: the words of [s], the first one prefixed by the
    pending characters [cur]. *)
Fixpoint split (cur : string) (s : string) : list string :=
  match s with
  | EmptyString => flush cur []
  | String c t =>
      if Ascii.eqb c " "%char then flush cur (split EmptyString t)
      else split (String.append cur (String c EmptyString)) t
  end.

Definition token (w : string) : Token :=
  {| lemma_ := w; is_alpha := negb (String.eqb w EmptyString) && all_letters w |}.

Definition nlp (s : string) : list Token := List.map token (split EmptyString s).

End Plain.

(** ** Exceptions *)

(** A call either returns or raises; [Raise] carries the exception's
    message. *)
Inductive Exc (A : Type) : Type :=
| Return (a : A)
| Raise (e : string).

Arguments Return {A} a.
Arguments Raise {A} e.

Definition bind {A B : Type} (c : Exc A) (k : A -> Exc B) : Exc B :=
  match c with
  | Return a => k a
  | Raise e => Raise e
  end.

Notation "'let*' x ':=' c 'in' k" := (bind c (fun x => k))
  (at level 10, x name, c at level 100, k at level 200).

(** ** Paths: [os.path] on a POSIX host *)

Module Os.

(** [s.rfind(c)] counted from [i]: the index of the last [c], or -1. *)
Fixpoint rfind_from (c : ascii) (s : string) (i : Z) : Z :=
  match s with
  | EmptyString => -1
  | String a t =>
      let r := rfind_from c t (i + 1) in
      if 0 <=? r then r else if Ascii.eqb a c then i else -1
  end.

Definition rfind (c : ascii) (s : string) : Z := rfind_from c s 0.

(** [s[n:]] and [s[:n]] *)
Fixpoint drop (n : nat) (s : string) : string :=
  match n, s with
  | O, _ => s
  | S _, EmptyString => EmptyString
  | S n', String _ t => drop n' t
  end.

Fixpoint take (n : nat) (s : string) : string :=
  match n, s with
  | O, _ => EmptyString
  | S _, EmptyString => EmptyString
  | S n', String a t => String a (take n' t)
  end.

(** Is there a character other than the dot? *)
Fixpoint has_non_dot (s : string) : bool :=
  match s with
  | EmptyString => false
  | String a t => negb (Ascii.eqb a ".") || has_non_dot t
  end.

(** [os.path.splitext(p)]: the extension starts at the last dot of the
    last path component, unless only dots come before it there. *)
Definition splitext (p : string) : string * string :=
  let sepIndex := rfind "/" p in
  let dotIndex := rfind "." p in
  if (sepIndex <? dotIndex)
     && has_non_dot (take (Z.to_nat (dotIndex - (sepIndex + 1)))
                          (drop (Z.to_nat (sepIndex + 1)) p))
  then (take (Z.to_nat dotIndex) p, drop (Z.to_nat dotIndex) p)
  else (p, EmptyString).

(** [os.path.splitext(filename)[1]] *)
Definition splitext_ext (p : string) : string := snd (splitext p).

End Os.

(** ** Extraction and the [/analyze] route *)

(** An uploaded file ([werkzeug.FileStorage]): its name and its bytes. *)
Record Upload : Type := { filename : string; content : string }.

(** What the route reads of the request. *)
Record Request : Type := {
  userId : option string;
  jobFile : option Upload;
  resumeFile : option Upload
}.

(** A row of the [analyses] table, in the order of the INSERT. *)
Record Row : Type := {
  row_userId : option string;
  row_jobFile : string;
  row_resumeFile : string;
  atsScore : Z;
  keywordMatch : Z;
  skillMatch : Z;
  row_readability : Z;
  formatScore : Z
}.

(** The state outside the request: the upload folders and the table. *)
Record World : Type := {
  files : gmap string string;
  analyses : list Row
}.

Inductive Body : Type :=
| Scores (r : ScoreResult)
| Error (message : string).

(** [jsonify(body), status] *)
Record Response : Type := { body : Body; status : Z }.

Section Route.

(** The libraries the route calls. A document library is given the bytes
    stored at the path, if any, and returns or raises. *)
Variable pdf_pages : option string -> Exc (list (option string)).
Variable docx_paragraphs : option string -> Exc (list string).
Variable nlp_call : string -> Exc (list Token).
Variable splitext_ext : string -> string.
Variable secure_filename : string -> string.
Variable db_error : list Row -> Row -> option string.
Variable UPLOAD_ROOT : string.

(** [os.path.join(folder, name)] on a POSIX host: a name that starts with
    a slash replaces the folder; the separator is added unless the folder
    is empty or ends in one. *)
Definition path_join (folder name : string) : string :=
  if Str.startswith name "/" then name
  else if String.eqb folder EmptyString || Str.endswith folder "/"
       then String.append folder name
       else String.append folder (String.append "/" name).

Definition JD_FOLDER : string := path_join UPLOAD_ROOT "jd".
Definition RESUME_FOLDER : string := path_join UPLOAD_ROOT "resume".

(** [ext in ALLOWED_EXT] *)
Definition allowed_file (name : string) : bool :=
  let ext := Str.lower (splitext_ext name) in
  String.eqb ext ".pdf" || String.eqb ext ".docx".

(** Lines 57 to 64. A page without text counts as the empty string. *)
Definition extract_text (fs : gmap string string) (file_path : string) : Exc string :=
  if Str.endswith file_path ".pdf" then
    let* pages := pdf_pages (fs !! file_path) in
    Return (Str.join " " (List.map Str.or_empty pages))
  else if Str.endswith file_path ".docx" then
    let* paragraphs := docx_paragraphs (fs !! file_path) in
    Return (Str.join " " paragraphs)
  else Return EmptyString.

(** [analyze_resume] as the route calls it: either call of the pipeline
    may raise, the resume's first. *)
Definition analyze_resume_call (resume_text jd_text : option string) : Exc ScoreResult :=
  let* resume_doc := nlp_call (Str.lower (Str.or_empty resume_text)) in
  let* jd_doc := nlp_call (Str.lower (Str.or_empty jd_text)) in
  Return (score (alpha_lemmas resume_doc) (alpha_lemmas jd_doc) resume_text).

(** The body of the first [try], lines 138 to 140. *)
Definition extract_and_analyze (fs : gmap string string)
    (jd_path resume_path : string) : Exc ScoreResult :=
  let* jd_text := extract_text fs jd_path in
  let* resume_text := extract_text fs resume_path in
  analyze_resume_call (Some resume_text) (Some jd_text).

(** A [FileStorage] is true when its file name is not empty. *)
Definition present (f : option Upload) : option Upload :=
  match f with
  | Some u => if String.eqb (filename u) EmptyString then None else Some u
  | None => None
  end.

Definition save (path : string) (u : Upload) (fs : gmap string string)
  : gmap string string := <[path := content u]> fs.

Definition row_of (uid : option string) (jd_path resume_path : string)
    (result : ScoreResult) : Row :=
  {| row_userId := uid; row_jobFile := jd_path; row_resumeFile := resume_path;
     atsScore := overall result; keywordMatch := keyword result;
     skillMatch := skill result; row_readability := readability result;
     formatScore := format result |}.

(** Lines 115 to 158, for a request within the size limit of line 25
    whose two [save] calls return; [Flask.analyze] below adds the other
    outcomes. *)
Definition analyze (req : Request) (w : World) : Response * World :=
  match present (jobFile req), present (resumeFile req) with
  | Some jd_file, Some resume_file =>
      if negb (allowed_file (filename jd_file))
         || negb (allowed_file (filename resume_file))
      then ({| body := Error "Unsupported file type. Allowed: .pdf, .docx";
               status := 400 |}, w)
      else
        let jd_path := path_join JD_FOLDER (secure_filename (filename jd_file)) in
        let resume_path :=
          path_join RESUME_FOLDER (secure_filename (filename resume_file)) in
        let fs := save resume_path resume_file (save jd_path jd_file (files w)) in
        match extract_and_analyze fs jd_path resume_path with
        | Raise _ =>
            ({| body := Error "Processing failed"; status := 500 |},
             {| files := fs; analyses := analyses w |})
        | Return result =>
            let row := row_of (userId req) jd_path resume_path result in
            match db_error (analyses w) row with
            | Some _ =>
                ({| body := Error "DB error"; status := 500 |},
                 {| files := fs; analyses := analyses w |})
            | None =>
                ({| body := Scores result; status := 200 |},
                 {| files := fs; analyses := analyses w ++ [row] |})
            end
        end
  | _, _ =>
      ({| body := Error "Both jobFile and resumeFile are required";
          status := 400 |}, w)
  end.

End Route.

(** ** Sample collaborators

    Stand-ins for the libraries, for concrete runs of the route: a PDF is
    readable when its bytes start with the PDF magic and then has one
    page whose text is the rest; a DOCX has its bytes as its single
    paragraph; the pipeline never raises; a file name is already secure;
    the database accepts every row. *)

Module Sample.

Definition pdf_pages (stored : option string) : Exc (list (option string)) :=
  match stored with
  | None => Raise "No such file or directory"
  | Some bytes =>
      if Str.startswith bytes "%PDF"
      then Return [Some (String.substring 4 (String.length bytes - 4) bytes)]
      else Raise "No /Root object! - Is this really a PDF?"
  end.

Definition docx_paragraphs (stored : option string) : Exc (list string) :=
  match stored with
  | None => Raise "Package not found"
  | Some bytes => Return [bytes]
  end.

Definition nlp_call (text : string) : Exc (list Token) := Return (Plain.nlp text).

Definition splitext_ext : string -> string := Os.splitext_ext.

Definition secure_filename (name : string) : string := name.

Definition db_error (rows : list Row) (row : Row) : option string := None.

Definition UPLOAD_ROOT : string := "uploads".

Definition extract_text := extract_text pdf_pages docx_paragraphs.

Definition analyze :=
  analyze pdf_pages docx_paragraphs nlp_call splitext_ext secure_filename
          db_error UPLOAD_ROOT.

Definition empty_world : World := {| files := ∅; analyses := [] |}.

Definition upload (name bytes : string) : option Upload :=
  Some {| filename := name; content := bytes |}.

End Sample.

(** ** The [/analyze] route as Flask serves it

    [analyze] above is the run of the view in which both [save] calls
    return. Two more things can happen to a request. Flask reads the form
    on the first access to [request.form], line 116, and refuses a body
    longer than [MAX_CONTENT_LENGTH] (line 25) there, with status 413. And
    the two [save] calls of lines 133 and 134 are outside both [try]
    blocks: when one raises, Flask answers with its own status 500 and the
    rest of the view does not run.

    The length of a request is the one its [Content-Length] header
    declares. [MAX_CONTENT_LENGTH] is the only limit the code sets; limits
    that a version of the form parser may add of its own, on the size or
    the number of the form fields, are not part of the model. *)

Module Flask.

(** What [FileStorage.save(path)] does: it opens the path for writing and
    copies the stream. The file system decides; an [open] that fails
    leaves the path as it was, a copy that fails leaves what was written
    until then. *)
Inductive SaveOutcome : Type :=
| Saved
| NotOpened (e : string)
| Interrupted (e : string) (written : string).

(** What the client gets: the JSON response of the view, or one of
    Flask's own error pages. *)
Inductive Outcome : Type :=
| Answered (r : Response)
| RequestEntityTooLarge
| InternalServerError (e : string).


Section Server.

Variable pdf_pages : option string -> Exc (list (option string)).
Variable docx_paragraphs : option string -> Exc (list string).
Variable nlp_call : string -> Exc (list Token).
Variable splitext_ext : string -> string.
Variable secure_filename : string -> string.
Variable db_error : list Row -> Row -> option string.
Variable UPLOAD_ROOT : string.
Variable MAX_CONTENT_LENGTH : Z.
Variable save_outcome : gmap string string -> string -> Upload -> SaveOutcome.

(** [file.save(path)]: returns or raises, and the files afterwards. *)
Definition save (path : string) (u : Upload) (fs : gmap string string)
  : Exc unit * gmap string string :=
  match save_outcome fs path u with
  | Saved => (Return tt, <[path := content u]> fs)
  | NotOpened e => (Raise e, fs)
  | Interrupted e written => (Raise e, <[path := written]> fs)
  end.

(** Lines 115 to 158, for a request whose body has [content_length]
    bytes. *)
Definition analyze (content_length : Z) (req : Request) (w : World)
  : Outcome * World :=
  if MAX_CONTENT_LENGTH <? content_length then (RequestEntityTooLarge, w)
  else
    match present (jobFile req), present (resumeFile req) with
    | Some jd_file, Some resume_file =>
        if negb (allowed_file splitext_ext (filename jd_file))
           || negb (allowed_file splitext_ext (filename resume_file))
        then (Answered {| body := Error "Unsupported file type. Allowed: .pdf, .docx";
                          status := 400 |}, w)
        else
          let jd_path :=
            path_join (JD_FOLDER UPLOAD_ROOT) (secure_filename (filename jd_file)) in
          let resume_path :=
            path_join (RESUME_FOLDER UPLOAD_ROOT)
                      (secure_filename (filename resume_file)) in
          match save jd_path jd_file (files w) with
          | (Raise e, fs) =>
              (InternalServerError e, {| files := fs; analyses := analyses w |})
          | (Return _, fs) =>
              match save resume_path resume_file fs with
              | (Raise e, fs) =>
                  (InternalServerError e, {| files := fs; analyses := analyses w |})
              | (Return _, fs) =>
                  match extract_and_analyze pdf_pages docx_paragraphs nlp_call
                                            fs jd_path resume_path with
                  | Raise _ =>
                      (Answered {| body := Error "Processing failed"; status := 500 |},
                       {| files := fs; analyses := analyses w |})
                  | Return result =>
                      let row := row_of (userId req) jd_path resume_path result in
                      match db_error (analyses w) row with
                      | Some _ =>
                          (Answered {| body := Error "DB error"; status := 500 |},
                           {| files := fs; analyses := analyses w |})
                      | None =>
                          (Answered {| body := Scores result; status := 200 |},
                           {| files := fs; analyses := analyses w ++ [row] |})
                      end
                  end
              end
          end
    | _, _ =>
        (Answered {| body := Error "Both jobFile and resumeFile are required";
                     status := 400 |}, w)
    end.

End Server.

End Flask.

(** A sample server: the limit is the default of line 25, and the file
    system refuses a path of more than 255 characters. *)

Module SampleServer.

Definition MAX_CONTENT_LENGTH : Z := 8 * 1024 * 1024.

Definition save_outcome (fs : gmap string string) (path : string) (u : Upload)
  : Flask.SaveOutcome :=
  if (255 <? String.length path)%nat
  then Flask.NotOpened "[Errno 36] File name too long"
  else Flask.Saved.

Definition analyze :=
  Flask.analyze Sample.pdf_pages Sample.docx_paragraphs Sample.nlp_call
                Sample.splitext_ext Sample.secure_filename Sample.db_error
                Sample.UPLOAD_ROOT MAX_CONTENT_LENGTH save_outcome.

End SampleServer.

(** ** Token sets of a given size *)

Module Words.

(** The words "a", "aa", "aaa", ... *)
Definition word (k : nat) : string := Str.times (N.of_nat (S k)) "a".

(** The first [n] of them. *)
Definition first (n : nat) : gset string := list_to_set (List.map word (List.seq 0 n)).

End Words.

(** ** Numbers of the same type and value *)

Module PyRel.

(** Two Python numbers that print the same: both ints and equal, or both
    floats and equal as rationals. *)
Definition same (x y : Py.num) : Prop :=
  match x, y with
  | Py.Int a, Py.Int b => a = b
  | Py.Float p, Py.Float q => (p == q)%Q
  | _, _ => False
  end.

End PyRel.

(** ** The [/register] and [/login] routes *)

(** The JSON body of the two routes: each field is a string, or absent
    (or null). *)
Record Credentials : Type := {
  cred_username : option string;
  cred_password : option string
}.

(** A row of the [users] table: the columns the two routes use. *)
Record UserRow : Type := {
  user_id : Z;
  user_name : string;
  user_password : string
}.

Inductive AuthBody : Type :=
| AuthError (error : string)
| AuthMessage (message : string)
| AuthLogin (userId : Z) (message : string).

(** What the caller gets: a JSON body with a status, or the failure of an
    exception that no handler of the route catches. *)
Inductive Reply : Type :=
| Json (body : AuthBody) (status : Z)
| Uncaught (e : string).

(** How the table answers an INSERT. *)
Inductive InsertOutcome : Type :=
| Inserted
| IntegrityError
| OtherError (e : string).

Section Accounts.

(** The schema of [users] is declared elsewhere: which rows it refuses
    and which id it gives to a new row are taken as given. *)
Variable insert_outcome : list UserRow -> string -> string -> InsertOutcome.
Variable fresh_id : list UserRow -> Z.

(** [not x] for a field of the body. *)
Definition missing (field : option string) : bool :=
  match field with
  | None => true
  | Some s => String.eqb s EmptyString
  end.

(** Lines 89 to 101. *)
Definition register (data : Credentials) (users : list UserRow)
  : Reply * list UserRow :=
  if missing (cred_username data) || missing (cred_password data)
  then (Json (AuthError "username and password required") 400, users)
  else
    let username := Str.or_empty (cred_username data) in
    let password := Str.or_empty (cred_password data) in
    match insert_outcome users username password with
    | Inserted =>
        (Json (AuthMessage "User registered") 201,
         users ++ [{| user_id := fresh_id users;
                      user_name := username;
                      user_password := password |}])
    | IntegrityError => (Json (AuthError "Username already exists") 409, users)
    | OtherError e => (Uncaught e, users)
    end.

(** [SELECT * FROM users WHERE username=? AND password=?], [fetchone()] *)
Definition find_user (users : list UserRow) (username password : string)
  : option UserRow :=
  List.find (fun row => String.eqb (user_name row) username
                        && String.eqb (user_password row) password) users.

(** Lines 104 to 112. *)
Definition login (data : Credentials) (users : list UserRow) : Reply :=
  if missing (cred_username data) || missing (cred_password data)
  then Json (AuthError "username and password required") 400
  else
    match find_user users (Str.or_empty (cred_username data))
                    (Str.or_empty (cred_password data)) with
    | Some user => Json (AuthLogin (user_id user) "Login successful") 200
    | None => Json (AuthError "Invalid credentials") 401
    end.

End Accounts.

(** A sample [users] table: user names are unique, ids count from 1. *)

Module SampleUsers.

Definition insert_outcome (users : list UserRow) (username password : string)
  : InsertOutcome :=
  if List.existsb (fun row => String.eqb (user_name row) username) users
  then IntegrityError else Inserted.

Definition fresh_id (users : list UserRow) : Z := Z.of_nat (S (List.length users)).

Definition register := register insert_outcome fresh_id.

Definition credentials (username password : string) : Credentials :=
  {| cred_username := Some username; cred_password := Some password |}.

End SampleUsers.

(** * Properties *)

(** ** Rounding *)

Module Rounding.

Import Binary64.
Local Open Scope Q_scope.

(** *** Powers of two *)

Lemma pow2_pos (e : Z) : 0 < 2 ^ e.
Proof. apply Qpower_0_lt. reflexivity. Qed.

Lemma pow2_succ (e : Z) : 2 ^ (e + 1) == 2 * 2 ^ e.
Proof. rewrite Qpower_plus by discriminate. change (2 ^ 1) with 2. ring. Qed.

Lemma pow2_le (e e' : Z) : (e <= e')%Z -> 2 ^ e <= 2 ^ e'.
Proof. intros H. apply Qpower_le_compat_l; [exact H | discriminate]. Qed.

Lemma pow2_lt_inv (e e' : Z) : 2 ^ e < 2 ^ e' -> (e < e')%Z.
Proof. intros H. apply (Qpower_lt_compat_l_inv 2); [exact H | reflexivity]. Qed.

Lemma pow2_inject (n : Z) : (0 <= n)%Z -> inject_Z (2 ^ n) == 2 ^ n.
Proof. intros H. apply (Zpower_Qpower 2 n H). Qed.

Lemma pow2_sub (a b : Z) : 2 ^ (a - b) * 2 ^ b == 2 ^ a.
Proof.
  rewrite <- Qpower_plus by discriminate.
  replace (a - b + b)%Z with a by ring. reflexivity.
Qed.

(** *** The exponent *)

Lemma log2_bounds (n : Z) :
  (0 < n)%Z ->
  2 ^ Z.log2 n <= inject_Z n /\ inject_Z n < 2 * 2 ^ Z.log2 n.
Proof.
  intros Hn. destruct (Z.log2_spec n Hn) as [Hlo Hhi].
  pose proof (Z.log2_nonneg n) as Hnn.
  rewrite <- pow2_succ, <- !pow2_inject by lia.
  rewrite <- Zle_Qle, <- Zlt_Qlt. unfold Z.succ in Hhi. split; assumption.
Qed.

Lemma ilog2_spec (a : Q) :
  0 < a -> 2 ^ ilog2 a <= a /\ a < 2 ^ (ilog2 a + 1).
Proof.
  intros Ha. unfold ilog2.
  set (ln := Z.log2 (Qnum a)). set (ld := Z.log2 (Zpos (Qden a))).
  assert (Hn : (0 < Qnum a)%Z).
  { destruct a as [n d]. unfold Qlt in Ha. simpl in *. lia. }
  destruct (log2_bounds (Qnum a) Hn) as [Hn1 Hn2].
  destruct (log2_bounds (Zpos (Qden a)) eq_refl) as [Hd1 Hd2].
  fold ln in Hn1, Hn2. fold ld in Hd1, Hd2.
  pose proof (pow2_sub ln ld) as HK.
  pose proof (pow2_pos (ln - ld)) as HKpos.
  pose proof (pow2_pos ld) as HDpos.
  assert (Hmul : a * inject_Z (Zpos (Qden a)) == inject_Z (Qnum a)).
  { destruct a as [n d]. unfold Qeq, Qmult, inject_Z. simpl. lia. }
  set (K := 2 ^ (ln - ld)) in *. set (D := 2 ^ ld) in *.
  set (P := 2 ^ ln) in *.
  set (nq := inject_Z (Qnum a)) in *. set (dq := inject_Z (Zpos (Qden a))) in *.
  destruct (Qle_bool K a) eqn:Hc.
  - apply Qle_bool_iff in Hc. split; [exact Hc |].
    rewrite pow2_succ. fold K.
    apply Qnot_le_lt. intros Hge.
    assert (2 * K * D <= a * dq) by nra. nra.
  - assert (Hlt : a < K).
    { apply Qnot_le_lt. intros Hle. apply Qle_bool_iff in Hle. congruence. }
    replace (ln - ld - 1 + 1)%Z with (ln - ld)%Z by ring. fold K.
    split; [| exact Hlt].
    assert (HK2 : 2 * 2 ^ (ln - ld - 1) == K).
    { rewrite <- pow2_succ. replace (ln - ld - 1 + 1)%Z with (ln - ld)%Z by ring.
      reflexivity. }
    pose proof (pow2_pos (ln - ld - 1)) as Hhpos.
    set (Kh := 2 ^ (ln - ld - 1)) in *.
    apply Qnot_lt_le. intros Hlo.
    assert (a * dq < Kh * (2 * D)) by nra. nra.
Qed.

Lemma ilog2_mono (x y : Q) : 0 < x -> x <= y -> (ilog2 x <= ilog2 y)%Z.
Proof.
  intros Hx Hxy.
  destruct (ilog2_spec x Hx) as [Hx1 _].
  destruct (ilog2_spec y) as [_ Hy2]; [lra |].
  assert (H : 2 ^ ilog2 x < 2 ^ (ilog2 y + 1)) by lra.
  apply pow2_lt_inv in H. lia.
Qed.

(** *** Rounding to the nearest integer *)

Lemma rhe_range (s : Q) : (Qfloor s <= rhe s <= Qfloor s + 1)%Z.
Proof.
  unfold rhe. destruct (Qcompare _ _); [destruct (Z.even _) | |]; lia.
Qed.

Lemma rhe_int (z : Z) : rhe (inject_Z z) = z.
Proof.
  unfold rhe. rewrite Qfloor_Z.
  destruct (Qcompare_spec (inject_Z z - inject_Z z) (1 # 2)) as [H|H|H];
    [lra | reflexivity | lra].
Qed.

Lemma rhe_mono (s t : Q) : s <= t -> (rhe s <= rhe t)%Z.
Proof.
  intros Hst. pose proof (Qfloor_resp_le s t Hst) as Hf.
  destruct (Z.eq_dec (Qfloor s) (Qfloor t)) as [E|NE].
  - unfold rhe.
    destruct (Qcompare_spec (s - inject_Z (Qfloor s)) (1 # 2)) as [Hs|Hs|Hs];
    destruct (Qcompare_spec (t - inject_Z (Qfloor t)) (1 # 2)) as [Ht|Ht|Ht];
    rewrite E in *; try lra; destruct (Z.even (Qfloor t)); lia.
  - pose proof (rhe_range s). pose proof (rhe_range t). lia.
Qed.

#[global] Instance rhe_proper : Proper (Qeq ==> eq) rhe.
Proof.
  intros s t E. apply Z.le_antisymm; apply rhe_mono; rewrite E; apply Qle_refl.
Qed.

(** *** Rounding to 53 bits *)

Lemma rnd_pos_bounds (a : Q) :
  0 < a -> 2 ^ ilog2 a <= rnd_pos a /\ rnd_pos a <= 2 ^ (ilog2 a + 1).
Proof.
  intros Ha. destruct (ilog2_spec a Ha) as [Hlo Hhi].
  unfold rnd_pos. set (k := ilog2 a) in *. set (e := (k - 52)%Z).
  pose proof (pow2_pos e) as He.
  assert (Hk : 2 ^ 52 * 2 ^ e == 2 ^ k).
  { unfold e. rewrite <- Qpower_plus by discriminate.
    replace (52 + (k - 52))%Z with k by ring. reflexivity. }
  assert (Hk1 : 2 ^ 53 * 2 ^ e == 2 ^ (k + 1)).
  { unfold e. rewrite <- Qpower_plus by discriminate.
    replace (53 + (k - 52))%Z with (k + 1)%Z by ring. reflexivity. }
  assert (Hs1 : inject_Z (2 ^ 52) <= a / 2 ^ e).
  { apply Qle_shift_div_l; [exact He |].
    rewrite pow2_inject by lia. rewrite Hk. exact Hlo. }
  assert (Hs2 : a / 2 ^ e <= inject_Z (2 ^ 53)).
  { apply Qle_shift_div_r; [exact He |].
    rewrite pow2_inject by lia. rewrite Hk1. lra. }
  apply rhe_mono in Hs1, Hs2. rewrite rhe_int in Hs1, Hs2.
  rewrite Zle_Qle in Hs1, Hs2. rewrite pow2_inject in Hs1, Hs2 by lia.
  set (m := inject_Z (rhe (a / 2 ^ e))) in *.
  rewrite <- Hk, <- Hk1. split; apply Qmult_le_compat_r; lra.
Qed.

Lemma rnd_pos_pos (a : Q) : 0 < a -> 0 < rnd_pos a.
Proof.
  intros Ha. destruct (rnd_pos_bounds a Ha) as [H _].
  pose proof (pow2_pos (ilog2 a)). lra.
Qed.

Lemma rnd_pos_mono (x y : Q) : 0 < x -> x <= y -> rnd_pos x <= rnd_pos y.
Proof.
  intros Hx Hxy. assert (Hy : 0 < y) by lra.
  pose proof (ilog2_mono x y Hx Hxy) as Hk.
  destruct (Z.eq_dec (ilog2 x) (ilog2 y)) as [E|NE].
  - unfold rnd_pos. rewrite E. set (e := (ilog2 y - 52)%Z).
    pose proof (pow2_pos e) as He.
    apply Qmult_le_compat_r; [| lra].
    rewrite <- Zle_Qle. apply rhe_mono.
    apply Qmult_le_compat_r; [exact Hxy |].
    apply Qlt_le_weak, Qinv_lt_0_compat, He.
  - destruct (rnd_pos_bounds x Hx) as [_ Hx2].
    destruct (rnd_pos_bounds y Hy) as [Hy1 _].
    assert (2 ^ (ilog2 x + 1) <= 2 ^ ilog2 y) by (apply pow2_le; lia).
    lra.
Qed.

Lemma rnd_pos_val (x : Q) : 0 < x -> rnd x == rnd_pos x.
Proof.
  intros Hx. unfold rnd.
  destruct (Qcompare_spec x 0) as [H|H|H]; [lra | lra | apply Qred_correct].
Qed.

Lemma rnd_neg_val (x : Q) : x < 0 -> rnd x == - rnd_pos (- x).
Proof.
  intros Hx. unfold rnd.
  destruct (Qcompare_spec x 0) as [H|H|H]; [lra | apply Qred_correct | lra].
Qed.

Lemma rnd_zero (x : Q) : x == 0 -> rnd x == 0.
Proof.
  intros Hx. unfold rnd.
  destruct (Qcompare_spec x 0) as [H|H|H]; [reflexivity | lra | lra].
Qed.

(** Rounding is monotone: the fact every bound below rests on. *)
Lemma rnd_mono (x y : Q) : x <= y -> rnd x <= rnd y.
Proof.
  intros Hxy.
  destruct (Qlt_le_dec x 0) as [Hx|Hx]; destruct (Qlt_le_dec y 0) as [Hy|Hy].
  - rewrite (rnd_neg_val x Hx), (rnd_neg_val y Hy).
    assert (rnd_pos (- y) <= rnd_pos (- x)) by (apply rnd_pos_mono; lra). lra.
  - rewrite (rnd_neg_val x Hx).
    assert (0 < rnd_pos (- x)) by (apply rnd_pos_pos; lra).
    destruct (Qeq_dec y 0) as [E|NE].
    + rewrite (rnd_zero y E). lra.
    + assert (Hy' : 0 < y) by (apply Qnot_le_lt; intros C; apply NE; lra).
      rewrite (rnd_pos_val y Hy'). pose proof (rnd_pos_pos y Hy'). lra.
  - lra.
  - destruct (Qeq_dec x 0) as [E|NE].
    + rewrite (rnd_zero x E). destruct (Qeq_dec y 0) as [E'|NE'].
      * rewrite (rnd_zero y E'). lra.
      * assert (Hy' : 0 < y) by (apply Qnot_le_lt; intros C; apply NE'; lra).
        rewrite (rnd_pos_val y Hy'). pose proof (rnd_pos_pos y Hy'). lra.
    + assert (Hx' : 0 < x) by (apply Qnot_le_lt; intros C; apply NE; lra).
      rewrite (rnd_pos_val x Hx'), (rnd_pos_val y) by lra.
      apply rnd_pos_mono; assumption.
Qed.

#[global] Instance rnd_proper : Proper (Qeq ==> Qeq) rnd.
Proof.
  intros x y E. apply Qle_antisym; apply rnd_mono; rewrite E; apply Qle_refl.
Qed.

Lemma inject_Z_pos (n : Z) : (0 < n)%Z -> 0 < inject_Z n.
Proof. intros H. change (inject_Z 0 < inject_Z n). rewrite <- Zlt_Qlt. exact H. Qed.

Lemma inject_Z_neg (n : Z) : (n < 0)%Z -> inject_Z n < 0.
Proof. intros H. change (inject_Z n < inject_Z 0). rewrite <- Zlt_Qlt. exact H. Qed.

(** Numbers with at most 53 significant bits are not changed. *)
Lemma rnd_pos_dyadic (n j : Z) :
  (0 < n < 2 ^ 53)%Z ->
  rnd_pos (inject_Z n * 2 ^ j) == inject_Z n * 2 ^ j.
Proof.
  intros Hn. set (x := inject_Z n * 2 ^ j).
  pose proof (pow2_pos j) as Hj.
  assert (Hnq : 0 < inject_Z n) by (apply inject_Z_pos; lia).
  assert (Hn53 : inject_Z n < 2 ^ 53).
  { rewrite <- pow2_inject by lia. rewrite <- Zlt_Qlt. lia. }
  assert (Hx : 0 < x) by (unfold x; nra).
  destruct (ilog2_spec x Hx) as [Hlo _].
  assert (Hk : (ilog2 x - 52 <= j)%Z).
  { assert (H : 2 ^ ilog2 x < 2 ^ (53 + j)).
    { rewrite Qpower_plus by discriminate.
      apply (Qle_lt_trans _ x); [exact Hlo |].
      unfold x. apply Qmult_lt_compat_r; assumption. }
    apply pow2_lt_inv in H. lia. }
  unfold rnd_pos. set (e := (ilog2 x - 52)%Z) in *.
  pose proof (pow2_pos e) as He.
  pose proof (pow2_sub j e) as Hje.
  assert (Hs : x / 2 ^ e == inject_Z (n * 2 ^ (j - e))).
  { rewrite inject_Z_mult, pow2_inject by lia.
    unfold x. rewrite <- Hje. field. lra. }
  rewrite Hs, rhe_int, inject_Z_mult, pow2_inject by lia.
  unfold x. rewrite <- Hje. ring.
Qed.

Lemma rnd_dyadic (n j : Z) :
  (Z.abs n < 2 ^ 53)%Z -> rnd (inject_Z n * 2 ^ j) == inject_Z n * 2 ^ j.
Proof.
  intros Hn. pose proof (pow2_pos j) as Hj.
  destruct (Z.lt_trichotomy n 0) as [Hneg|[Hz|Hpos]].
  - assert (Hnq : inject_Z n < 0) by (apply inject_Z_neg; lia).
    rewrite rnd_neg_val by nra.
    assert (E : - (inject_Z n * 2 ^ j) == inject_Z (- n) * 2 ^ j).
    { rewrite inject_Z_opp. ring. }
    assert (R : rnd_pos (inject_Z (- n) * 2 ^ j) == inject_Z (- n) * 2 ^ j)
      by (apply rnd_pos_dyadic; lia).
    assert (P : 0 < inject_Z (- n) * 2 ^ j) by (rewrite <- E; nra).
    assert (M : rnd_pos (- (inject_Z n * 2 ^ j)) == rnd_pos (inject_Z (- n) * 2 ^ j)).
    { apply Qle_antisym; apply rnd_pos_mono; lra. }
    rewrite M, R, inject_Z_opp. ring.
  - subst n. rewrite rnd_zero; ring.
  - assert (Hnq : 0 < inject_Z n) by (apply inject_Z_pos; lia).
    rewrite rnd_pos_val by nra. apply rnd_pos_dyadic. lia.
Qed.

Lemma rnd_int (n : Z) : (Z.abs n < 2 ^ 53)%Z -> rnd (inject_Z n) == inject_Z n.
Proof.
  intros Hn. pose proof (rnd_dyadic n 0 Hn) as H.
  change (2 ^ 0) with 1 in H. rewrite Qmult_1_r in H. exact H.
Qed.

(** A representable bound on the exact result bounds the rounded one. *)
Lemma rnd_ge (c x : Q) : rnd c == c -> c <= x -> c <= rnd x.
Proof. intros Hc H. rewrite <- Hc. apply rnd_mono, H. Qed.

Lemma rnd_le (c x : Q) : rnd c == c -> x <= c -> rnd x <= c.
Proof. intros Hc H. rewrite <- Hc. apply rnd_mono, H. Qed.

(** *** The rounding error *)

Lemma rhe_near (s : Q) : s - (1 # 2) <= inject_Z (rhe s) <= s + (1 # 2).
Proof.
  pose proof (Qfloor_le s) as Hlo. pose proof (Qlt_floor s) as Hhi.
  rewrite inject_Z_plus in Hhi. change (inject_Z 1) with 1 in Hhi.
  unfold rhe.
  destruct (Qcompare_spec (s - inject_Z (Qfloor s)) (1 # 2)) as [H|H|H];
    [destruct (Z.even (Qfloor s)) | |];
    rewrite ?inject_Z_plus; change (inject_Z 1) with 1; lra.
Qed.

Lemma rnd_pos_err (a : Q) :
  0 < a -> a * (1 - u) <= rnd_pos a <= a * (1 + u).
Proof.
  intros Ha. destruct (ilog2_spec a Ha) as [Hlo _].
  unfold rnd_pos. set (k := ilog2 a) in *. set (e := (k - 52)%Z).
  pose proof (pow2_pos e) as He.
  pose proof (rhe_near (a / 2 ^ e)) as [N1 N2].
  set (m := inject_Z (rhe (a / 2 ^ e))) in *.
  assert (Hs : a / 2 ^ e * 2 ^ e == a) by (field; lra).
  assert (Hk : 2 ^ 52 * 2 ^ e == 2 ^ k).
  { unfold e. rewrite <- Qpower_plus by discriminate.
    replace (52 + (k - 52))%Z with k by ring. reflexivity. }
  set (s := a / 2 ^ e) in *. set (p := 2 ^ e) in *.
  assert (Hp : p * (1 # 2) <= a * u).
  { unfold u. change (2 ^ 52) with 4503599627370496 in Hk.
    change (1 # 2 ^ 53) with (1 # 9007199254740992). lra. }
  assert (L : (s - (1 # 2)) * p <= m * p) by (apply Qmult_le_compat_r; lra).
  assert (U : m * p <= (s + (1 # 2)) * p) by (apply Qmult_le_compat_r; lra).
  split; lra.
Qed.

Lemma rnd_err (x : Q) :
  0 <= x -> x * (1 - u) <= rnd x <= x * (1 + u).
Proof.
  intros Hx. destruct (Qeq_dec x 0) as [E|NE].
  - rewrite (rnd_zero x E), E. lra.
  - assert (Hx' : 0 < x) by (apply Qnot_le_lt; intros C; apply NE; lra).
    rewrite (rnd_pos_val x Hx'). apply rnd_pos_err, Hx'.
Qed.

End Rounding.

(** ** Agreement with the IEEE 754 model *)

(** Every percentage of up to 60 job-description tokens is the same
    binary64 value in both models. *)
Example percent_agrees_upto_60 :
  List.forallb (fun p => IEEE.percent_agrees (fst p) (snd p)) (IEEE.pairs_upto 60) = true.
Proof. vm_compute. reflexivity. Qed.

(** So is the length penalty, for the first lengths and around the
    lengths where the stored readability changes. *)
Example penalty_agrees_on_samples :
  List.forallb IEEE.penalty_agrees
    (List.map Z.of_nat (List.seq 0 200)
     ++ [1499; 1500; 1501; 7000; 7001; 103499; 103500; 103501; 104999; 105000;
         105001; 1000000]) = true.
Proof. vm_compute. reflexivity. Qed.

(** 29 tokens found out of 100: the quotient rounds below 0.29, the
    product stays below 29, and the stored keyword score is 28. *)
Example keyword_29_of_100 :
  Py.int (Py.mul (Py.truediv (Py.Int 29) (Py.Int 100)) (Py.Int 100)) = 28.
Proof. vm_compute. reflexivity. Qed.

(** ** Python arithmetic within bounds *)

Module PyFacts.

Import Binary64 Rounding Py.
Local Open Scope Q_scope.

Lemma repr_int (n : Z) : (Z.abs n < 2 ^ 53)%Z -> repr (inject_Z n).
Proof. apply rnd_int. Qed.

Lemma repr_quarter (n : Z) : (Z.abs n < 2 ^ 53)%Z -> repr (inject_Z n / 4).
Proof.
  intros H. unfold repr. pose proof (rnd_dyadic n (-2) H) as R.
  change (2 ^ (-2)) with (/ 4) in R. exact R.
Qed.

Lemma to_float_ge (c : Q) (x : num) : repr c -> c <= val x -> c <= to_float x.
Proof. destruct x; simpl; intros Hc H; [apply rnd_ge; assumption | exact H]. Qed.

Lemma to_float_le (c : Q) (x : num) : repr c -> val x <= c -> to_float x <= c.
Proof. destruct x; simpl; intros Hc H; [apply rnd_le; assumption | exact H]. Qed.

Lemma add_between (x y : num) (lx hx ly hy : Q) :
  repr lx -> repr hx -> repr ly -> repr hy ->
  repr (lx + ly) -> repr (hx + hy) ->
  lx <= val x <= hx -> ly <= val y <= hy ->
  lx + ly <= val (add x y) <= hx + hy.
Proof.
  intros Rlx Rhx Rly Rhy Rl Rh [Hx1 Hx2] [Hy1 Hy2].
  pose proof (to_float_ge lx x Rlx Hx1). pose proof (to_float_le hx x Rhx Hx2).
  pose proof (to_float_ge ly y Rly Hy1). pose proof (to_float_le hy y Rhy Hy2).
  destruct x as [a|p], y as [b|q]; simpl in *;
    try (split; [apply rnd_ge | apply rnd_le]; trivial; lra).
  rewrite inject_Z_plus. lra.
Qed.

Lemma quarter_between (x : num) (l h : Q) :
  repr l -> repr h -> repr (l / 4) -> repr (h / 4) ->
  l <= val x <= h ->
  l / 4 <= val (truediv x (Int 4)) <= h / 4.
Proof.
  intros Rl Rh Rl4 Rh4 [H1 H2].
  assert (R4 : rnd (inject_Z 4) == 4) by (apply rnd_int; reflexivity).
  destruct x as [a|p]; simpl in *.
  - split; [apply rnd_ge | apply rnd_le]; trivial;
      change (inject_Z 4) with 4; unfold Qdiv; change (/ 4) with (1 # 4); lra.
  - rewrite R4. split; [apply rnd_ge | apply rnd_le]; trivial;
      unfold Qdiv; change (/ 4) with (1 # 4); lra.
Qed.

Lemma min_between (a b : num) (l h : Q) :
  l <= val a <= h -> l <= val b -> l <= val (min a b) <= h.
Proof.
  intros Ha Hb. unfold min, ltb.
  destruct (Qle_bool (val a) (val b)) eqn:E; simpl; [exact Ha |].
  assert (val b < val a).
  { apply Qnot_le_lt. intros C. apply Qle_bool_iff in C. congruence. }
  lra.
Qed.

Lemma max_between (a b : num) (l h : Q) :
  l <= val a <= h -> val b <= h -> l <= val (max a b) <= h.
Proof.
  intros Ha Hb. unfold max, ltb.
  destruct (Qle_bool (val b) (val a)) eqn:E; simpl; [exact Ha |].
  assert (val a < val b).
  { apply Qnot_le_lt. intros C. apply Qle_bool_iff in C. congruence. }
  lra.
Qed.

Lemma trunc_eq (q q' : Q) : q == q' -> trunc q = trunc q'.
Proof.
  intros E. unfold trunc.
  assert (F : Qfloor q = Qfloor q').
  { apply Z.le_antisymm; apply Qfloor_resp_le; rewrite E; apply Qle_refl. }
  assert (C : Qceiling q = Qceiling q').
  { apply Z.le_antisymm; apply Qceiling_resp_le; rewrite E; apply Qle_refl. }
  destruct (Qle_bool 0 q) eqn:B; destruct (Qle_bool 0 q') eqn:B'; trivial.
  - apply Qle_bool_iff in B. rewrite E in B. apply Qle_bool_iff in B. congruence.
  - apply Qle_bool_iff in B'. rewrite <- E in B'. apply Qle_bool_iff in B'. congruence.
Qed.

Lemma trunc_floor (q : Q) : 0 <= q -> trunc q = Qfloor q.
Proof.
  intros H. unfold trunc. apply Qle_bool_iff in H. rewrite H. reflexivity.
Qed.

Lemma int_floor (x : num) : 0 <= val x -> int x = Qfloor (val x).
Proof.
  destruct x as [a|q]; simpl; intros H; [symmetry; apply Qfloor_Z |].
  apply trunc_floor, H.
Qed.

Lemma int_between (x : num) (a b : Z) :
  (0 <= a)%Z -> inject_Z a <= val x <= inject_Z b -> (a <= int x <= b)%Z.
Proof.
  intros Ha [H1 H2].
  assert (H0 : 0 <= val x).
  { apply Qle_trans with (inject_Z a); [| exact H1].
    change 0 with (inject_Z 0). rewrite <- Zle_Qle. exact Ha. }
  rewrite (int_floor x H0).
  apply Qfloor_resp_le in H1, H2. rewrite Qfloor_Z in H1, H2. lia.
Qed.

Lemma int_brackets (x : num) :
  0 <= val x -> inject_Z (int x) <= val x <= inject_Z (int x + 1).
Proof.
  intros H. rewrite (int_floor x H). split; [apply Qfloor_le |].
  apply Qlt_le_weak, Qlt_floor.
Qed.

End PyFacts.

(** ** The four components *)

Module Components.

Import Binary64 Rounding Py PyFacts.
Local Open Scope Q_scope.

Lemma inject_nat_nonneg (n : nat) : 0 <= inject_Z (Z.of_nat n).
Proof. change 0 with (inject_Z 0). rewrite <- Zle_Qle. lia. Qed.

Lemma truthy_size (s : gset string) : truthy s = true -> (0 < Z.of_nat (size s))%Z.
Proof.
  unfold truthy. destruct (Nat.eqb_spec (size s) 0); [discriminate | lia].
Qed.

Lemma truthy_false (s : gset string) : truthy s = false <-> s = ∅.
Proof.
  unfold truthy. destruct (Nat.eqb_spec (size s) 0) as [E|NE]; simpl.
  - split; [intros _; apply size_empty_inv in E; apply leibniz_equiv, E | reflexivity].
  - split; [discriminate |]. intros ->. rewrite size_empty in NE. congruence.
Qed.

(** The quotient of two lengths, the first at most the second. *)
Lemma ratio_between (a b : Z) :
  (0 <= a <= b)%Z -> (0 < b)%Z ->
  0 <= val (truediv (Int a) (Int b)) <= 1.
Proof.
  intros Hab Hb. simpl.
  assert (Hbq : 0 < inject_Z b) by (apply inject_Z_pos, Hb).
  assert (Ha0 : 0 <= inject_Z a).
  { change 0 with (inject_Z 0). rewrite <- Zle_Qle. lia. }
  assert (Hle : inject_Z a <= inject_Z b) by (rewrite <- Zle_Qle; lia).
  split.
  - apply rnd_ge; [apply rnd_zero; reflexivity |].
    apply Qle_shift_div_l; [exact Hbq | lra].
  - apply rnd_le; [apply (rnd_int 1); reflexivity |].
    apply Qle_shift_div_r; [exact Hbq | lra].
Qed.

Lemma percent_between (x : num) :
  0 <= val x <= 1 -> 0 <= val (mul x (Int 100)) <= 100.
Proof.
  intros [H0 H1].
  assert (R100 : rnd (inject_Z 100) == 100) by (apply rnd_int; reflexivity).
  destruct x as [a|q]; simpl in *.
  - rewrite inject_Z_mult. change (inject_Z 100) with 100. lra.
  - rewrite R100. split.
    + apply rnd_ge; [apply rnd_zero; reflexivity | lra].
    + apply rnd_le; [apply (rnd_int 100); reflexivity | lra].
Qed.

Lemma keyword_match_between (resume_tokens jd_tokens : gset string) :
  0 <= val (keyword_match_of resume_tokens jd_tokens) <= 100.
Proof.
  unfold keyword_match_of. destruct (truthy jd_tokens) eqn:T.
  - apply percent_between. unfold len_set. apply ratio_between.
    + split; [lia |]. apply Nat2Z.inj_le, subseteq_size, intersection_subseteq_r.
    + apply truthy_size, T.
  - unfold val, inject_Z. lra.
Qed.

Lemma skill_match_between (keyword_match : num) :
  0 <= val keyword_match <= 100 ->
  10 <= val (skill_match_of keyword_match) <= 100.
Proof.
  intros H. unfold skill_match_of.
  apply min_between; [unfold val, inject_Z; lra |].
  assert (B : 0 + 10 <= val (add keyword_match (Int 10)) <= 100 + 10).
  { apply add_between; try (apply (repr_int _); reflexivity);
      [exact H | unfold val, inject_Z; lra]. }
  lra.
Qed.

Lemma readability_between (resume_text : option string) :
  30 <= val (readability_of resume_text) <= 100.
Proof.
  unfold readability_of. apply max_between; [unfold val, inject_Z; lra |].
  set (n := Z.of_nat (String.length (Str.or_empty resume_text))).
  assert (R100 : rnd (inject_Z 100) == 100) by (apply rnd_int; reflexivity).
  unfold len_str. fold n. simpl. rewrite R100.
  apply rnd_le; [apply (rnd_int 100); reflexivity |].
  assert (0 <= rnd (inject_Z n / inject_Z 1500)); [| lra].
  apply rnd_ge; [apply rnd_zero; reflexivity |].
  apply Qle_shift_div_l; [reflexivity |].
  pose proof (inject_nat_nonneg (String.length (Str.or_empty resume_text))).
  fold n in H. lra.
Qed.

Lemma format_score_cases (resume_text : option string) :
  format_score_of resume_text = Int 70 \/ format_score_of resume_text = Int 90.
Proof.
  unfold format_score_of. destruct (Str.contains _ _); [right | left]; reflexivity.
Qed.

Lemma format_score_between (resume_text : option string) :
  70 <= val (format_score_of resume_text) <= 90.
Proof.
  destruct (format_score_cases resume_text) as [-> | ->];
    unfold val, inject_Z; lra.
Qed.

(** The computed overlap is the exact percentage up to two roundings. *)
Lemma keyword_match_close (resume_tokens jd_tokens : gset string) :
  truthy jd_tokens = true ->
  Qabs (val (keyword_match_of resume_tokens jd_tokens)
        - inject_Z (Z.of_nat (size (resume_tokens ∩ jd_tokens)))
          / inject_Z (Z.of_nat (size jd_tokens)) * 100)
  <= 1 # (2 ^ 45).
Proof.
  intros T. unfold keyword_match_of. rewrite T. unfold len_set.
  cbn [mul truediv to_float val].
  set (a := Z.of_nat (size (resume_tokens ∩ jd_tokens))).
  set (b := Z.of_nat (size jd_tokens)).
  assert (Hab : (0 <= a <= b)%Z).
  { unfold a, b. split; [lia |].
    apply Nat2Z.inj_le, subseteq_size, intersection_subseteq_r. }
  assert (Hb : (0 < b)%Z) by apply truthy_size, T.
  pose proof (ratio_between a b Hab Hb) as [R0 R1].
  cbn [truediv val] in R0, R1.
  assert (Hq : 0 <= inject_Z a / inject_Z b <= 1).
  { assert (Hbq : 0 < inject_Z b) by (apply inject_Z_pos, Hb). split.
    - apply Qle_shift_div_l; [exact Hbq |].
      assert (0 <= inject_Z a); [| lra].
      change 0 with (inject_Z 0). rewrite <- Zle_Qle. lia.
    - apply Qle_shift_div_r; [exact Hbq |].
      assert (inject_Z a <= inject_Z b) by (rewrite <- Zle_Qle; lia). lra. }
  set (q := inject_Z a / inject_Z b) in *.
  pose proof (rnd_err q (proj1 Hq)) as [E1 E2].
  assert (R100 : rnd (inject_Z 100) == 100) by (apply rnd_int; reflexivity).
  rewrite R100.
  pose proof (rnd_err (rnd q * 100) ltac:(lra)) as [F1 F2].
  set (q1 := rnd q) in *. set (km := rnd (q1 * 100)) in *.
  unfold u in *. change (1 # 2 ^ 53) with (1 # 9007199254740992) in *.
  change (1 # 2 ^ 45) with (1 # 35184372088832).
  destruct Hq as [Hq0 Hq1].
  apply Qabs_Qle_condition. split; lra.
Qed.

Lemma add_between_int (x y : num) (a b c d : Z) :
  (0 <= a <= b)%Z -> (b <= 1000)%Z -> (0 <= c <= d)%Z -> (d <= 1000)%Z ->
  inject_Z a <= val x <= inject_Z b ->
  inject_Z c <= val y <= inject_Z d ->
  inject_Z (a + c) <= val (add x y) <= inject_Z (b + d).
Proof.
  intros Hab Hb Hcd Hd Hx Hy.
  assert (P : (1000 + 1000 < 2 ^ 53)%Z) by reflexivity.
  rewrite !inject_Z_plus.
  apply add_between; trivial; rewrite <- ?inject_Z_plus; apply repr_int; lia.
Qed.

(** The truncated mean of the four scores lies between the floored mean
    of their integer parts and one more. *)
Lemma overall_bracket (km sm rd fs : num) :
  0 <= val km <= 100 -> 10 <= val sm <= 100 ->
  30 <= val rd <= 100 -> 70 <= val fs <= 90 ->
  let total := (int km + int sm + int rd + int fs)%Z in
  (total / 4 <= overall_of km sm rd fs <= total / 4 + 1)%Z.
Proof.
  intros Hkm Hsm Hrd Hfs total.
  assert (Bk : (0 <= int km <= 100)%Z) by (apply int_between; [lia | exact Hkm]).
  assert (Bs : (10 <= int sm <= 100)%Z) by (apply int_between; [lia | exact Hsm]).
  assert (Br : (30 <= int rd <= 100)%Z) by (apply int_between; [lia | exact Hrd]).
  assert (Bf : (70 <= int fs <= 90)%Z) by (apply int_between; [lia | exact Hfs]).
  pose proof (int_brackets km ltac:(destruct Hkm; lra)) as Ik.
  pose proof (int_brackets sm ltac:(destruct Hsm; lra)) as Is.
  pose proof (int_brackets rd ltac:(destruct Hrd; lra)) as Ir.
  pose proof (int_brackets fs ltac:(destruct Hfs; lra)) as If.
  assert (S1 := fun A B C D => add_between_int _ _ _ _ _ _ A B C D Ik Is).
  specialize (S1 ltac:(lia) ltac:(lia) ltac:(lia) ltac:(lia)).
  assert (S2 := fun A B C D => add_between_int _ _ _ _ _ _ A B C D S1 Ir).
  specialize (S2 ltac:(lia) ltac:(lia) ltac:(lia) ltac:(lia)).
  assert (S3 := fun A B C D => add_between_int _ _ _ _ _ _ A B C D S2 If).
  specialize (S3 ltac:(lia) ltac:(lia) ltac:(lia) ltac:(lia)).
  replace (int km + int sm + int rd + int fs)%Z with total in S3 by reflexivity.
  replace (int km + 1 + (int sm + 1) + (int rd + 1) + (int fs + 1))%Z
    with (total + 4)%Z in S3 by (unfold total; ring).
  assert (P : (400 < 2 ^ 53)%Z) by reflexivity.
  assert (Q4 : inject_Z total / 4 <=
               val (truediv (add (add (add km sm) rd) fs) (Int 4)) <=
               inject_Z (total + 4) / 4).
  { apply quarter_between; trivial;
      first [apply repr_int | apply repr_quarter]; unfold total; lia. }
  destruct Q4 as [Q1 Q2]. unfold overall_of.
  set (avg := truediv (add (add (add km sm) rd) fs) (Int 4)) in *.
  assert (A0 : 0 <= val avg).
  { apply Qle_trans with (inject_Z total / 4); [| exact Q1].
    apply Qle_shift_div_l; [reflexivity |].
    assert (0 <= inject_Z total); [| lra].
    change 0 with (inject_Z 0). rewrite <- Zle_Qle. unfold total. lia. }
  rewrite (int_floor avg A0).
  apply Qfloor_resp_le in Q1, Q2.
  change 4 with (inject_Z 4) in Q1, Q2. rewrite <- !Zdiv_Qdiv in Q1, Q2.
  split; [exact Q1 |].
  assert ((total + 4) / 4 = total / 4 + 1)%Z.
  { replace (total + 4)%Z with (1 * 4 + total)%Z by ring.
    rewrite Z.div_add_l by lia. ring. }
  lia.
Qed.

End Components.

(** ** Strings *)

Module StrFacts.

Import Str.

Lemma lower_char_idem (c : ascii) : lower_char (lower_char c) = lower_char c.
Proof. destruct c as [[] [] [] [] [] [] [] []]; reflexivity. Qed.

Lemma lower_idem (s : string) : lower (lower s) = lower s.
Proof.
  induction s as [|c t IH]; simpl; [reflexivity |].
  rewrite lower_char_idem, IH. reflexivity.
Qed.

Lemma append_nil (t : string) : String.append EmptyString t = t.
Proof. reflexivity. Qed.

Lemma append_cons (c : ascii) (s t : string) :
  String.append (String c s) t = String c (String.append s t).
Proof. reflexivity. Qed.

Lemma lower_app (s t : string) :
  lower (String.append s t) = String.append (lower s) (lower t).
Proof.
  induction s as [|c s IH]; [reflexivity |].
  rewrite append_cons. simpl. rewrite IH, append_cons. reflexivity.
Qed.

Lemma lower_length (s : string) : String.length (lower s) = String.length s.
Proof. induction s as [|c t IH]; simpl; [reflexivity | rewrite IH; reflexivity]. Qed.

Lemma startswith_app (needle rest : string) :
  startswith (String.append needle rest) needle = true.
Proof.
  induction needle as [|c n IH]; [reflexivity |].
  rewrite append_cons. simpl. rewrite Ascii.eqb_refl. exact IH.
Qed.

Lemma contains_startswith (needle hay : string) :
  startswith hay needle = true -> contains needle hay = true.
Proof. intros H. destruct hay; simpl; rewrite H; reflexivity. Qed.

(** A text built around the needle contains it. *)
Lemma contains_app (needle before after : string) :
  contains needle (String.append before (String.append needle after)) = true.
Proof.
  induction before as [|c b IH].
  - rewrite append_nil. apply contains_startswith, startswith_app.
  - rewrite append_cons. simpl. rewrite IH. apply orb_true_r.
Qed.

Lemma append_assoc (a b c : string) :
  String.append (String.append a b) c = String.append a (String.append b c).
Proof.
  induction a as [|x a IH]; [reflexivity |].
  rewrite !append_cons, IH. reflexivity.
Qed.

(** A text that starts with the needle is the needle and a rest. *)
Lemma startswith_split (needle hay : string) :
  startswith hay needle = true -> exists rest, hay = String.append needle rest.
Proof.
  revert hay. induction needle as [|a n IH]; intros hay H.
  - exists hay. reflexivity.
  - destruct hay as [|b h]; [discriminate H |]. simpl in H.
    apply andb_true_iff in H as [E H]. apply Ascii.eqb_eq in E. subst b.
    destruct (IH h H) as [rest ->]. exists rest. reflexivity.
Qed.

(** A text that contains the needle is built around it. *)
Lemma contains_split (needle hay : string) :
  contains needle hay = true ->
  exists before after, hay = String.append before (String.append needle after).
Proof.
  induction hay as [|c t IH]; intros H.
  - simpl in H. rewrite orb_false_r in H.
    destruct (startswith_split _ _ H) as [rest E].
    exists EmptyString, rest. exact E.
  - simpl in H. apply orb_true_iff in H as [H | H].
    + destruct (startswith_split _ _ H) as [rest E].
      exists EmptyString, rest. exact E.
    + destruct (IH H) as (before & after & ->).
      exists (String c before), after. reflexivity.
Qed.

End StrFacts.

(** ** The score record *)

Section ScoreRecord.

Import Py Components.
Local Open Scope Z_scope.

Variable nlp : string -> list Token.
Variables resume_text jd_text : option string.

Let keyword_match := keyword_match_of (normalize nlp resume_text) (normalize nlp jd_text).
Let skill_match := skill_match_of keyword_match.
Let readability_score := readability_of resume_text.
Let format_score := format_score_of resume_text.

(** C1 (as amended): [overall] is the truncation of the mean of the four
    scores before they are truncated, in floating point; against the
    four integer fields of the record it is their floored mean or one
    more. *)
Theorem overall_is_truncated_mean_of_scores :
  let s := analyze_resume nlp resume_text jd_text in
  overall s =
    int (truediv (add (add (add keyword_match skill_match) readability_score)
                      format_score) (Int 4))
  /\ keyword s = int keyword_match
  /\ skill s = int skill_match
  /\ readability s = int readability_score
  /\ format s = int format_score
  /\ (keyword s + skill s + readability s + format s) / 4 <= overall s
      <= (keyword s + skill s + readability s + format s) / 4 + 1.
Proof.
  cbv zeta. repeat (split; [reflexivity |]).
  apply overall_bracket.
  - apply keyword_match_between.
  - apply skill_match_between, keyword_match_between.
  - apply readability_between.
  - apply format_score_between.
Qed.

(** C10: without any clamp of its own the record has keyword in [0,100],
    skill in [10,100], readability in [30,100], format 70 or 90, and
    overall at least 27. *)
Theorem component_ranges :
  let s := analyze_resume nlp resume_text jd_text in
  0 <= keyword s <= 100
  /\ 10 <= skill s <= 100
  /\ 30 <= readability s <= 100
  /\ (format s = 70 \/ format s = 90)
  /\ 27 <= overall s.
Proof.
  cbv zeta.
  assert (Hk : (0 <= val keyword_match <= 100)%Q) by apply keyword_match_between.
  assert (Hs : (10 <= val skill_match <= 100)%Q) by apply skill_match_between, Hk.
  assert (Hr : (30 <= val readability_score <= 100)%Q) by apply readability_between.
  assert (Hf : (70 <= val format_score <= 90)%Q) by apply format_score_between.
  pose proof (overall_bracket keyword_match skill_match readability_score
                format_score Hk Hs Hr Hf) as Ho. cbv zeta in Ho.
  assert (Bk : 0 <= int keyword_match <= 100)
    by (apply PyFacts.int_between; [lia | exact Hk]).
  assert (Bs : 10 <= int skill_match <= 100)
    by (apply PyFacts.int_between; [lia | exact Hs]).
  assert (Br : 30 <= int readability_score <= 100)
    by (apply PyFacts.int_between; [lia | exact Hr]).
  assert (Bf : 70 <= int format_score <= 90)
    by (apply PyFacts.int_between; [lia | exact Hf]).
  split; [exact Bk |]. split; [exact Bs |]. split; [exact Br |]. split.
  - change (int format_score = 70 \/ int format_score = 90).
    unfold format_score.
    destruct (format_score_cases resume_text) as [E|E]; rewrite E; auto.
  - change (27 <= overall_of keyword_match skill_match readability_score format_score).
    destruct Ho as [Ho _]. etransitivity; [| exact Ho].
    apply Z.div_le_lower_bound; lia.
Qed.

End ScoreRecord.

(** The record depends on the pipeline only through two sizes: whatever
    the pipeline, a resume of ten characters without "experience" that
    has two of three job-description tokens gets this record. *)
Lemma two_of_three_tokens (nlp : string -> list Token)
    (resume_text jd_text : option string) :
  size (normalize nlp resume_text ∩ normalize nlp jd_text) = 2%nat ->
  size (normalize nlp jd_text) = 3%nat ->
  String.length (Str.or_empty resume_text) = 10%nat ->
  Str.contains "experience" (Str.lower (Str.or_empty resume_text)) = false ->
  analyze_resume nlp resume_text jd_text =
    {| overall := 78; keyword := 66; skill := 76; readability := 99; format := 70 |}.
Proof.
  intros H1 H2 H3 H4.
  unfold analyze_resume, score, keyword_match_of, readability_of, format_score_of,
    truthy, len_set, len_str.
  rewrite H1, H2, H3, H4. vm_compute. reflexivity.
Qed.

(** C1 (counterexample): a resume sharing two of the three words of the
    job description gets overall 78, while the floored mean of its four
    stored fields is 77. *)
Lemma overall_differs_from_mean_of_fields :
  let s := analyze_resume Plain.nlp (Some "python sql") (Some "python sql linux") in
  s = {| overall := 78; keyword := 66; skill := 76; readability := 99; format := 70 |}
  /\ overall s <> ((keyword s + skill s + readability s + format s) / 4)%Z.
Proof. vm_compute. split; [reflexivity | discriminate]. Qed.

(** ** The overlap percentage *)

(** C2 (as amended): for a non-empty set of job-description tokens the
    overlap is [len(resume & jd) / len(jd) * 100] as binary64 arithmetic
    computes it: the quotient rounded to the nearest double, times 100,
    rounded again. It is within [2^-45] of the exact percentage, and
    equal to it when no token or every token of the job description is
    found. It is 0 for an empty job description and for an empty
    resume. *)
Theorem overlap_percentage (resume_tokens jd_tokens : gset string) :
  let found := inject_Z (Z.of_nat (size (resume_tokens ∩ jd_tokens))) in
  let wanted := inject_Z (Z.of_nat (size jd_tokens)) in
  let overlap := Py.val (keyword_match_of resume_tokens jd_tokens) in
  (jd_tokens <> ∅ ->
     (overlap == Binary64.rnd (Binary64.rnd (found / wanted) * 100))%Q
     /\ (Qabs (overlap - found / wanted * 100) <= 1 # (2 ^ 45))%Q
     /\ (resume_tokens ∩ jd_tokens = ∅ -> (overlap == 0)%Q)
     /\ (jd_tokens ⊆ resume_tokens -> (overlap == 100)%Q))
  /\ (jd_tokens = ∅ -> keyword_match_of resume_tokens jd_tokens = Py.Int 0)
  /\ (resume_tokens = ∅ ->
      (overlap == 0)%Q /\ Py.int (keyword_match_of resume_tokens jd_tokens) = 0).
Proof.
  intros found wanted overlap.
  assert (Zero : forall q : Q, (q == 0)%Q ->
            (Binary64.rnd (Binary64.rnd q * 100) == 0)%Q).
  { intros q Hq. apply Rounding.rnd_zero.
    rewrite (Rounding.rnd_zero q Hq). ring. }
  assert (Value : truthy jd_tokens = true ->
            (overlap == Binary64.rnd (Binary64.rnd (found / wanted) * 100))%Q).
  { intros T. unfold overlap, keyword_match_of. rewrite T. unfold len_set.
    cbn [Py.mul Py.truediv Py.to_float Py.val].
    rewrite (Rounding.rnd_int 100 ltac:(reflexivity)). reflexivity. }
  split; [| split].
  - intros NE.
    assert (T : truthy jd_tokens = true).
    { destruct (truthy jd_tokens) eqn:E; [reflexivity |].
      apply Components.truthy_false in E. contradiction. }
    pose proof (Components.truthy_size _ T) as Pos.
    split; [exact (Value T) |].
    split; [apply Components.keyword_match_close, T |].
    split.
    + intros D. rewrite (Value T). apply Zero.
      unfold found. rewrite D, size_empty. unfold Qdiv.
      change (inject_Z (Z.of_nat 0)) with 0%Q. ring.
    + intros Sub. rewrite (Value T).
      assert (I : resume_tokens ∩ jd_tokens = jd_tokens).
      { rewrite intersection_comm_L. apply subseteq_intersection_1_L, Sub. }
      assert (One : (found / wanted == inject_Z 1)%Q).
      { unfold found, wanted. rewrite I. change (inject_Z 1) with 1%Q.
        apply Qmult_inv_r. intros F.
        apply Rounding.inject_Z_pos in Pos. rewrite F in Pos.
        exact (Qlt_irrefl _ Pos). }
      rewrite One, (Rounding.rnd_int 1 ltac:(reflexivity)).
      change (inject_Z 1 * 100)%Q with (inject_Z 100).
      apply (Rounding.rnd_int 100). reflexivity.
  - intros ->. reflexivity.
  - intros ->.
    assert (D : (∅ : gset string) ∩ jd_tokens = ∅) by apply intersection_empty_l_L.
    unfold overlap, keyword_match_of.
    destruct (truthy jd_tokens); [| split; reflexivity].
    rewrite D. unfold len_set. rewrite size_empty.
    cbn [Py.mul Py.truediv Py.to_float Py.val Py.int Z.of_nat].
    assert (Z1 : (Binary64.rnd (Binary64.rnd (inject_Z 0 / inject_Z (Z.of_nat (size jd_tokens)))
                                * Binary64.rnd (inject_Z 100)) == 0)%Q).
    { rewrite (Rounding.rnd_int 100 ltac:(reflexivity)). apply Zero.
      unfold Qdiv. change (inject_Z 0) with 0%Q. ring. }
    split; [exact Z1 |].
    change (Z.of_nat 0) with 0%Z. rewrite (PyFacts.trunc_eq _ _ Z1). reflexivity.
Qed.

(** Two of the three job-description tokens are found: the overlap is the
    double nearest to 100 times the double nearest to 2/3, within [2^-45]
    of 200/3. *)
Lemma overlap_percentage_witness :
  let resume_tokens : gset string := {[ "python"; "sql" ]} in
  let jd_tokens : gset string := {[ "python"; "sql"; "linux" ]} in
  let overlap := Py.val (keyword_match_of resume_tokens jd_tokens) in
  (overlap == Binary64.rnd (Binary64.rnd (inject_Z 2 / inject_Z 3) * 100))%Q
  /\ (Qabs (overlap - inject_Z 2 / inject_Z 3 * 100) <= 1 # (2 ^ 45))%Q.
Proof.
  intros resume_tokens jd_tokens overlap.
  assert (NE : jd_tokens <> ∅).
  { intros E. apply (f_equal size) in E. vm_compute in E. discriminate E. }
  destruct (proj1 (overlap_percentage resume_tokens jd_tokens) NE) as (V & C & _).
  split; [exact V | exact C].
Defined.

(** C2 (counterexample): 29 of 50 job-description tokens are found. The
    exact percentage is 58; the quotient rounds to a double below 0.58
    and the product to 57.99999999999999, so the overlap is not the
    exact percentage, and the stored keyword score is 57. *)
Lemma overlap_is_not_the_exact_percentage :
  let resume_tokens := Words.first 29 in
  let jd_tokens := Words.first 50 in
  let overlap := Py.val (keyword_match_of resume_tokens jd_tokens) in
  size (resume_tokens ∩ jd_tokens) = 29%nat
  /\ size jd_tokens = 50%nat
  /\ (inject_Z 29 / inject_Z 50 * 100 == 58)%Q
  /\ ~ (overlap == inject_Z 29 / inject_Z 50 * 100)%Q
  /\ (overlap < 58)%Q
  /\ Py.int (keyword_match_of resume_tokens jd_tokens) = 57.
Proof.
  cbv zeta.
  assert (Sa : size (Words.first 29 ∩ Words.first 50) = 29%nat) by (vm_compute; reflexivity).
  assert (Sb : size (Words.first 50) = 50%nat) by (vm_compute; reflexivity).
  assert (K : keyword_match_of (Words.first 29) (Words.first 50)
              = Py.mul (Py.truediv (Py.Int 29) (Py.Int 50)) (Py.Int 100)).
  { unfold keyword_match_of, truthy, len_set. rewrite Sa, Sb. reflexivity. }
  rewrite K.
  split; [exact Sa |]. split; [exact Sb |].
  split; [reflexivity |].
  split; [vm_compute; discriminate |].
  split; vm_compute; reflexivity.
Qed.

(** ** Readability *)

Section Readability.

Import Binary64 Rounding Py.
Local Open Scope Q_scope.

Variable resume_text : option string.

Let n : Z := Z.of_nat (String.length (Str.or_empty resume_text)).
Let x : Q := rnd (inject_Z n / inject_Z 1500).
Let y : Q := rnd (rnd (inject_Z 100) - x).

Lemma readability_unfold :
  readability_of resume_text = if negb (Qle_bool y 30) then Float y else Int 30.
Proof. reflexivity. Qed.

Lemma readability_long : (103500 < n)%Z -> 30 < y -> 30 <= y < 31.
Proof.
  intros Hn Hy. split; [lra |].
  assert (Hq : 103501 # 1500 <= inject_Z n / inject_Z 1500).
  { apply Qle_shift_div_l; [reflexivity |].
    assert (inject_Z 103501 <= inject_Z n) by (rewrite <- Zle_Qle; lia).
    change (inject_Z 1500) with 1500.
    change (inject_Z 103501) with 103501 in H. lra. }
  apply rnd_mono in Hq. fold x in Hq.
  assert (Hy' : y <= rnd (rnd (inject_Z 100) - rnd (103501 # 1500))).
  { apply rnd_mono. lra. }
  assert (C : rnd (rnd (inject_Z 100) - rnd (103501 # 1500)) < 31)
    by (vm_compute; reflexivity).
  lra.
Qed.

Lemma readability_short : (n <= 103500)%Z -> 31 <= y.
Proof.
  intros Hn.
  assert (Hq : inject_Z n / inject_Z 1500 <= 69).
  { apply Qle_shift_div_r; [reflexivity |].
    assert (inject_Z n <= inject_Z 103500) by (rewrite <- Zle_Qle; lia).
    change (inject_Z 1500) with 1500.
    change (inject_Z 103500) with 103500 in H. lra. }
  assert (Hx : x <= 69) by (apply rnd_le; [apply (rnd_int 69); reflexivity | exact Hq]).
  assert (R100 : rnd (inject_Z 100) == 100) by (apply rnd_int; reflexivity).
  apply rnd_ge; [apply (rnd_int 31); reflexivity |]. lra.
Qed.

(** C3 (as amended): the stored readability is 30 for every resume text
    of more than 103500 characters, whatever the job description, and
    for no shorter one. *)
Theorem readability_floor_threshold (nlp : string -> list Token)
    (jd_text : option string) :
  readability (analyze_resume nlp resume_text jd_text) = 30%Z
  <-> (103500 < Z.of_nat (String.length (Str.or_empty resume_text)))%Z.
Proof.
  change (int (readability_of resume_text) = 30%Z <-> (103500 < n)%Z).
  rewrite readability_unfold. split.
  - intros H. destruct (Z.lt_ge_cases 103500 n) as [L|G]; [exact L | exfalso].
    pose proof (readability_short G) as Hy.
    destruct (Qle_bool y 30) eqn:E.
    + apply Qle_bool_iff in E. lra.
    + simpl in H. rewrite PyFacts.trunc_floor in H by lra.
      assert (F : (31 <= Qfloor y)%Z).
      { apply Qfloor_resp_le in Hy. exact Hy. }
      lia.
  - intros Hn. destruct (Qle_bool y 30) eqn:E; [reflexivity |].
    assert (Hy : 30 < y).
    { apply Qnot_le_lt. intros C. apply Qle_bool_iff in C. congruence. }
    destruct (readability_long Hn Hy) as [H1 H2]. simpl.
    rewrite PyFacts.trunc_floor by lra.
    assert (F1 : (30 <= Qfloor y)%Z).
    { apply Qfloor_resp_le in H1. exact H1. }
    assert (F2 : (Qfloor y < 31)%Z).
    { rewrite Zlt_Qlt. apply Qle_lt_trans with y; [apply Qfloor_le | exact H2]. }
    lia.
Qed.

End Readability.

(** A text of 103501 characters has readability 30. *)
Lemma readability_floor_threshold_witness :
  let resume_text := Some (String.append (Str.times 14785 "resume ") "resume") in
  103500 < Z.of_nat (String.length (Str.or_empty resume_text))
  /\ readability (analyze_resume Plain.nlp resume_text (Some "python developer")) = 30.
Proof.
  intros resume_text.
  assert (H : 103500 < Z.of_nat (String.length (Str.or_empty resume_text)))
    by (vm_compute; reflexivity).
  split; [exact H |].
  apply (proj2 (readability_floor_threshold resume_text Plain.nlp
                  (Some "python developer")) H).
Defined.

(** C3 (counterexample): a resume of 7001 characters that shares no token
    with the job description has readability 95, not 30. *)
Lemma readability_of_7001_characters :
  let resume_text := Some (String.append (Str.times 1000 "resume ") "x") in
  let jd_text := Some "python developer" in
  7000 < Z.of_nat (String.length (Str.or_empty resume_text))
  /\ normalize Plain.nlp resume_text ∩ normalize Plain.nlp jd_text = ∅
  /\ readability (analyze_resume Plain.nlp resume_text jd_text) = 95.
Proof. vm_compute. repeat split. Qed.

(** ** Format, skill and normalization *)

(** C4: the format component is 90 exactly when the lower-cased raw text
    is some text, then "experience", then some text, and 70 exactly when
    it is not. The test is on the lower-cased text, so "Experienced" and
    "EXPERIENCE" count; it is a substring test, so a text containing
    "experienced" scores 90, and "Expert in Python" scores 70. *)
Theorem format_is_substring_test (nlp : string -> list Token)
    (resume_text jd_text : option string) :
  let lowered := Str.lower (Str.or_empty resume_text) in
  let occurs :=
    exists before after : string,
      lowered = String.append before (String.append "experience" after) in
  (format (analyze_resume nlp resume_text jd_text) = 90 <-> occurs)
  /\ (format (analyze_resume nlp resume_text jd_text) = 70 <-> ~ occurs)
  /\ format (analyze_resume nlp resume_text jd_text) =
       (if Str.contains "experience" lowered then 90 else 70)
  /\ (forall before after : string,
        format (analyze_resume nlp
                  (Some (String.append before (String.append "experienced" after)))
                  jd_text) = 90)
  /\ (forall before after : string,
        format (analyze_resume nlp
                  (Some (String.append before (String.append "Experienced" after)))
                  jd_text) = 90)
  /\ format (analyze_resume nlp (Some "WORK EXPERIENCE") jd_text) = 90
  /\ format (analyze_resume nlp (Some "Expert in Python") jd_text) = 70
  /\ format (analyze_resume nlp None jd_text) = 70.
Proof.
  intros lowered occurs.
  assert (Test : format (analyze_resume nlp resume_text jd_text) =
                 if Str.contains "experience" lowered then 90 else 70).
  { change (Py.int (format_score_of resume_text) =
            if Str.contains "experience" lowered then 90 else 70).
    unfold format_score_of. fold lowered.
    destruct (Str.contains _ _); reflexivity. }
  assert (Spec : Str.contains "experience" lowered = true <-> occurs).
  { split.
    - intros C. apply StrFacts.contains_split, C.
    - intros (before & after & E). rewrite E. apply StrFacts.contains_app. }
  assert (Around : forall word rest before after : string,
            Str.lower word = String.append "experience" rest ->
            format (analyze_resume nlp
                      (Some (String.append before (String.append word after)))
                      jd_text) = 90).
  { intros word rest before after W.
    change (Py.int (format_score_of
              (Some (String.append before (String.append word after)))) = 90).
    unfold format_score_of, Str.or_empty.
    rewrite !StrFacts.lower_app, W, StrFacts.append_assoc, StrFacts.contains_app.
    reflexivity. }
  split; [| split; [| split; [exact Test |]]].
  - rewrite Test, <- Spec. destruct (Str.contains _ _); split; intros H;
      (reflexivity || discriminate H).
  - rewrite Test, <- Spec. destruct (Str.contains _ _); split; intros H;
      (reflexivity || discriminate H || (exfalso; apply H; reflexivity)
       || (intros F; discriminate F)).
  - split; [intros before after; apply (Around "experienced" "d"); reflexivity |].
    split; [intros before after; apply (Around "Experienced" "d"); reflexivity |].
    split; [| split]; reflexivity.
Qed.



(** C8: the text is lower-cased before the pipeline sees it, so a text
    and its lower-cased form have the same token set; "Experience" and
    "experience" in particular. *)
Theorem normalize_ignores_case (nlp : string -> list Token) (text : string) :
  normalize nlp (Some (Str.lower text)) = normalize nlp (Some text)
  /\ normalize nlp (Some "Experience") = normalize nlp (Some "experience").
Proof.
  split; [| reflexivity].
  unfold normalize, Str.or_empty. rewrite StrFacts.lower_idem. reflexivity.
Qed.

(** ** Extraction and the route *)

Section RouteFacts.

Variable pdf_pages : option string -> Exc (list (option string)).
Variable docx_paragraphs : option string -> Exc (list string).
Variable nlp_call : string -> Exc (list Token).
Variable splitext_ext : string -> string.
Variable secure_filename : string -> string.
Variable db_error : list Row -> Row -> option string.
Variable UPLOAD_ROOT : string.

Local Abbreviation extract := (extract_text pdf_pages docx_paragraphs).
Local Abbreviation process := (extract_and_analyze pdf_pages docx_paragraphs nlp_call).
Local Abbreviation route :=
  (analyze pdf_pages docx_paragraphs nlp_call splitext_ext secure_filename
           db_error UPLOAD_ROOT).
Local Abbreviation allowed := (allowed_file splitext_ext).
Local Abbreviation jd_path_of u :=
  (path_join (JD_FOLDER UPLOAD_ROOT) (secure_filename (filename u))).
Local Abbreviation resume_path_of u :=
  (path_join (RESUME_FOLDER UPLOAD_ROOT) (secure_filename (filename u))).

(** Extraction reads the world only at its path. *)
Lemma extract_text_lookup (fs fs' : gmap string string) (file_path : string) :
  fs !! file_path = fs' !! file_path -> extract fs file_path = extract fs' file_path.
Proof. intros E. unfold extract_text. rewrite E. reflexivity. Qed.

Lemma saved_lookup (fs fs' : gmap string string) (jp rp : string) (j r : Upload)
    (file_path : string) :
  file_path = jp \/ file_path = rp ->
  save rp r (save jp j fs) !! file_path = save rp r (save jp j fs') !! file_path.
Proof.
  intros H. unfold save. rewrite !lookup_insert.
  repeat case_decide; try reflexivity. destruct H; congruence.
Qed.

(** What the first [try] yields does not depend on the world the two
    uploads are saved into. *)
Lemma process_saved (fs fs' : gmap string string) (jp rp : string) (j r : Upload) :
  process (save rp r (save jp j fs)) jp rp = process (save rp r (save jp j fs')) jp rp.
Proof.
  unfold extract_and_analyze.
  rewrite (extract_text_lookup _ _ jp (saved_lookup fs fs' jp rp j r jp (or_introl eq_refl))).
  rewrite (extract_text_lookup _ _ rp (saved_lookup fs fs' jp rp j r rp (or_intror eq_refl))).
  reflexivity.
Qed.

(** The response of a request that passed validation, by cases. *)
Lemma route_validated (req : Request) (w : World) (jd_file resume_file : Upload) :
  present (jobFile req) = Some jd_file ->
  present (resumeFile req) = Some resume_file ->
  allowed (filename jd_file) = true ->
  allowed (filename resume_file) = true ->
  let jd_path := jd_path_of jd_file in
  let resume_path := resume_path_of resume_file in
  let fs := save resume_path resume_file (save jd_path jd_file (files w)) in
  route req w =
    match process fs jd_path resume_path with
    | Raise _ =>
        ({| body := Error "Processing failed"; status := 500 |},
         {| files := fs; analyses := analyses w |})
    | Return result =>
        let row := row_of (userId req) jd_path resume_path result in
        match db_error (analyses w) row with
        | Some _ =>
            ({| body := Error "DB error"; status := 500 |},
             {| files := fs; analyses := analyses w |})
        | None =>
            ({| body := Scores result; status := 200 |},
             {| files := fs; analyses := analyses w ++ [row] |})
        end
    end.
Proof.
  intros Hj Hr Aj Ar. unfold analyze. rewrite Hj, Hr, Aj, Ar. reflexivity.
Qed.

(** A response with scores comes from a validated request whose first
    [try] returned them. *)
Lemma route_scores (req : Request) (w : World) (r : ScoreResult) :
  body (fst (route req w)) = Scores r ->
  exists jd_file resume_file,
    present (jobFile req) = Some jd_file
    /\ present (resumeFile req) = Some resume_file
    /\ process (save (resume_path_of resume_file) resume_file
                   (save (jd_path_of jd_file) jd_file (files w)))
                (jd_path_of jd_file) (resume_path_of resume_file) = Return r.
Proof.
  unfold analyze.
  destruct (present (jobFile req)) as [jd_file|]; [| discriminate].
  destruct (present (resumeFile req)) as [resume_file|]; [| discriminate].
  destruct (negb _ || negb _); [discriminate |].
  destruct (process _ _ _) as [result|e] eqn:P; [| discriminate].
  destruct (db_error _ _); [discriminate |]. simpl. intros [= ->].
  exists jd_file, resume_file. auto.
Qed.

(** C7: for a path that ends neither in ".pdf" nor in ".docx",
    [extract_text] returns the empty string, whatever the libraries would
    do and whatever is stored; two such paths reach the analysis with two
    empty texts. *)
Theorem extract_text_unsupported (fs : gmap string string) (file_path : string) :
  Str.endswith file_path ".pdf" = false ->
  Str.endswith file_path ".docx" = false ->
  extract fs file_path = Return EmptyString
  /\ (forall other : string,
        Str.endswith other ".pdf" = false ->
        Str.endswith other ".docx" = false ->
        process fs file_path other =
          analyze_resume_call nlp_call (Some EmptyString) (Some EmptyString)).
Proof.
  intros Hp Hd.
  assert (E : forall q, Str.endswith q ".pdf" = false ->
                        Str.endswith q ".docx" = false ->
                        extract fs q = Return EmptyString).
  { intros q Hq1 Hq2. unfold extract_text. rewrite Hq1, Hq2. reflexivity. }
  split; [apply E; assumption |].
  intros other Ho1 Ho2. unfold extract_and_analyze.
  rewrite (E file_path Hp Hd), (E other Ho1 Ho2). reflexivity.
Qed.

(** C6: when extraction of either document or the analysis raises, the
    response is the single error "Processing failed" with status 500,
    it carries no scores, and the table of analyses is as before. *)
Theorem processing_failure_persists_nothing (req : Request) (w : World)
    (jd_file resume_file : Upload) :
  present (jobFile req) = Some jd_file ->
  present (resumeFile req) = Some resume_file ->
  allowed (filename jd_file) = true ->
  allowed (filename resume_file) = true ->
  let jd_path := jd_path_of jd_file in
  let resume_path := resume_path_of resume_file in
  let fs := save resume_path resume_file (save jd_path jd_file (files w)) in
  ((exists e, extract fs jd_path = Raise e)
   \/ (exists e, extract fs resume_path = Raise e)
   \/ (exists jd_text resume_text e,
         extract fs jd_path = Return jd_text
         /\ extract fs resume_path = Return resume_text
         /\ analyze_resume_call nlp_call (Some resume_text) (Some jd_text) = Raise e)) ->
  fst (route req w) = {| body := Error "Processing failed"; status := 500 |}
  /\ (forall r, body (fst (route req w)) <> Scores r)
  /\ analyses (snd (route req w)) = analyses w.
Proof.
  intros Hj Hr Aj Ar jd_path resume_path fs Hfail.
  assert (P : exists e, process fs jd_path resume_path = Raise e).
  { unfold extract_and_analyze.
    destruct Hfail as [[e He] | [[e He] | (jt & rt & e & Hjt & Hrt & He)]].
    - exists e. rewrite He. reflexivity.
    - destruct (extract fs jd_path) as [jt|e']; simpl.
      + exists e. rewrite He. reflexivity.
      + exists e'. reflexivity.
    - exists e. rewrite Hjt, Hrt. exact He. }
  destruct P as [e P].
  rewrite (route_validated req w jd_file resume_file Hj Hr Aj Ar).
  cbv zeta. fold jd_path resume_path fs. rewrite P. simpl.
  repeat split. intros r. discriminate.
Qed.

(** C9: the scores a request is answered with do not depend on the world
    it runs in, so two runs on the same uploads, the second in the world
    the first one left, give the same record. *)
Theorem same_uploads_same_scores (req : Request) (w1 w2 : World)
    (r1 r2 : ScoreResult) :
  body (fst (route req w1)) = Scores r1 ->
  body (fst (route req w2)) = Scores r2 ->
  r1 = r2.
Proof.
  intros H1 H2.
  apply route_scores in H1 as (j1 & c1 & Hj1 & Hc1 & P1).
  apply route_scores in H2 as (j2 & c2 & Hj2 & Hc2 & P2).
  rewrite Hj1 in Hj2. rewrite Hc1 in Hc2.
  injection Hj2 as <-. injection Hc2 as <-.
  rewrite (process_saved (files w1) (files w2)) in P1.
  rewrite P1 in P2. injection P2 as ->. reflexivity.
Qed.

End RouteFacts.

(** ** Concrete runs of the route *)

(** A text file is extracted to the empty string although nothing is
    stored under its name. *)
Lemma extract_text_unsupported_witness :
  Sample.extract_text ∅ "notes.txt" = Return EmptyString
  /\ (forall other : string,
        Str.endswith other ".pdf" = false ->
        Str.endswith other ".docx" = false ->
        extract_and_analyze Sample.pdf_pages Sample.docx_paragraphs Sample.nlp_call
          ∅ "notes.txt" other =
        analyze_resume_call Sample.nlp_call (Some EmptyString) (Some EmptyString)).
Proof.
  apply (extract_text_unsupported Sample.pdf_pages Sample.docx_paragraphs
           Sample.nlp_call ∅ "notes.txt"); reflexivity.
Defined.

(** A resume whose bytes are not a PDF: one error, no scores, no row. *)
Lemma processing_failure_persists_nothing_witness :
  let req := {| userId := Some "7";
                jobFile := Sample.upload "jd.docx" "python sql linux";
                resumeFile := Sample.upload "cv.pdf" "garbage" |} in
  fst (Sample.analyze req Sample.empty_world) =
    {| body := Error "Processing failed"; status := 500 |}
  /\ (forall r, body (fst (Sample.analyze req Sample.empty_world)) <> Scores r)
  /\ analyses (snd (Sample.analyze req Sample.empty_world)) = [].
Proof.
  intros req.
  apply (processing_failure_persists_nothing
           Sample.pdf_pages Sample.docx_paragraphs Sample.nlp_call
           Sample.splitext_ext Sample.secure_filename Sample.db_error
           Sample.UPLOAD_ROOT req Sample.empty_world
           {| filename := "jd.docx"; content := "python sql linux" |}
           {| filename := "cv.pdf"; content := "garbage" |});
    try reflexivity.
  right. left. eexists. vm_compute. reflexivity.
Defined.

(** The same two uploads analysed twice, the second time in the world the
    first run left behind. *)
Lemma same_uploads_same_scores_witness :
  let req := {| userId := Some "7";
                jobFile := Sample.upload "jd.docx" "python sql linux";
                resumeFile := Sample.upload "cv.pdf" "%PDFpython sql" |} in
  let w1 := snd (Sample.analyze req Sample.empty_world) in
  exists r1 r2,
    body (fst (Sample.analyze req Sample.empty_world)) = Scores r1
    /\ body (fst (Sample.analyze req w1)) = Scores r2
    /\ List.length (analyses (snd (Sample.analyze req w1))) = 2%nat
    /\ r1 = r2.
Proof.
  intros req w1.
  assert (H1 : body (fst (Sample.analyze req Sample.empty_world)) =
               Scores {| overall := 78; keyword := 66; skill := 76;
                         readability := 99; format := 70 |})
    by (vm_compute; reflexivity).
  assert (H2 : body (fst (Sample.analyze req w1)) =
               Scores {| overall := 78; keyword := 66; skill := 76;
                         readability := 99; format := 70 |})
    by (vm_compute; reflexivity).
  eexists. eexists. split; [exact H1 |]. split; [exact H2 |].
  split; [vm_compute; reflexivity |].
  exact (same_uploads_same_scores
           Sample.pdf_pages Sample.docx_paragraphs Sample.nlp_call
           Sample.splitext_ext Sample.secure_filename Sample.db_error
           Sample.UPLOAD_ROOT req Sample.empty_world w1 _ _ H1 H2).
Defined.

(** * Further properties *)

(** ** Numbers of the same type and value *)

Module PyRelFacts.

Import Binary64 Rounding Py PyRel.
Local Open Scope Q_scope.

Lemma same_refl (x : num) : same x x.
Proof. destruct x; simpl; reflexivity. Qed.

Lemma same_val (x y : num) : same x y -> val x == val y.
Proof.
  destruct x, y; simpl; intros H; try contradiction; [subst; reflexivity | exact H].
Qed.

Lemma same_to_float (x y : num) : same x y -> to_float x == to_float y.
Proof.
  destruct x, y; simpl; intros H; try contradiction; [subst; reflexivity | exact H].
Qed.

Ltac same_cases x x' y y' :=
  destruct x, x', y, y'; simpl in *; try contradiction; subst; try reflexivity.

Lemma add_same (x x' y y' : num) : same x x' -> same y y' -> same (add x y) (add x' y').
Proof.
  intros Hx Hy. same_cases x x' y y';
    apply rnd_proper; rewrite ?Hx, ?Hy; reflexivity.
Qed.

Lemma sub_same (x x' y y' : num) : same x x' -> same y y' -> same (sub x y) (sub x' y').
Proof.
  intros Hx Hy. same_cases x x' y y';
    apply rnd_proper; rewrite ?Hx, ?Hy; reflexivity.
Qed.

Lemma mul_same (x x' y y' : num) : same x x' -> same y y' -> same (mul x y) (mul x' y').
Proof.
  intros Hx Hy. same_cases x x' y y';
    apply rnd_proper; rewrite ?Hx, ?Hy; reflexivity.
Qed.

Lemma truediv_same (x x' y y' : num) :
  same x x' -> same y y' -> same (truediv x y) (truediv x' y').
Proof.
  intros Hx Hy. same_cases x x' y y';
    apply rnd_proper; rewrite ?Hx, ?Hy; reflexivity.
Qed.

Lemma ltb_same (x x' y y' : num) : same x x' -> same y y' -> ltb x y = ltb x' y'.
Proof.
  intros Hx Hy. apply same_val in Hx, Hy. unfold ltb. f_equal.
  destruct (Qle_bool (val y) (val x)) eqn:E; destruct (Qle_bool (val y') (val x')) eqn:E';
    trivial.
  - apply Qle_bool_iff in E. rewrite Hx, Hy in E. apply Qle_bool_iff in E. congruence.
  - apply Qle_bool_iff in E'. rewrite <- Hx, <- Hy in E'. apply Qle_bool_iff in E'.
    congruence.
Qed.

Lemma min_same (x x' y y' : num) : same x x' -> same y y' -> same (min x y) (min x' y').
Proof.
  intros Hx Hy. unfold min. rewrite (ltb_same y y' x x' Hy Hx).
  destruct (ltb y' x'); assumption.
Qed.

Lemma max_same (x x' y y' : num) : same x x' -> same y y' -> same (max x y) (max x' y').
Proof.
  intros Hx Hy. unfold max. rewrite (ltb_same x x' y y' Hx Hy).
  destruct (ltb x' y'); assumption.
Qed.

Lemma int_same (x y : num) : same x y -> int x = int y.
Proof.
  destruct x, y; simpl; intros H; try contradiction; [exact H |].
  apply PyFacts.trunc_eq, H.
Qed.

Lemma skill_match_same (x y : num) : same x y -> same (skill_match_of x) (skill_match_of y).
Proof.
  intros H. unfold skill_match_of.
  apply min_same; [apply same_refl |]. apply add_same; [exact H | apply same_refl].
Qed.

Lemma overall_same (k k' s s' r r' f f' : num) :
  same k k' -> same s s' -> same r r' -> same f f' ->
  overall_of k s r f = overall_of k' s' r' f'.
Proof.
  intros Hk Hs Hr Hf. unfold overall_of. apply int_same.
  apply truediv_same; [| apply same_refl].
  repeat apply add_same; assumption.
Qed.

(** A job description with tokens: the overlap is a float, the rounded
    percentage of the rounded ratio. *)
Lemma keyword_match_ratio (resume_tokens jd_tokens : gset string) (q : Q) :
  truthy jd_tokens = true ->
  inject_Z (Z.of_nat (size (resume_tokens ∩ jd_tokens)))
    / inject_Z (Z.of_nat (size jd_tokens)) == q ->
  same (keyword_match_of resume_tokens jd_tokens)
       (Float (rnd (rnd q * rnd (inject_Z 100)))).
Proof.
  intros T Hq. unfold keyword_match_of. rewrite T. unfold len_set.
  cbn [mul truediv to_float same]. rewrite Hq. reflexivity.
Qed.

(** No token in common: the overlap is 0, as an int or as a float. *)
Lemma keyword_match_disjoint (resume_tokens jd_tokens : gset string) :
  resume_tokens ∩ jd_tokens = ∅ ->
  same (keyword_match_of resume_tokens jd_tokens) (Int 0)
  \/ same (keyword_match_of resume_tokens jd_tokens) (Float 0).
Proof.
  intros D. destruct (truthy jd_tokens) eqn:T.
  - right.
    assert (S : same (keyword_match_of resume_tokens jd_tokens)
                     (Float (rnd (rnd 0 * rnd (inject_Z 100))))).
    { apply keyword_match_ratio; [exact T |].
      rewrite D, size_empty. change (inject_Z (Z.of_nat 0)) with 0.
      unfold Qdiv. ring. }
    destruct (keyword_match_of resume_tokens jd_tokens); simpl in *;
      [contradiction |].
    rewrite S. vm_compute. reflexivity.
  - left. unfold keyword_match_of. rewrite T. reflexivity.
Qed.

(** Every job-description token found: the overlap is the float 100. *)
Lemma keyword_match_full (resume_tokens jd_tokens : gset string) :
  jd_tokens <> ∅ -> jd_tokens ⊆ resume_tokens ->
  same (keyword_match_of resume_tokens jd_tokens) (Float 100).
Proof.
  intros NE Sub.
  assert (T : truthy jd_tokens = true).
  { destruct (truthy jd_tokens) eqn:E; [reflexivity |].
    apply Components.truthy_false in E. contradiction. }
  assert (I : resume_tokens ∩ jd_tokens = jd_tokens).
  { rewrite intersection_comm_L. apply subseteq_intersection_1_L, Sub. }
  assert (S : same (keyword_match_of resume_tokens jd_tokens)
                   (Float (rnd (rnd 1 * rnd (inject_Z 100))))).
  { apply keyword_match_ratio; [exact T |]. rewrite I.
    pose proof (Components.truthy_size _ T) as P. apply inject_Z_pos in P.
    field. lra. }
  destruct (keyword_match_of resume_tokens jd_tokens); simpl in *; [contradiction |].
  rewrite S. vm_compute. reflexivity.
Qed.

End PyRelFacts.

(** ** More on the score record *)

Section MoreScores.

Import Binary64 Rounding Py PyRel PyFacts PyRelFacts Components.
Local Open Scope Z_scope.

Variable nlp : string -> list Token.

(** X1: [overall] never exceeds 97, whatever the two texts: the format
    score stops at 90 and the mean is truncated. *)
Theorem overall_at_most_97 (resume_text jd_text : option string) :
  overall (analyze_resume nlp resume_text jd_text) <= 97.
Proof.
  set (km := keyword_match_of (normalize nlp resume_text) (normalize nlp jd_text)).
  assert (Hk : (inject_Z 0 <= val km <= inject_Z 100)%Q)
    by apply keyword_match_between.
  assert (Hs : (inject_Z 10 <= val (skill_match_of km) <= inject_Z 100)%Q)
    by apply skill_match_between, Hk.
  assert (Hr : (inject_Z 30 <= val (readability_of resume_text) <= inject_Z 100)%Q)
    by apply readability_between.
  assert (Hf : (inject_Z 70 <= val (format_score_of resume_text) <= inject_Z 90)%Q)
    by apply format_score_between.
  assert (S1 := add_between_int _ _ 0 100 10 100
                  ltac:(lia) ltac:(lia) ltac:(lia) ltac:(lia) Hk Hs).
  assert (S2 := add_between_int _ _ (0 + 10) (100 + 100) 30 100
                  ltac:(lia) ltac:(lia) ltac:(lia) ltac:(lia) S1 Hr).
  assert (S3 := add_between_int _ _ (0 + 10 + 30) (100 + 100 + 100) 70 90
                  ltac:(lia) ltac:(lia) ltac:(lia) ltac:(lia) S2 Hf).
  assert (Q4 := quarter_between _ _ _
                  (repr_int 110 eq_refl) (repr_int 390 eq_refl)
                  (repr_quarter 110 eq_refl) (repr_quarter 390 eq_refl) S3).
  destruct Q4 as [Q1 Q2].
  change (overall_of km (skill_match_of km) (readability_of resume_text)
                     (format_score_of resume_text) <= 97).
  unfold overall_of.
  set (avg := truediv _ (Int 4)) in *.
  assert (A0 : (0 <= val avg)%Q).
  { apply Qle_trans with (inject_Z 110 / 4)%Q; [| exact Q1]. discriminate. }
  rewrite (int_floor avg A0).
  apply Qfloor_resp_le in Q2. exact Q2.
Qed.

(** X2: when the job description has tokens and the resume has all of
    them, keyword and skill are both 100. *)
Theorem full_overlap_scores_100 (resume_text jd_text : option string) :
  normalize nlp jd_text <> ∅ ->
  normalize nlp jd_text ⊆ normalize nlp resume_text ->
  keyword (analyze_resume nlp resume_text jd_text) = 100
  /\ skill (analyze_resume nlp resume_text jd_text) = 100.
Proof.
  intros NE Sub.
  pose proof (keyword_match_full _ _ NE Sub) as F.
  set (km := keyword_match_of (normalize nlp resume_text) (normalize nlp jd_text)) in *.
  split.
  - change (int km = 100). rewrite (int_same _ _ F). reflexivity.
  - change (int (skill_match_of km) = 100).
    rewrite (int_same _ _ (skill_match_same _ _ F)). vm_compute. reflexivity.
Qed.

(** X3: when the two token sets have nothing in common (an empty resume,
    an empty job description, or two unrelated texts), keyword is 0 and
    skill is 10. *)
Theorem no_common_token_scores (resume_text jd_text : option string) :
  normalize nlp resume_text ∩ normalize nlp jd_text = ∅ ->
  keyword (analyze_resume nlp resume_text jd_text) = 0
  /\ skill (analyze_resume nlp resume_text jd_text) = 10.
Proof.
  intros D.
  pose proof (keyword_match_disjoint _ _ D) as F.
  set (km := keyword_match_of (normalize nlp resume_text) (normalize nlp jd_text)) in *.
  change (int km = 0 /\ int (skill_match_of km) = 10).
  destruct F as [F|F];
    rewrite (int_same _ _ F), (int_same _ _ (skill_match_same _ _ F));
    split; vm_compute; reflexivity.
Qed.

(** X4: a resume without text ([None] or the empty string), given to a
    pipeline that finds no token in the empty text, gets the same record
    against every job description: overall 45, keyword 0, skill 10,
    readability 100, format 70. *)
Theorem empty_resume_record (jd_text : option string) :
  nlp EmptyString = [] ->
  analyze_resume nlp (Some EmptyString) jd_text =
    {| overall := 45; keyword := 0; skill := 10; readability := 100; format := 70 |}
  /\ analyze_resume nlp None jd_text =
    {| overall := 45; keyword := 0; skill := 10; readability := 100; format := 70 |}.
Proof.
  intros Hnlp.
  assert (E : forall t, Str.or_empty t = EmptyString ->
              analyze_resume nlp t jd_text =
              {| overall := 45; keyword := 0; skill := 10;
                 readability := 100; format := 70 |}).
  { intros t Ht.
    assert (N : normalize nlp t = ∅).
    { unfold normalize. rewrite Ht. change (Str.lower EmptyString) with EmptyString.
      rewrite Hnlp. reflexivity. }
    unfold analyze_resume, score. rewrite N. cbv zeta.
    assert (D : (∅ : gset string) ∩ normalize nlp jd_text = ∅)
      by apply intersection_empty_l_L.
    pose proof (keyword_match_disjoint _ _ D) as F.
    set (km := keyword_match_of ∅ (normalize nlp jd_text)) in *.
    assert (R : readability_of t = Float 100).
    { unfold readability_of, len_str. rewrite Ht. vm_compute. reflexivity. }
    assert (Fm : format_score_of t = Int 70).
    { unfold format_score_of. rewrite Ht. reflexivity. }
    rewrite R, Fm.
    destruct F as [F|F];
      rewrite (overall_same _ _ _ _ _ _ _ _ F (skill_match_same _ _ F)
                 (same_refl _) (same_refl _)),
              (int_same _ _ F), (int_same _ _ (skill_match_same _ _ F));
      vm_compute; reflexivity. }
  split; apply E; reflexivity.
Qed.

End MoreScores.

(** The bound of X1 is reached. *)
Example overall_97_reached :
  overall (analyze_resume Plain.nlp (Some "experience") (Some "experience")) = 97.
Proof. vm_compute. reflexivity. Qed.

(** All of "python sql" is found in "python sql linux". *)
Lemma full_overlap_scores_100_witness :
  keyword (analyze_resume Plain.nlp (Some "python sql linux") (Some "python sql")) = 100
  /\ skill (analyze_resume Plain.nlp (Some "python sql linux") (Some "python sql")) = 100.
Proof.
  apply (full_overlap_scores_100 Plain.nlp (Some "python sql linux") (Some "python sql")).
  - intros E. apply (f_equal size) in E. vm_compute in E. discriminate E.
  - refine (@bool_decide_unpack _ (decide _) _). vm_compute. exact I.
Defined.

(** "linux admin" shares nothing with "python sql". *)
Lemma no_common_token_scores_witness :
  keyword (analyze_resume Plain.nlp (Some "linux admin") (Some "python sql")) = 0
  /\ skill (analyze_resume Plain.nlp (Some "linux admin") (Some "python sql")) = 10.
Proof.
  apply (no_common_token_scores Plain.nlp (Some "linux admin") (Some "python sql")).
  vm_compute. reflexivity.
Defined.

(** The plain pipeline finds no token in the empty text. *)
Lemma empty_resume_record_witness :
  analyze_resume Plain.nlp (Some EmptyString) (Some "python sql") =
    {| overall := 45; keyword := 0; skill := 10; readability := 100; format := 70 |}
  /\ analyze_resume Plain.nlp None (Some "python sql") =
    {| overall := 45; keyword := 0; skill := 10; readability := 100; format := 70 |}.
Proof.
  apply (empty_resume_record Plain.nlp (Some "python sql")). reflexivity.
Defined.

(** ** Keyword and skill against the exact percentage *)

Module ScoreFacts.

Import Binary64 Rounding Py PyFacts Components.
Local Open Scope Q_scope.

Lemma int_mono (x y : num) : 0 <= val x -> val x <= val y -> (int x <= int y)%Z.
Proof.
  intros H0 Hxy. rewrite (int_floor x H0), (int_floor y) by lra.
  apply Qfloor_resp_le, Hxy.
Qed.

Lemma val_min100 (y : num) :
  val (min (Int 100) y) == if Qle_bool 100 (val y) then 100 else val y.
Proof.
  unfold min, ltb. change (val (Int 100)) with 100.
  destruct (Qle_bool 100 (val y)); reflexivity.
Qed.

Lemma min100_mono (y y' : num) :
  val y <= val y' -> val (min (Int 100) y) <= val (min (Int 100) y').
Proof.
  intros H. rewrite !val_min100.
  destruct (Qle_bool 100 (val y)) eqn:E; destruct (Qle_bool 100 (val y')) eqn:E'.
  - lra.
  - apply Qle_bool_iff in E.
    assert (val y' < 100).
    { apply Qnot_le_lt. intros C. apply Qle_bool_iff in C. congruence. }
    lra.
  - assert (val y < 100).
    { apply Qnot_le_lt. intros C. apply Qle_bool_iff in C. congruence. }
    lra.
  - exact H.
Qed.

Lemma add10_mono (x x' : num) :
  0 <= val x -> val x <= val x' -> val x' <= 100 ->
  val (add x (Int 10)) <= val (add x' (Int 10)).
Proof.
  intros H0 H H1.
  assert (R10 : rnd (inject_Z 10) == 10) by (apply rnd_int; reflexivity).
  assert (Rx : forall z : Z, (0 <= inject_Z z <= 100) -> rnd (inject_Z z) == inject_Z z).
  { intros z [Z0 Z1]. apply rnd_int.
    change 0 with (inject_Z 0) in Z0. change 100 with (inject_Z 100) in Z1.
    rewrite <- Zle_Qle in Z0, Z1. assert (100 < 2 ^ 53)%Z by reflexivity. lia. }
  destruct x as [a|q], x' as [a'|q']; cbn [add val to_float] in *.
  - rewrite !inject_Z_plus. lra.
  - rewrite inject_Z_plus, R10. change (inject_Z 10) with 10.
    apply rnd_ge; [| lra].
    change 10 with (inject_Z 10). rewrite <- inject_Z_plus. apply rnd_int.
    change 0 with (inject_Z 0) in H0. rewrite <- Zle_Qle in H0.
    assert (inject_Z a <= 100) by lra.
    change 100 with (inject_Z 100) in H2. rewrite <- Zle_Qle in H2.
    assert (110 < 2 ^ 53)%Z by reflexivity. lia.
  - rewrite inject_Z_plus, R10. change (inject_Z 10) with 10.
    apply rnd_le; [| lra].
    change 10 with (inject_Z 10). rewrite <- inject_Z_plus. apply rnd_int.
    assert (0 <= inject_Z a') by lra.
    change 0 with (inject_Z 0) in H2. rewrite <- Zle_Qle in H2.
    change 100 with (inject_Z 100) in H1. rewrite <- Zle_Qle in H1.
    assert (110 < 2 ^ 53)%Z by reflexivity. lia.
  - apply rnd_mono. lra.
Qed.

(** More of the job description found, higher overlap. *)
Lemma keyword_match_mono (resume_tokens resume_tokens' jd_tokens : gset string) :
  resume_tokens ⊆ resume_tokens' ->
  val (keyword_match_of resume_tokens jd_tokens)
  <= val (keyword_match_of resume_tokens' jd_tokens).
Proof.
  intros Sub. unfold keyword_match_of. destruct (truthy jd_tokens) eqn:T; [| lra].
  unfold len_set. cbn [mul truediv to_float val].
  pose proof (truthy_size _ T) as Hb. apply inject_Z_pos in Hb.
  set (b := inject_Z (Z.of_nat (size jd_tokens))) in *.
  assert (Ha : inject_Z (Z.of_nat (size (resume_tokens ∩ jd_tokens)))
               <= inject_Z (Z.of_nat (size (resume_tokens' ∩ jd_tokens)))).
  { rewrite <- Zle_Qle. apply Nat2Z.inj_le, subseteq_size.
    apply intersection_mono_r, Sub. }
  assert (R100 : rnd (inject_Z 100) == 100) by (apply rnd_int; reflexivity).
  rewrite R100. apply rnd_mono.
  apply Qmult_le_compat_r; [| lra].
  apply rnd_mono. apply Qmult_le_compat_r; [exact Ha |].
  apply Qlt_le_weak, Qinv_lt_0_compat, Hb.
Qed.

(** [int(min(100, x)) = min(100, int(x))] for the skill score. *)
Lemma skill_int_min (keyword_match : num) :
  0 <= val keyword_match <= 100 ->
  int (skill_match_of keyword_match) =
    Z.min 100 (int (add keyword_match (Int 10))).
Proof.
  intros Hk. unfold skill_match_of.
  assert (B : 0 + 10 <= val (add keyword_match (Int 10)) <= 100 + 10).
  { apply add_between; try (apply (repr_int _); reflexivity);
      [exact Hk | unfold val, inject_Z; lra]. }
  set (t := add keyword_match (Int 10)) in *.
  assert (T0 : 0 <= val t) by lra.
  unfold min, ltb. change (val (Int 100)) with 100.
  destruct (Qle_bool 100 (val t)) eqn:E; cbn [negb].
  - apply Qle_bool_iff in E. rewrite (int_floor t T0).
    apply Qfloor_resp_le in E. change (Qfloor 100) with 100%Z in E.
    cbn [int]. lia.
  - assert (L : val t < 100).
    { apply Qnot_le_lt. intros C. apply Qle_bool_iff in C. congruence. }
    rewrite (int_floor t T0).
    apply Qlt_le_weak in L. apply Qfloor_resp_le in L.
    change (Qfloor 100) with 100%Z in L. lia.
Qed.

(** The exact percentage, as a quotient and a remainder. *)
Lemma exact_percentage (a b : Z) :
  (0 < b)%Z ->
  inject_Z a / inject_Z b * 100 * inject_Z b
  == inject_Z (100 * a / b) * inject_Z b + inject_Z (100 * a mod b).
Proof.
  intros Hb. apply inject_Z_pos in Hb as Hbq.
  rewrite <- inject_Z_mult, <- inject_Z_plus.
  replace (100 * a / b * b + (100 * a) mod b)%Z with (100 * a)%Z
    by (rewrite (Z.div_mod (100 * a) b) at 1 by lia; ring).
  rewrite inject_Z_mult. change (inject_Z 100) with 100. field. lra.
Qed.

(** Below [2^45] job-description tokens, the computed overlap stays
    under the next whole number above the exact percentage. *)
Lemma keyword_match_upper (resume_tokens jd_tokens : gset string) :
  truthy jd_tokens = true ->
  (Z.of_nat (size jd_tokens) < 2 ^ 45)%Z ->
  val (keyword_match_of resume_tokens jd_tokens)
  < inject_Z (100 * Z.of_nat (size (resume_tokens ∩ jd_tokens))
              / Z.of_nat (size jd_tokens) + 1).
Proof.
  intros T Hsmall.
  pose proof (keyword_match_close resume_tokens jd_tokens T) as C.
  apply Qabs_Qle_condition in C. destruct C as [_ C].
  pose proof (truthy_size _ T) as Hb.
  set (a := Z.of_nat (size (resume_tokens ∩ jd_tokens))) in *.
  set (b := Z.of_nat (size jd_tokens)) in *.
  pose proof (exact_percentage a b Hb) as E.
  pose proof (Z.mod_pos_bound (100 * a) b Hb) as [_ Hr].
  assert (Hrq : inject_Z (100 * a mod b) <= inject_Z b - 1).
  { change 1 with (inject_Z 1). unfold Qminus. rewrite <- inject_Z_opp, <- inject_Z_plus.
    rewrite <- Zle_Qle. lia. }
  assert (Hbq : 0 < inject_Z b) by (apply inject_Z_pos, Hb).
  assert (Hb45 : inject_Z b < 35184372088832).
  { change 35184372088832 with (inject_Z (2 ^ 45)). rewrite <- Zlt_Qlt. exact Hsmall. }
  rewrite inject_Z_plus. change (inject_Z 1) with 1.
  set (km := val (keyword_match_of resume_tokens jd_tokens)) in *.
  set (e := inject_Z a / inject_Z b * 100) in *.
  set (F := inject_Z (100 * a / b)) in *.
  set (r := inject_Z (100 * a mod b)) in *.
  set (bq := inject_Z b) in *.
  change (1 # 2 ^ 45) with (1 # 35184372088832) in C.
  apply Qnot_le_lt. intros G.
  assert (P1 : (F + 1) * bq <= km * bq) by (apply Qmult_le_compat_r; lra).
  assert (P2 : km * bq <= (e + (1 # 35184372088832)) * bq)
    by (apply Qmult_le_compat_r; lra).
  lra.
Qed.

(** The computed overlap is never a whole unit below the exact
    percentage. *)
Lemma keyword_match_lower (resume_tokens jd_tokens : gset string) :
  truthy jd_tokens = true ->
  inject_Z (100 * Z.of_nat (size (resume_tokens ∩ jd_tokens))
            / Z.of_nat (size jd_tokens) - 1)
  <= val (keyword_match_of resume_tokens jd_tokens).
Proof.
  intros T.
  pose proof (keyword_match_close resume_tokens jd_tokens T) as C.
  apply Qabs_Qle_condition in C. destruct C as [C _].
  pose proof (truthy_size _ T) as Hb.
  set (a := Z.of_nat (size (resume_tokens ∩ jd_tokens))) in *.
  set (b := Z.of_nat (size jd_tokens)) in *.
  pose proof (exact_percentage a b Hb) as E.
  pose proof (Z.mod_pos_bound (100 * a) b Hb) as [Hr _].
  assert (Hrq : 0 <= inject_Z (100 * a mod b)).
  { change 0 with (inject_Z 0). rewrite <- Zle_Qle. exact Hr. }
  assert (Hbq : 0 < inject_Z b) by (apply inject_Z_pos, Hb).
  unfold Zminus. rewrite inject_Z_plus, inject_Z_opp. change (inject_Z 1) with 1.
  set (km := val (keyword_match_of resume_tokens jd_tokens)) in *.
  set (e := inject_Z a / inject_Z b * 100) in *.
  set (F := inject_Z (100 * a / b)) in *.
  set (r := inject_Z (100 * a mod b)) in *.
  set (bq := inject_Z b) in *.
  change (1 # 2 ^ 45) with (1 # 35184372088832) in C.
  assert (Fe : F <= e).
  { apply Qnot_lt_le. intros G.
    assert (e * bq < F * bq) by (apply Qmult_lt_compat_r; lra). lra. }
  lra.
Qed.

End ScoreFacts.

Section KeywordAndSkill.

Import Binary64 Rounding Py PyRel PyFacts PyRelFacts Components ScoreFacts.
Local Open Scope Z_scope.

Variable nlp : string -> list Token.
Variables resume_text jd_text : option string.

Let found : Z := Z.of_nat (size (normalize nlp resume_text ∩ normalize nlp jd_text)).
Let wanted : Z := Z.of_nat (size (normalize nlp jd_text)).
Let keyword_match := keyword_match_of (normalize nlp resume_text) (normalize nlp jd_text).

Lemma wanted_truthy : 0 < wanted -> truthy (normalize nlp jd_text) = true.
Proof.
  unfold wanted, truthy. intros H.
  destruct (Nat.eqb_spec (size (normalize nlp jd_text)) 0) as [E|NE]; [| reflexivity].
  rewrite E in H. simpl in H. lia.
Qed.

(** X5: with fewer than [2^45] job-description tokens, the stored keyword
    score is the floor of the exact percentage or one less. *)
Theorem keyword_is_floor_or_one_less :
  0 < wanted < 2 ^ 45 ->
  100 * found / wanted - 1 <= keyword (analyze_resume nlp resume_text jd_text)
  <= 100 * found / wanted.
Proof.
  intros [Hpos Hsmall].
  pose proof (wanted_truthy Hpos) as T.
  pose proof (keyword_match_lower (normalize nlp resume_text) _ T) as L.
  pose proof (keyword_match_upper (normalize nlp resume_text) _ T Hsmall) as U.
  pose proof (keyword_match_between (normalize nlp resume_text) (normalize nlp jd_text))
    as [K0 _].
  fold found wanted keyword_match in L, U, K0.
  change (100 * found / wanted - 1 <= int keyword_match <= 100 * found / wanted).
  rewrite (int_floor keyword_match K0). split.
  - apply Qfloor_resp_le in L. rewrite Qfloor_Z in L. exact L.
  - assert (H : (inject_Z (Qfloor (val keyword_match))
                 < inject_Z (100 * found / wanted + 1))%Q).
    { apply Qle_lt_trans with (val keyword_match); [apply Qfloor_le | exact U]. }
    rewrite <- Zlt_Qlt in H. lia.
Qed.

(** X6: with fewer than [2^45] job-description tokens, the stored keyword
    score is 100 exactly when the job description has tokens and the
    resume has them all. *)
Theorem keyword_100_iff_all_found :
  wanted < 2 ^ 45 ->
  keyword (analyze_resume nlp resume_text jd_text) = 100
  <-> normalize nlp jd_text <> ∅
      /\ normalize nlp jd_text ⊆ normalize nlp resume_text.
Proof.
  intros Hsmall.
  change (int keyword_match = 100
          <-> normalize nlp jd_text <> ∅
              /\ normalize nlp jd_text ⊆ normalize nlp resume_text).
  split.
  - intros K.
    destruct (truthy (normalize nlp jd_text)) eqn:T.
    + pose proof (truthy_size _ T) as Hpos. fold wanted in Hpos.
      pose proof (keyword_match_upper (normalize nlp resume_text) _ T Hsmall) as U.
      pose proof (keyword_match_between (normalize nlp resume_text)
                    (normalize nlp jd_text)) as [K0 _].
      fold found wanted keyword_match in U, K0.
      rewrite (int_floor keyword_match K0) in K.
      assert (H : (inject_Z (Qfloor (val keyword_match))
                   < inject_Z (100 * found / wanted + 1))%Q).
      { apply Qle_lt_trans with (val keyword_match); [apply Qfloor_le | exact U]. }
      rewrite <- Zlt_Qlt in H.
      assert (D : 100 <= 100 * found / wanted) by lia.
      assert (Hfw : wanted <= found).
      { pose proof (Z.mul_div_le (100 * found) wanted Hpos). nia. }
      assert (Sub : normalize nlp resume_text ∩ normalize nlp jd_text
                    ⊆ normalize nlp jd_text) by apply intersection_subseteq_r.
      assert (E : normalize nlp resume_text ∩ normalize nlp jd_text
                  = normalize nlp jd_text).
      { apply set_subseteq_size_eq; [exact Sub |]. unfold found, wanted in Hfw. lia. }
      split.
      * intros Em. apply Components.truthy_false in Em. congruence.
      * rewrite <- E. apply intersection_subseteq_l.
    + unfold keyword_match, keyword_match_of in K. rewrite T in K. discriminate K.
  - intros [NE Sub]. unfold keyword_match.
    rewrite (int_same _ _ (keyword_match_full _ _ NE Sub)). reflexivity.
Qed.

(** X7: the stored skill score is the stored keyword score plus 10 or
    plus 11, capped at 100; it is never less than the keyword score. *)
Theorem skill_is_keyword_plus_10_or_11 :
  let s := analyze_resume nlp resume_text jd_text in
  Z.min 100 (keyword s + 10) <= skill s <= Z.min 100 (keyword s + 11)
  /\ keyword s <= skill s.
Proof.
  cbv zeta.
  change (Z.min 100 (int keyword_match + 10) <= int (skill_match_of keyword_match)
          <= Z.min 100 (int keyword_match + 11)
          /\ int keyword_match <= int (skill_match_of keyword_match)).
  assert (Hk : (0 <= val keyword_match <= 100)%Q) by apply keyword_match_between.
  assert (Bk : 0 <= int keyword_match <= 100) by (apply int_between; [lia | exact Hk]).
  pose proof (int_brackets keyword_match (proj1 Hk)) as Ik.
  assert (I10 : (inject_Z 10 <= val (Int 10) <= inject_Z 10)%Q)
    by (cbn [val]; split; apply Qle_refl).
  assert (S := add_between_int keyword_match (Int 10)
                 (int keyword_match) (int keyword_match + 1) 10 10
                 ltac:(lia) ltac:(lia) ltac:(lia) ltac:(lia) Ik I10).
  assert (Bt : int keyword_match + 10 <= int (add keyword_match (Int 10))
               <= int keyword_match + 1 + 10)
    by (apply int_between; [lia | exact S]).
  rewrite (skill_int_min keyword_match Hk). lia.
Qed.

End KeywordAndSkill.

(** X8: for a fixed job description, a resume whose token set contains
    that of another resume never has a lower keyword or skill score. *)
Theorem more_resume_tokens_never_lower (nlp : string -> list Token)
    (resume_text resume_text' jd_text : option string) :
  normalize nlp resume_text ⊆ normalize nlp resume_text' ->
  keyword (analyze_resume nlp resume_text jd_text)
  <= keyword (analyze_resume nlp resume_text' jd_text)
  /\ skill (analyze_resume nlp resume_text jd_text)
     <= skill (analyze_resume nlp resume_text' jd_text).
Proof.
  intros Sub.
  pose proof (ScoreFacts.keyword_match_mono _ _ (normalize nlp jd_text) Sub) as M.
  pose proof (Components.keyword_match_between (normalize nlp resume_text)
                (normalize nlp jd_text)) as [K0 K1].
  pose proof (Components.keyword_match_between (normalize nlp resume_text')
                (normalize nlp jd_text)) as [K0' K1'].
  set (km := keyword_match_of (normalize nlp resume_text) (normalize nlp jd_text)) in *.
  set (km' := keyword_match_of (normalize nlp resume_text') (normalize nlp jd_text)) in *.
  change (Py.int km <= Py.int km'
          /\ Py.int (skill_match_of km) <= Py.int (skill_match_of km')).
  split; [apply ScoreFacts.int_mono; assumption |].
  apply ScoreFacts.int_mono.
  - pose proof (Components.skill_match_between km (conj K0 K1)) as [H _].
    apply Qle_trans with 10%Q; [discriminate | exact H].
  - unfold skill_match_of. apply ScoreFacts.min100_mono.
    apply ScoreFacts.add10_mono; assumption.
Qed.

(** 29 of 100 tokens: keyword 28 and skill 39, eleven apart. *)
Example skill_eleven_above_keyword :
  let keyword_match := Py.mul (Py.truediv (Py.Int 29) (Py.Int 100)) (Py.Int 100) in
  Py.int keyword_match = 28 /\ Py.int (skill_match_of keyword_match) = 39.
Proof. vm_compute. split; reflexivity. Qed.

(** Two of three tokens: the floor of 200/3 is 66. *)
Lemma keyword_is_floor_or_one_less_witness :
  100 * 2 / 3 - 1
  <= keyword (analyze_resume Plain.nlp (Some "python sql") (Some "python sql linux"))
  <= 100 * 2 / 3.
Proof.
  apply (keyword_is_floor_or_one_less Plain.nlp (Some "python sql")
           (Some "python sql linux")).
  vm_compute. split; reflexivity.
Defined.

Lemma keyword_100_iff_all_found_witness :
  keyword (analyze_resume Plain.nlp (Some "python sql linux") (Some "python sql")) = 100.
Proof.
  apply (proj2 (keyword_100_iff_all_found Plain.nlp (Some "python sql linux")
                  (Some "python sql") ltac:(vm_compute; reflexivity))).
  split.
  - intros E. apply (f_equal size) in E. vm_compute in E. discriminate E.
  - refine (@bool_decide_unpack _ (decide _) _). vm_compute. exact I.
Defined.

Lemma more_resume_tokens_never_lower_witness :
  keyword (analyze_resume Plain.nlp (Some "python") (Some "python sql linux"))
  <= keyword (analyze_resume Plain.nlp (Some "python sql") (Some "python sql linux"))
  /\ skill (analyze_resume Plain.nlp (Some "python") (Some "python sql linux"))
     <= skill (analyze_resume Plain.nlp (Some "python sql") (Some "python sql linux")).
Proof.
  apply (more_resume_tokens_never_lower Plain.nlp (Some "python") (Some "python sql")
           (Some "python sql linux")).
  refine (@bool_decide_unpack _ (decide _) _). vm_compute. exact I.
Defined.

(** ** Readability in whole numbers *)

Lemma started_blocks (n : Z) :
  0 <= n ->
  n <= 1500 * ((n + 1499) / 1500)
  /\ (0 < n -> 1500 * ((n + 1499) / 1500 - 1) + 1 <= n).
Proof.
  intros Hn.
  pose proof (Z.div_mod (n + 1499) 1500 ltac:(lia)) as D.
  pose proof (Z.mod_pos_bound (n + 1499) 1500 ltac:(lia)) as M.
  remember ((n + 1499) / 1500) as q eqn:Eq.
  remember ((n + 1499) mod 1500) as m eqn:Em.
  clear Eq Em. split; [| intros _]; lia.
Qed.

Lemma started_blocks_small (n : Z) :
  0 <= n <= 103500 -> 0 <= (n + 1499) / 1500 <= 69.
Proof.
  intros Hn. split; [apply Z.div_pos; lia |].
  assert ((n + 1499) / 1500 < 70) by (apply Z.div_lt_upper_bound; lia).
  remember ((n + 1499) / 1500) as q eqn:Eq. clear Eq. lia.
Qed.

Section ReadabilityClosedForm.

Import Binary64 Rounding Py PyFacts.
Local Open Scope Q_scope.

Variable resume_text : option string.

Let n : Z := Z.of_nat (String.length (Str.or_empty resume_text)).
Let x : Q := rnd (inject_Z n / inject_Z 1500).
Let y : Q := rnd (rnd (inject_Z 100) - x).

(** The number of started blocks of 1500 characters. *)
Let k : Z := ((n + 1499) / 1500)%Z.

Lemma blocks_bounds : (0 <= n)%Z -> (n <= 1500 * k /\ (0 < n -> 1500 * (k - 1) + 1 <= n))%Z.
Proof. intros Hn. apply started_blocks, Hn. Qed.

Lemma blocks_small : (0 <= n <= 103500)%Z -> (0 <= k <= 69)%Z.
Proof. intros Hn. apply started_blocks_small, Hn. Qed.

Lemma penalty_lower : (0 <= n <= 103500)%Z -> inject_Z (100 - k) <= y.
Proof.
  intros Hn. destruct (blocks_bounds (proj1 Hn)) as [Hk _].
  pose proof (blocks_small Hn) as Ks.
  assert (P : (100 < 2 ^ 53)%Z) by reflexivity.
  assert (Hq : inject_Z n / inject_Z 1500 <= inject_Z k).
  { apply Qle_shift_div_r; [reflexivity |].
    rewrite <- inject_Z_mult, <- Zle_Qle. lia. }
  assert (R100 : rnd (inject_Z 100) == 100) by (apply rnd_int; reflexivity).
  assert (Hx : x <= inject_Z k) by (apply rnd_le; [apply rnd_int; lia | exact Hq]).
  apply rnd_ge; [apply rnd_int; lia |].
  unfold Zminus. rewrite inject_Z_plus, inject_Z_opp, R100.
  change (inject_Z 100) with 100. lra.
Qed.

Lemma penalty_upper : (0 <= n <= 103500)%Z -> y < inject_Z (101 - k).
Proof.
  intros Hn. destruct (blocks_bounds (proj1 Hn)) as [_ Hk].
  pose proof (blocks_small Hn) as Ks.
  assert (R100 : rnd (inject_Z 100) == 100) by (apply rnd_int; reflexivity).
  assert (P : (2048 * 101 < 2 ^ 53)%Z) by reflexivity.
  destruct (Z.eq_dec n 0%Z) as [Z0|NZ].
  - assert (K0 : k = 0%Z) by (unfold k; rewrite Z0; reflexivity).
    rewrite K0. change (inject_Z (101 - 0)) with 101.
    assert (Hx : 0 <= x).
    { apply rnd_ge; [apply rnd_zero; reflexivity |]. rewrite Z0. discriminate. }
    assert (Hy : y <= 100).
    { apply rnd_le; [apply (rnd_int 100); reflexivity |]. lra. }
    lra.
  - specialize (Hk ltac:(lia)).
    (* a representable number between the start of the block and n/1500 *)
    assert (Rc : rnd (inject_Z (2048 * (k - 1) + 1) * (1 # 2048))
                 == inject_Z (2048 * (k - 1) + 1) * (1 # 2048)).
    { pose proof (rnd_dyadic (2048 * (k - 1) + 1) (-11) ltac:(lia)) as R.
      change (2 ^ (-11)) with (1 # 2048) in R. exact R. }
    assert (Rd : rnd (inject_Z (2048 * (101 - k) - 1) * (1 # 2048))
                 == inject_Z (2048 * (101 - k) - 1) * (1 # 2048)).
    { pose proof (rnd_dyadic (2048 * (101 - k) - 1) (-11) ltac:(lia)) as R.
      change (2 ^ (-11)) with (1 # 2048) in R. exact R. }
    assert (Ec : inject_Z (2048 * (k - 1) + 1) * (1 # 2048)
                 == inject_Z k - 1 + (1 # 2048)).
    { unfold Z.sub. rewrite inject_Z_plus, inject_Z_mult, inject_Z_plus, inject_Z_opp.
      change (inject_Z 2048) with 2048. change (inject_Z 1) with 1. field. }
    assert (Ed : inject_Z (2048 * (101 - k) - 1) * (1 # 2048)
                 == 101 - inject_Z k - (1 # 2048)).
    { unfold Z.sub. rewrite inject_Z_plus, inject_Z_mult, inject_Z_plus, !inject_Z_opp.
      change (inject_Z 2048) with 2048. change (inject_Z 101) with 101.
      change (inject_Z 1) with 1. field. }
    assert (En : 1500 * inject_Z k - 1499 <= inject_Z n).
    { assert (H : inject_Z (1500 * (k - 1) + 1) <= inject_Z n)
        by (rewrite <- Zle_Qle; exact Hk).
      unfold Z.sub in H.
      rewrite inject_Z_plus, inject_Z_mult, inject_Z_plus, inject_Z_opp in H.
      change (inject_Z 1500) with 1500 in H. change (inject_Z 1) with 1 in H. lra. }
    assert (Kq : 0 <= inject_Z k <= 69).
    { change 0 with (inject_Z 0). change 69 with (inject_Z 69).
      rewrite <- !Zle_Qle. exact Ks. }
    assert (Hq : inject_Z (2048 * (k - 1) + 1) * (1 # 2048)
                 <= inject_Z n / inject_Z 1500).
    { rewrite Ec. apply Qle_shift_div_l; [reflexivity |].
      change (inject_Z 1500) with 1500. lra. }
    assert (Hx : inject_Z (2048 * (k - 1) + 1) * (1 # 2048) <= x)
      by (apply rnd_ge; assumption).
    rewrite Ec in Hx.
    assert (Hy : y <= inject_Z (2048 * (101 - k) - 1) * (1 # 2048)).
    { apply rnd_le; [exact Rd |]. rewrite Ed, R100. lra. }
    rewrite Ed in Hy.
    unfold Z.sub. rewrite inject_Z_plus, inject_Z_opp.
    change (inject_Z 101) with 101. lra.
Qed.

(** X9: the stored readability is 100 minus the number of started blocks
    of 1500 characters of the raw text, and never less than 30: the two
    roundings of the float computation never move it across a whole
    number. *)
Theorem readability_counts_blocks (nlp : string -> list Token) (jd_text : option string) :
  readability (analyze_resume nlp resume_text jd_text)
  = Z.max 30 (100 - (Z.of_nat (String.length (Str.or_empty resume_text)) + 1499) / 1500).
Proof.
  change (int (readability_of resume_text) = Z.max 30 (100 - k)).
  assert (N0 : (0 <= n)%Z) by (unfold n; lia).
  rewrite readability_unfold. fold n. fold x. fold y.
  destruct (Z.le_gt_cases n 103500) as [Small|Large].
  - pose proof (blocks_small (conj N0 Small)) as Ks.
    pose proof (penalty_lower (conj N0 Small)) as L.
    pose proof (penalty_upper (conj N0 Small)) as U.
    assert (G : 31 <= y).
    { apply Qle_trans with (inject_Z (100 - k)); [| exact L].
      change 31 with (inject_Z 31). rewrite <- Zle_Qle. lia. }
    assert (E : Qle_bool y 30 = false).
    { destruct (Qle_bool y 30) eqn:E; [| reflexivity].
      apply Qle_bool_iff in E. lra. }
    rewrite E. cbn [negb int]. rewrite trunc_floor by lra.
    assert (F1 : (100 - k <= Qfloor y)%Z).
    { apply Qfloor_resp_le in L. rewrite Qfloor_Z in L. exact L. }
    assert (F2 : (Qfloor y < 101 - k)%Z).
    { rewrite Zlt_Qlt. apply Qle_lt_trans with y; [apply Qfloor_le | exact U]. }
    lia.
  - assert (K70 : (70 <= k)%Z) by (unfold k; apply Z.div_le_lower_bound; lia).
    rewrite Z.max_l by lia.
    destruct (Qle_bool y 30) eqn:E; [reflexivity |].
    assert (Hy : 30 < y).
    { apply Qnot_le_lt. intros C. apply Qle_bool_iff in C. congruence. }
    destruct (readability_long resume_text ltac:(fold n; lia) Hy) as [H1 H2].
    cbn [negb int]. rewrite trunc_floor by lra.
    assert (F1 : (30 <= Qfloor y)%Z) by (apply Qfloor_resp_le in H1; exact H1).
    assert (F2 : (Qfloor y < 31)%Z).
    { rewrite Zlt_Qlt. apply Qle_lt_trans with y; [apply Qfloor_le | exact H2]. }
    lia.
Qed.

End ReadabilityClosedForm.

(** ** Format and extraction *)

(** X10: the format test ignores letter case: a resume containing any
    spelling of "experience" in upper or lower case scores 90. *)
Theorem format_ignores_case (nlp : string -> list Token)
    (before word after : string) (jd_text : option string) :
  Str.lower word = "experience" ->
  format (analyze_resume nlp
            (Some (String.append before (String.append word after))) jd_text) = 90.
Proof.
  intros Hw.
  change (Py.int (format_score_of
            (Some (String.append before (String.append word after)))) = 90).
  unfold format_score_of, Str.or_empty.
  rewrite !StrFacts.lower_app, Hw, StrFacts.contains_app. reflexivity.
Qed.

Lemma format_ignores_case_witness :
  format (analyze_resume Plain.nlp
            (Some (String.append "Work " (String.append "EXPERIENCE" ": none")))
            (Some "python sql")) = 90.
Proof.
  apply (format_ignores_case Plain.nlp "Work " "EXPERIENCE" ": none" (Some "python sql")).
  reflexivity.
Defined.

Lemma append_length (s t : string) :
  String.length (String.append s t) = (String.length s + String.length t)%nat.
Proof.
  induction s as [|c s IH]; [reflexivity |].
  rewrite StrFacts.append_cons. simpl. rewrite IH. reflexivity.
Qed.

(** The length of [sep.join(parts)] for a separator of one character. *)
Lemma join_length (sep : ascii) (parts : list string) :
  String.length (Str.join (String sep EmptyString) parts)
  = (list_sum (List.map String.length parts) + Nat.pred (List.length parts))%nat.
Proof.
  induction parts as [|p rest IH]; [reflexivity |].
  destruct rest as [|p' rest'].
  - simpl. lia.
  - change (Str.join (String sep EmptyString) (p :: p' :: rest'))
      with (String.append p (String.append (String sep EmptyString)
              (Str.join (String sep EmptyString) (p' :: rest')))).
    rewrite !append_length, IH. simpl. lia.
Qed.

Section ExtractionFacts.

Variable pdf_pages : option string -> Exc (list (option string)).
Variable docx_paragraphs : option string -> Exc (list string).

Local Abbreviation extract := (extract_text pdf_pages docx_paragraphs).

(** X11: the text extracted from a readable document is as long as its
    pages (or paragraphs) together plus one space between two of them:
    a PDF of n pages without any text gives n - 1 characters, not the
    empty string. *)
Theorem extracted_text_length (fs : gmap string string) (file_path : string) :
  (forall pages,
     Str.endswith file_path ".pdf" = true ->
     pdf_pages (fs !! file_path) = Return pages ->
     exists text,
       extract fs file_path = Return text
       /\ String.length text
          = (list_sum (List.map (fun page => String.length (Str.or_empty page)) pages)
             + Nat.pred (List.length pages))%nat)
  /\ (forall paragraphs,
       Str.endswith file_path ".pdf" = false ->
       Str.endswith file_path ".docx" = true ->
       docx_paragraphs (fs !! file_path) = Return paragraphs ->
       exists text,
         extract fs file_path = Return text
         /\ String.length text
            = (list_sum (List.map String.length paragraphs)
               + Nat.pred (List.length paragraphs))%nat).
Proof.
  split.
  - intros pages Hp Hl. unfold extract_text. rewrite Hp, Hl. cbn [bind].
    eexists. split; [reflexivity |].
    rewrite join_length, List.map_map, List.length_map. reflexivity.
  - intros paragraphs Hp Hd Hl. unfold extract_text. rewrite Hp, Hd, Hl. cbn [bind].
    eexists. split; [reflexivity |]. apply join_length.
Qed.

End ExtractionFacts.

(** Three pages, the second without text: "ab", "" and "c" give "ab  c". *)
Lemma extracted_text_length_witness :
  let pdf_pages := fun _ : option string => Return [Some "ab"; None; Some "c"] in
  exists text,
    extract_text pdf_pages Sample.docx_paragraphs ∅ "cv.pdf" = Return text
    /\ String.length text = 5%nat.
Proof.
  intros pdf_pages.
  exact (proj1 (extracted_text_length pdf_pages Sample.docx_paragraphs ∅ "cv.pdf")
               [Some "ab"; None; Some "c"] eq_refl eq_refl).
Defined.

(** ** More on the route *)

Lemma append_inj_l (a x y : string) :
  String.append a x = String.append a y -> x = y.
Proof.
  induction a as [|c a IH]; [trivial |].
  rewrite !StrFacts.append_cons. intros [= H]. apply IH, H.
Qed.

Lemma substring_app_skip (a b : string) (k m : nat) :
  String.substring (String.length a + k) m (String.append a b) = String.substring k m b.
Proof.
  induction a as [|c a IH]; [reflexivity |].
  rewrite StrFacts.append_cons. exact IH.
Qed.

(** Whether a text ends in a suffix is decided by its last part, when
    this part is at least as long as the suffix. *)
Lemma endswith_app (a b suffix : string) :
  (String.length suffix <= String.length b)%nat ->
  Str.endswith (String.append a b) suffix = Str.endswith b suffix.
Proof.
  intros L. unfold Str.endswith. rewrite append_length.
  replace (String.length a + String.length b - String.length suffix)%nat
    with (String.length a + (String.length b - String.length suffix))%nat by lia.
  rewrite substring_app_skip.
  rewrite (proj2 (Nat.leb_le _ _) L).
  rewrite (proj2 (Nat.leb_le (String.length suffix)
                             (String.length a + String.length b)) ltac:(lia)).
  reflexivity.
Qed.

(** [os.path.join] adds the separator to a folder that is not empty and
    does not end in a slash, before a name that does not start with one. *)
Lemma path_join_folder (folder name : string) :
  folder <> EmptyString ->
  Str.endswith folder "/" = false ->
  Str.startswith name "/" = false ->
  path_join folder name = String.append folder (String.append "/" name).
Proof.
  intros NE E S. unfold path_join. rewrite S, E.
  destruct (String.eqb_spec folder EmptyString); [contradiction | reflexivity].
Qed.

(** The two upload folders are the same prefix followed by "jd" and by
    "resume". *)
Lemma upload_folders (root : string) :
  exists prefix,
    JD_FOLDER root = String.append prefix "jd"
    /\ RESUME_FOLDER root = String.append prefix "resume".
Proof.
  unfold JD_FOLDER, RESUME_FOLDER, path_join.
  change (Str.startswith "jd" "/") with false.
  change (Str.startswith "resume" "/") with false.
  destruct (String.eqb root EmptyString || Str.endswith root "/").
  - exists root. split; reflexivity.
  - exists (String.append root "/"). rewrite !StrFacts.append_assoc. split; reflexivity.
Qed.

Lemma path_in_folder (prefix sub name : string) :
  (1 <= String.length sub)%nat ->
  Str.endswith sub "/" = false ->
  Str.startswith name "/" = false ->
  path_join (String.append prefix sub) name =
    String.append prefix (String.append sub (String.append "/" name)).
Proof.
  intros L E S. rewrite path_join_folder; [apply StrFacts.append_assoc | | | exact S].
  - intros F. apply (f_equal String.length) in F. rewrite append_length in F.
    simpl in F. lia.
  - rewrite endswith_app by exact L. exact E.
Qed.

(** The two upload folders never give the same path, for names that do
    not start with a slash, as the names [secure_filename] returns. *)
Lemma upload_paths_differ (root jd_name resume_name : string) :
  Str.startswith jd_name "/" = false ->
  Str.startswith resume_name "/" = false ->
  path_join (JD_FOLDER root) jd_name <> path_join (RESUME_FOLDER root) resume_name.
Proof.
  intros Sj Sr. destruct (upload_folders root) as (prefix & -> & ->).
  rewrite (path_in_folder prefix "jd" jd_name ltac:(simpl; lia) eq_refl Sj).
  rewrite (path_in_folder prefix "resume" resume_name ltac:(simpl; lia) eq_refl Sr).
  intros H. apply append_inj_l in H.
  rewrite !StrFacts.append_cons in H. discriminate H.
Qed.

Module RangeFacts.

Import Binary64 Rounding Py PyFacts Components.
Local Open Scope Z_scope.

(** Every record built by [score] is within the ranges. *)
Lemma score_ranges (resume_tokens jd_tokens : gset string) (resume_text : option string) :
  let s := score resume_tokens jd_tokens resume_text in
  0 <= keyword s <= 100 /\ 10 <= skill s <= 100 /\ 30 <= readability s <= 100
  /\ 70 <= format s <= 90 /\ 27 <= overall s <= 97.
Proof.
  cbv zeta.
  set (km := keyword_match_of resume_tokens jd_tokens).
  assert (Hk : (inject_Z 0 <= val km <= inject_Z 100)%Q)
    by apply keyword_match_between.
  assert (Hs : (inject_Z 10 <= val (skill_match_of km) <= inject_Z 100)%Q)
    by apply skill_match_between, Hk.
  assert (Hr : (inject_Z 30 <= val (readability_of resume_text) <= inject_Z 100)%Q)
    by apply readability_between.
  assert (Hf : (inject_Z 70 <= val (format_score_of resume_text) <= inject_Z 90)%Q)
    by apply format_score_between.
  change (0 <= int km <= 100 /\ 10 <= int (skill_match_of km) <= 100
          /\ 30 <= int (readability_of resume_text) <= 100
          /\ 70 <= int (format_score_of resume_text) <= 90
          /\ 27 <= overall_of km (skill_match_of km) (readability_of resume_text)
                              (format_score_of resume_text) <= 97).
  repeat (split; [apply int_between; [lia | assumption] |]).
  assert (S1 := add_between_int _ _ 0 100 10 100
                  ltac:(lia) ltac:(lia) ltac:(lia) ltac:(lia) Hk Hs).
  assert (S2 := add_between_int _ _ (0 + 10) (100 + 100) 30 100
                  ltac:(lia) ltac:(lia) ltac:(lia) ltac:(lia) S1 Hr).
  assert (S3 := add_between_int _ _ (0 + 10 + 30) (100 + 100 + 100) 70 90
                  ltac:(lia) ltac:(lia) ltac:(lia) ltac:(lia) S2 Hf).
  assert (Q4 := quarter_between _ _ _
                  (repr_int 110 eq_refl) (repr_int 390 eq_refl)
                  (repr_quarter 110 eq_refl) (repr_quarter 390 eq_refl) S3).
  destruct Q4 as [Q1 Q2]. unfold overall_of.
  set (avg := truediv _ (Int 4)) in *.
  assert (A0 : (0 <= val avg)%Q).
  { apply Qle_trans with (inject_Z 110 / 4)%Q; [| exact Q1]. discriminate. }
  rewrite (int_floor avg A0).
  apply Qfloor_resp_le in Q1, Q2. split; [exact Q1 | exact Q2].
Qed.

(** The record of a resume without text, for every set of
    job-description tokens. *)
Lemma score_of_no_text (jd_tokens : gset string) (resume_text : option string) :
  Str.or_empty resume_text = EmptyString ->
  score ∅ jd_tokens resume_text =
    {| overall := 45; keyword := 0; skill := 10; readability := 100; format := 70 |}.
Proof.
  intros Ht. unfold score. cbv zeta.
  assert (D : (∅ : gset string) ∩ jd_tokens = ∅) by apply intersection_empty_l_L.
  pose proof (PyRelFacts.keyword_match_disjoint _ _ D) as F.
  set (km := keyword_match_of ∅ jd_tokens) in *.
  assert (R : readability_of resume_text = Float 100).
  { unfold readability_of, len_str. rewrite Ht. vm_compute. reflexivity. }
  assert (Fm : format_score_of resume_text = Int 70).
  { unfold format_score_of. rewrite Ht. reflexivity. }
  rewrite R, Fm.
  destruct F as [F|F];
    rewrite (PyRelFacts.overall_same _ _ _ _ _ _ _ _ F
               (PyRelFacts.skill_match_same _ _ F)
               (PyRelFacts.same_refl _) (PyRelFacts.same_refl _)),
            (PyRelFacts.int_same _ _ F),
            (PyRelFacts.int_same _ _ (PyRelFacts.skill_match_same _ _ F));
    vm_compute; reflexivity.
Qed.

End RangeFacts.

Section RouteMore.

Variable pdf_pages : option string -> Exc (list (option string)).
Variable docx_paragraphs : option string -> Exc (list string).
Variable nlp_call : string -> Exc (list Token).
Variable splitext_ext : string -> string.
Variable secure_filename : string -> string.
Variable db_error : list Row -> Row -> option string.
Variable UPLOAD_ROOT : string.

Local Abbreviation extract := (extract_text pdf_pages docx_paragraphs).
Local Abbreviation process := (extract_and_analyze pdf_pages docx_paragraphs nlp_call).
Local Abbreviation route :=
  (analyze pdf_pages docx_paragraphs nlp_call splitext_ext secure_filename
           db_error UPLOAD_ROOT).
Local Abbreviation allowed := (allowed_file splitext_ext).
Local Abbreviation jd_path_of u :=
  (path_join (JD_FOLDER UPLOAD_ROOT) (secure_filename (filename u))).
Local Abbreviation resume_path_of u :=
  (path_join (RESUME_FOLDER UPLOAD_ROOT) (secure_filename (filename u))).

(** [validated req jd_file resume_file]: both uploads are there and both
    names pass [allowed_file]. *)
Local Abbreviation validated req jd_file resume_file :=
  (present (jobFile req) = Some jd_file
   /\ present (resumeFile req) = Some resume_file
   /\ allowed (filename jd_file) = true
   /\ allowed (filename resume_file) = true).



(** The files after a validated request: the two uploads saved, whatever
    happens next. *)
Lemma route_files (req : Request) (w : World) (jd_file resume_file : Upload) :
  validated req jd_file resume_file ->
  files (snd (route req w)) =
    save (resume_path_of resume_file) resume_file
         (save (jd_path_of jd_file) jd_file (files w)).
Proof.
  intros (Hj & Hr & Aj & Ar).
  rewrite (route_validated _ _ _ _ _ _ _ req w jd_file resume_file Hj Hr Aj Ar).
  cbv zeta. destruct (process _ _ _); [destruct (db_error _ _) |]; reflexivity.
Qed.


(** X17: whatever the libraries do, scores that the route returns are
    within the ranges: keyword in [0,100], skill in [10,100], readability
    in [30,100], format in [70,90], overall in [27,97]. *)
Theorem returned_scores_in_range (req : Request) (w : World) (r : ScoreResult) :
  body (fst (route req w)) = Scores r ->
  0 <= keyword r <= 100 /\ 10 <= skill r <= 100 /\ 30 <= readability r <= 100
  /\ 70 <= format r <= 90 /\ 27 <= overall r <= 97.
Proof.
  intros H.
  apply route_scores in H as (jd_file & resume_file & _ & _ & P).
  unfold extract_and_analyze in P.
  destruct (extract _ (jd_path_of jd_file)) as [jd_text|]; [| discriminate P].
  destruct (extract _ (resume_path_of resume_file)) as [resume_text|];
    [| discriminate P].
  cbn [bind] in P. unfold analyze_resume_call in P.
  destruct (nlp_call _) as [resume_doc|]; [| discriminate P].
  destruct (nlp_call _) as [jd_doc|]; [| discriminate P].
  cbn [bind] in P. injection P as <-. apply RangeFacts.score_ranges.
Qed.

(** X18: a resume whose stored name ends in neither ".pdf" nor ".docx"
    as written (an upper-case ".PDF", say, which [allowed_file] accepts)
    is analysed as a text without characters: with a pipeline that finds
    no token in the empty text, the scores are overall 45, keyword 0,
    skill 10, readability 100, format 70, whatever the job description
    says. *)
Theorem unread_resume_scored_as_empty (req : Request) (w : World)
    (jd_file resume_file : Upload) (jd_text : string) (jd_doc : list Token) :
  validated req jd_file resume_file ->
  Str.endswith (resume_path_of resume_file) ".pdf" = false ->
  Str.endswith (resume_path_of resume_file) ".docx" = false ->
  extract (save (resume_path_of resume_file) resume_file
             (save (jd_path_of jd_file) jd_file (files w)))
          (jd_path_of jd_file) = Return jd_text ->
  nlp_call EmptyString = Return [] ->
  nlp_call (Str.lower jd_text) = Return jd_doc ->
  body (fst (route req w))
    = Scores {| overall := 45; keyword := 0; skill := 10;
                readability := 100; format := 70 |}
  \/ fst (route req w) = {| body := Error "DB error"; status := 500 |}.
Proof.
  intros (Hj & Hr & Aj & Ar) Ep Ed Ejd Nempty Njd.
  rewrite (route_validated _ _ _ _ _ _ _ req w jd_file resume_file Hj Hr Aj Ar).
  cbv zeta.
  assert (P : process (save (resume_path_of resume_file) resume_file
                         (save (jd_path_of jd_file) jd_file (files w)))
                      (jd_path_of jd_file) (resume_path_of resume_file)
              = Return {| overall := 45; keyword := 0; skill := 10;
                          readability := 100; format := 70 |}).
  { unfold extract_and_analyze. rewrite Ejd. cbn [bind].
    unfold extract_text at 1. rewrite Ep, Ed. cbn [bind].
    unfold analyze_resume_call, Str.or_empty.
    change (Str.lower EmptyString) with EmptyString.
    rewrite Nempty, Njd. cbn [bind]. f_equal.
    apply RangeFacts.score_of_no_text. reflexivity. }
  rewrite P. destruct (db_error _ _); [right | left]; reflexivity.
Qed.

End RouteMore.

(** *** Concrete runs *)

(** The scores of a successful run. *)
Lemma returned_scores_in_range_witness :
  let r := {| overall := 78; keyword := 66; skill := 76; readability := 99;
              format := 70 |} in
  0 <= keyword r <= 100 /\ 10 <= skill r <= 100 /\ 30 <= readability r <= 100
  /\ 70 <= format r <= 90 /\ 27 <= overall r <= 97.
Proof.
  intros r.
  apply (returned_scores_in_range
           Sample.pdf_pages Sample.docx_paragraphs Sample.nlp_call
           Sample.splitext_ext Sample.secure_filename Sample.db_error
           Sample.UPLOAD_ROOT
           {| userId := Some "7";
              jobFile := Sample.upload "jd.docx" "python sql linux";
              resumeFile := Sample.upload "cv.pdf" "%PDFpython sql" |}
           Sample.empty_world r).
  vm_compute. reflexivity.
Defined.

(** A resume uploaded as "cv.PDF" passes the validation and is scored as
    an empty text. *)
Lemma unread_resume_scored_as_empty_witness :
  let req := {| userId := Some "7";
                jobFile := Sample.upload "jd.docx" "python sql linux";
                resumeFile := Sample.upload "cv.PDF" "%PDFpython sql linux" |} in
  body (fst (Sample.analyze req Sample.empty_world))
    = Scores {| overall := 45; keyword := 0; skill := 10;
                readability := 100; format := 70 |}
  \/ fst (Sample.analyze req Sample.empty_world)
     = {| body := Error "DB error"; status := 500 |}.
Proof.
  intros req.
  apply (unread_resume_scored_as_empty
           Sample.pdf_pages Sample.docx_paragraphs Sample.nlp_call
           Sample.splitext_ext Sample.secure_filename Sample.db_error
           Sample.UPLOAD_ROOT req Sample.empty_world
           {| filename := "jd.docx"; content := "python sql linux" |}
           {| filename := "cv.PDF"; content := "%PDFpython sql linux" |}
           "python sql linux" (Plain.nlp "python sql linux"));
    try (repeat split; reflexivity).
Defined.

(** ** The route as Flask serves it *)

Section ServedRoute.

Variable pdf_pages : option string -> Exc (list (option string)).
Variable docx_paragraphs : option string -> Exc (list string).
Variable nlp_call : string -> Exc (list Token).
Variable splitext_ext : string -> string.
Variable secure_filename : string -> string.
Variable db_error : list Row -> Row -> option string.
Variable UPLOAD_ROOT : string.
Variable MAX_CONTENT_LENGTH : Z.
Variable save_outcome : gmap string string -> string -> Upload -> Flask.SaveOutcome.

Local Abbreviation process := (extract_and_analyze pdf_pages docx_paragraphs nlp_call).
Local Abbreviation route :=
  (analyze pdf_pages docx_paragraphs nlp_call splitext_ext secure_filename
           db_error UPLOAD_ROOT).
Local Abbreviation serve :=
  (Flask.analyze pdf_pages docx_paragraphs nlp_call splitext_ext secure_filename
                 db_error UPLOAD_ROOT MAX_CONTENT_LENGTH save_outcome).
Local Abbreviation allowed := (allowed_file splitext_ext).
Local Abbreviation jd_path_of u :=
  (path_join (JD_FOLDER UPLOAD_ROOT) (secure_filename (filename u))).
Local Abbreviation resume_path_of u :=
  (path_join (RESUME_FOLDER UPLOAD_ROOT) (secure_filename (filename u))).

(** [validated req jd_file resume_file]: both uploads are there and both
    names pass [allowed_file]. *)
Local Abbreviation validated req jd_file resume_file :=
  (present (jobFile req) = Some jd_file
   /\ present (resumeFile req) = Some resume_file
   /\ allowed (filename jd_file) = true
   /\ allowed (filename resume_file) = true).

(** [saves_return fs jd_file resume_file]: on the files [fs] the file
    system accepts the job description, and then the resume. *)
Local Abbreviation saves_return fs jd_file resume_file :=
  (save_outcome fs (jd_path_of jd_file) jd_file = Flask.Saved
   /\ save_outcome (<[jd_path_of jd_file := content jd_file]> fs)
                   (resume_path_of resume_file) resume_file = Flask.Saved).



(** A validated request within the limit, by the outcome of the two
    [save] calls. *)
Lemma serve_validated (n : Z) (req : Request) (w : World) (jd_file resume_file : Upload) :
  n <= MAX_CONTENT_LENGTH ->
  validated req jd_file resume_file ->
  let jd_path := jd_path_of jd_file in
  let resume_path := resume_path_of resume_file in
  serve n req w =
    match Flask.save save_outcome jd_path jd_file (files w) with
    | (Raise e, fs) =>
        (Flask.InternalServerError e, {| files := fs; analyses := analyses w |})
    | (Return _, fs) =>
        match Flask.save save_outcome resume_path resume_file fs with
        | (Raise e, fs) =>
            (Flask.InternalServerError e, {| files := fs; analyses := analyses w |})
        | (Return _, fs) =>
            match process fs jd_path resume_path with
            | Raise _ =>
                (Flask.Answered {| body := Error "Processing failed"; status := 500 |},
                 {| files := fs; analyses := analyses w |})
            | Return result =>
                let row := row_of (userId req) jd_path resume_path result in
                match db_error (analyses w) row with
                | Some _ =>
                    (Flask.Answered {| body := Error "DB error"; status := 500 |},
                     {| files := fs; analyses := analyses w |})
                | None =>
                    (Flask.Answered {| body := Scores result; status := 200 |},
                     {| files := fs; analyses := analyses w ++ [row] |})
                end
            end
        end
    end.
Proof.
  intros L (Hj & Hr & Aj & Ar). unfold Flask.analyze.
  rewrite (proj2 (Z.ltb_ge _ _) L), Hj, Hr, Aj, Ar. reflexivity.
Qed.

(** When both [save] calls return, the request is answered as [analyze]
    says. *)
Lemma serve_saved (n : Z) (req : Request) (w : World) (jd_file resume_file : Upload) :
  n <= MAX_CONTENT_LENGTH ->
  validated req jd_file resume_file ->
  saves_return (files w) jd_file resume_file ->
  serve n req w = (Flask.Answered (fst (route req w)), snd (route req w)).
Proof.
  intros L V (S1 & S2).
  rewrite (serve_validated n req w jd_file resume_file L V). cbv zeta.
  destruct V as (Hj & Hr & Aj & Ar).
  rewrite (route_validated _ _ _ _ _ _ _ req w jd_file resume_file Hj Hr Aj Ar).
  cbv zeta. unfold Flask.save, save. rewrite S1, S2.
  destruct (process _ _ _); [destruct (db_error _ _) |]; reflexivity.
Qed.


(** The table after a request holds the rows it held before. *)
Lemma serve_keeps_rows (n : Z) (req : Request) (w : World) :
  exists rows, analyses (snd (serve n req w)) = analyses w ++ rows.
Proof.
  assert (Same : forall w', analyses w' = analyses w ->
                            exists rows, analyses w' = analyses w ++ rows).
  { intros w' E. exists []. rewrite app_nil_r. exact E. }
  unfold Flask.analyze.
  destruct (MAX_CONTENT_LENGTH <? n); [apply Same; reflexivity |].
  destruct (present (jobFile req)) as [jd_file|]; [| apply Same; reflexivity].
  destruct (present (resumeFile req)) as [resume_file|]; [| apply Same; reflexivity].
  destruct (negb _ || negb _); [apply Same; reflexivity |].
  destruct (Flask.save _ _ _ _) as [[u|e] fs]; [| apply Same; reflexivity].
  destruct (Flask.save _ _ _ _) as [[u'|e] fs']; [| apply Same; reflexivity].
  destruct (process _ _ _); [| apply Same; reflexivity].
  destruct (db_error _ _); [apply Same; reflexivity |].
  eexists. reflexivity.
Qed.



(** X14: a validated request within the size limit, with names that do
    not start with a slash. When both [save] calls return, each upload is
    stored under its own path, whatever the outcome of the analysis (also
    when it failed), and no other path is touched. When the file system
    does not open the path of the job description, [save] raises: Flask
    answers with its status 500 and nothing is stored. When it does not
    open the path of the resume, only the job description is stored. *)
Theorem uploads_are_stored (content_length : Z) (req : Request) (w : World)
    (jd_file resume_file : Upload) :
  content_length <= MAX_CONTENT_LENGTH ->
  validated req jd_file resume_file ->
  Str.startswith (secure_filename (filename jd_file)) "/" = false ->
  Str.startswith (secure_filename (filename resume_file)) "/" = false ->
  let w' := snd (serve content_length req w) in
  (saves_return (files w) jd_file resume_file ->
   files w' !! jd_path_of jd_file = Some (content jd_file)
   /\ files w' !! resume_path_of resume_file = Some (content resume_file)
   /\ (forall path,
        path <> jd_path_of jd_file -> path <> resume_path_of resume_file ->
        files w' !! path = files w !! path))
  /\ (forall e,
        save_outcome (files w) (jd_path_of jd_file) jd_file = Flask.NotOpened e ->
        serve content_length req w = (Flask.InternalServerError e, w))
  /\ (forall e,
        save_outcome (files w) (jd_path_of jd_file) jd_file = Flask.Saved ->
        save_outcome (<[jd_path_of jd_file := content jd_file]> (files w))
                     (resume_path_of resume_file) resume_file = Flask.NotOpened e ->
        fst (serve content_length req w) = Flask.InternalServerError e
        /\ files w' !! jd_path_of jd_file = Some (content jd_file)
        /\ files w' !! resume_path_of resume_file
           = files w !! resume_path_of resume_file
        /\ analyses w' = analyses w).
Proof.
  intros L V Sj Sr w'.
  pose proof (upload_paths_differ UPLOAD_ROOT _ _ Sj Sr) as Diff.
  split; [| split].
  - intros S. unfold w'.
    rewrite (serve_saved content_length req w jd_file resume_file L V S).
    cbn [snd]. rewrite (route_files _ _ _ _ _ _ _ req w jd_file resume_file V).
    unfold save. split; [| split].
    + rewrite lookup_insert_ne by congruence. apply lookup_insert_eq.
    + apply lookup_insert_eq.
    + intros path N1 N2. rewrite !lookup_insert_ne by congruence. reflexivity.
  - intros e E.
    rewrite (serve_validated content_length req w jd_file resume_file L V).
    cbv zeta. unfold Flask.save. rewrite E. destruct w; reflexivity.
  - intros e E1 E2. unfold w'.
    rewrite (serve_validated content_length req w jd_file resume_file L V).
    cbv zeta. unfold Flask.save. rewrite E1, E2. cbn [fst snd files analyses].
    split; [reflexivity |]. split; [apply lookup_insert_eq |].
    split; [| reflexivity].
    apply lookup_insert_ne. congruence.
Qed.

(** X15: when two validated requests within the size limit, whose [save]
    calls return, give their resumes the same secure file name, the
    second upload replaces the stored file of the first, while the rows
    written so far stay in the table. *)
Theorem later_upload_replaces_earlier (content_length content_length' : Z)
    (req req' : Request) (w : World)
    (jd_file resume_file jd_file' resume_file' : Upload) :
  content_length <= MAX_CONTENT_LENGTH ->
  content_length' <= MAX_CONTENT_LENGTH ->
  validated req jd_file resume_file ->
  validated req' jd_file' resume_file' ->
  secure_filename (filename resume_file) = secure_filename (filename resume_file') ->
  let w1 := snd (serve content_length req w) in
  let w2 := snd (serve content_length' req' w1) in
  saves_return (files w) jd_file resume_file ->
  saves_return (files w1) jd_file' resume_file' ->
  files w1 !! resume_path_of resume_file = Some (content resume_file)
  /\ files w2 !! resume_path_of resume_file = Some (content resume_file')
  /\ exists rows, analyses w2 = analyses w1 ++ rows.
Proof.
  intros L L' V V' Same w1 w2 S S'.
  assert (F1 : files w1 = save (resume_path_of resume_file) resume_file
                               (save (jd_path_of jd_file) jd_file (files w))).
  { unfold w1. rewrite (serve_saved content_length req w jd_file resume_file L V S).
    cbn [snd]. apply (route_files _ _ _ _ _ _ _ req w jd_file resume_file V). }
  assert (F2 : files w2 = save (resume_path_of resume_file') resume_file'
                               (save (jd_path_of jd_file') jd_file' (files w1))).
  { unfold w2.
    rewrite (serve_saved content_length' req' w1 jd_file' resume_file' L' V' S').
    cbn [snd]. apply (route_files _ _ _ _ _ _ _ req' w1 jd_file' resume_file' V'). }
  split; [rewrite F1; apply lookup_insert_eq |].
  split; [rewrite F2, Same; apply lookup_insert_eq |].
  apply serve_keeps_rows.
Qed.

End ServedRoute.

(** *** Concrete runs *)


(** The resume is not a PDF: the analysis fails, both files are stored. *)
Lemma uploads_are_stored_witness :
  let req := {| userId := Some "7";
                jobFile := Sample.upload "jd.docx" "python sql linux";
                resumeFile := Sample.upload "cv.pdf" "garbage" |} in
  let w' := snd (SampleServer.analyze 2048 req Sample.empty_world) in
  files w' !! "uploads/jd/jd.docx" = Some "python sql linux"
  /\ files w' !! "uploads/resume/cv.pdf" = Some "garbage"
  /\ (forall path,
       path <> "uploads/jd/jd.docx" -> path <> "uploads/resume/cv.pdf" ->
       files w' !! path = (∅ : gmap string string) !! path).
Proof.
  intros req w'.
  apply (uploads_are_stored
           Sample.pdf_pages Sample.docx_paragraphs Sample.nlp_call
           Sample.splitext_ext Sample.secure_filename Sample.db_error
           Sample.UPLOAD_ROOT SampleServer.MAX_CONTENT_LENGTH
           SampleServer.save_outcome 2048 req Sample.empty_world
           {| filename := "jd.docx"; content := "python sql linux" |}
           {| filename := "cv.pdf"; content := "garbage" |}).
  - vm_compute; discriminate.
  - repeat split; reflexivity.
  - reflexivity.
  - reflexivity.
  - split; reflexivity.
Defined.

(** A resume whose name has 300 characters: the file system does not open
    its path, Flask answers with its status 500, and only the job
    description is stored. *)
Lemma long_name_is_not_stored :
  let name := String.append (Str.times 296 "a") ".pdf" in
  let req := {| userId := Some "7";
                jobFile := Sample.upload "jd.docx" "python sql linux";
                resumeFile := Sample.upload name "%PDFpython sql" |} in
  let w' := snd (SampleServer.analyze 2048 req Sample.empty_world) in
  String.length name = 300%nat
  /\ fst (SampleServer.analyze 2048 req Sample.empty_world)
     = Flask.InternalServerError "[Errno 36] File name too long"
  /\ files w' !! "uploads/jd/jd.docx" = Some "python sql linux"
  /\ files w' !! String.append "uploads/resume/" name = None
  /\ analyses w' = [].
Proof. vm_compute. repeat split. Qed.

(** Two users upload a resume called "cv.pdf". *)
Lemma later_upload_replaces_earlier_witness :
  let req := {| userId := Some "7";
                jobFile := Sample.upload "jd.docx" "python sql linux";
                resumeFile := Sample.upload "cv.pdf" "%PDFpython sql" |} in
  let req' := {| userId := Some "8";
                 jobFile := Sample.upload "ad.docx" "linux admin";
                 resumeFile := Sample.upload "cv.pdf" "%PDFlinux" |} in
  let w1 := snd (SampleServer.analyze 2048 req Sample.empty_world) in
  let w2 := snd (SampleServer.analyze 1024 req' w1) in
  files w1 !! "uploads/resume/cv.pdf" = Some "%PDFpython sql"
  /\ files w2 !! "uploads/resume/cv.pdf" = Some "%PDFlinux"
  /\ exists rows, analyses w2 = analyses w1 ++ rows.
Proof.
  intros req req'.
  apply (later_upload_replaces_earlier
           Sample.pdf_pages Sample.docx_paragraphs Sample.nlp_call
           Sample.splitext_ext Sample.secure_filename Sample.db_error
           Sample.UPLOAD_ROOT SampleServer.MAX_CONTENT_LENGTH
           SampleServer.save_outcome 2048 1024 req req' Sample.empty_world
           {| filename := "jd.docx"; content := "python sql linux" |}
           {| filename := "cv.pdf"; content := "%PDFpython sql" |}
           {| filename := "ad.docx"; content := "linux admin" |}
           {| filename := "cv.pdf"; content := "%PDFlinux" |}).
  - vm_compute; discriminate.
  - vm_compute; discriminate.
  - repeat split; reflexivity.
  - repeat split; reflexivity.
  - reflexivity.
  - split; reflexivity.
  - split; reflexivity.
Defined.

(** ** File names: [allowed_file] with [os.path.splitext] *)

Module OsFacts.

Import Os.

Lemma drop_length (n : nat) (s : string) :
  String.length (drop n s) = (String.length s - n)%nat.
Proof.
  revert s. induction n as [|n IH]; intros s; simpl; [lia |].
  destruct s as [|c t]; simpl; [reflexivity | apply IH].
Qed.

Lemma drop_all (n : nat) (s : string) :
  (String.length s <= n)%nat -> drop n s = EmptyString.
Proof.
  revert s. induction n as [|n IH]; intros s H.
  - destruct s; [reflexivity | simpl in H; lia].
  - destruct s as [|c t]; [reflexivity |]. simpl in *. apply IH. lia.
Qed.

Lemma substring_whole (s : string) : String.substring 0 (String.length s) s = s.
Proof. induction s as [|c t IH]; simpl; [reflexivity | rewrite IH; reflexivity]. Qed.

Lemma substring_empty (n : nat) (s : string) : String.substring n 0 s = EmptyString.
Proof.
  revert s. induction n as [|n IH]; intros s; destruct s; simpl; auto.
Qed.

Lemma substring_drop (n : nat) (s : string) :
  String.substring n (String.length s - n) s = drop n s.
Proof.
  revert s. induction n as [|n IH]; intros s.
  - rewrite Nat.sub_0_r. apply substring_whole.
  - destruct s as [|c t]; [reflexivity |]. simpl. apply IH.
Qed.

(** What is left after dropping a prefix is a suffix. *)
Lemma endswith_drop (n : nat) (s : string) : Str.endswith s (drop n s) = true.
Proof.
  unfold Str.endswith. rewrite drop_length.
  destruct (Nat.le_gt_cases n (String.length s)) as [L|G].
  - replace (String.length s - (String.length s - n))%nat with n by lia.
    rewrite substring_drop, String.eqb_refl.
    destruct (Nat.leb_spec (String.length s - n) (String.length s)); [reflexivity | lia].
  - replace (String.length s - n)%nat with 0%nat by lia.
    rewrite substring_empty, (drop_all n s) by lia. reflexivity.
Qed.

Lemma lower_drop (n : nat) (s : string) : Str.lower (drop n s) = drop n (Str.lower s).
Proof.
  revert s. induction n as [|n IH]; intros s; [reflexivity |].
  destruct s as [|c t]; [reflexivity |]. simpl. apply IH.
Qed.

Lemma take_app (s t : string) : take (String.length s) (String.append s t) = s.
Proof.
  induction s as [|c s IH]; [destruct t; reflexivity |].
  rewrite StrFacts.append_cons. simpl. rewrite IH. reflexivity.
Qed.

Lemma drop_app (s t : string) : drop (String.length s) (String.append s t) = t.
Proof.
  induction s as [|c s IH]; [reflexivity |].
  rewrite StrFacts.append_cons. simpl. exact IH.
Qed.

(** The extension is empty or what follows some position of the name. *)
Lemma splitext_ext_cases (p : string) :
  splitext_ext p = EmptyString \/ exists n, splitext_ext p = drop n p.
Proof.
  unfold splitext_ext, splitext.
  destruct (_ && _); [right; eexists; reflexivity | left; reflexivity].
Qed.

(** *** Searching from the right *)

Lemma rfind_from_range (c : ascii) (s : string) (i : Z) :
  0 <= i -> rfind_from c s i = -1 \/ i <= rfind_from c s i.
Proof.
  revert i. induction s as [|a t IH]; intros i Hi; simpl; [left; reflexivity |].
  destruct (IH (i + 1) ltac:(lia)) as [E|G].
  - rewrite E. simpl. destruct (Ascii.eqb a c); [right; lia | left; reflexivity].
  - destruct (Z.leb_spec 0 (rfind_from c t (i + 1))); [right |]; lia.
Qed.

Lemma rfind_from_shift (c : ascii) (s : string) (i j : Z) :
  0 <= i -> 0 <= j -> rfind_from c s i = -1 -> rfind_from c s j = -1.
Proof.
  revert i j. induction s as [|a t IH]; intros i j Hi Hj; simpl; [trivial |].
  destruct (rfind_from_range c t (i + 1) ltac:(lia)) as [E|G].
  - rewrite E. simpl. rewrite (IH (i + 1) (j + 1) ltac:(lia) ltac:(lia) E). simpl.
    destruct (Ascii.eqb a c); [lia | trivial].
  - destruct (Z.leb_spec 0 (rfind_from c t (i + 1))); lia.
Qed.

(** A match in the second part decides. *)
Lemma rfind_from_app_found (c : ascii) (s t : string) (i : Z) :
  0 <= rfind_from c t (i + Z.of_nat (String.length s)) ->
  rfind_from c (String.append s t) i = rfind_from c t (i + Z.of_nat (String.length s)).
Proof.
  revert i. induction s as [|a s IH]; intros i H.
  - simpl in *. rewrite Z.add_0_r in *. reflexivity.
  - rewrite StrFacts.append_cons.
    replace (i + Z.of_nat (String.length (String a s)))
      with (i + 1 + Z.of_nat (String.length s)) in * by (simpl String.length; lia).
    simpl. rewrite (IH (i + 1) H).
    destruct (Z.leb_spec 0 (rfind_from c t (i + 1 + Z.of_nat (String.length s))));
      [reflexivity | lia].
Qed.

(** Without a match in the second part the first one decides. *)
Lemma rfind_from_app_lacks (c : ascii) (s t : string) (i : Z) :
  0 <= i -> rfind_from c t 0 = -1 ->
  rfind_from c (String.append s t) i = rfind_from c s i.
Proof.
  revert i. induction s as [|a s IH]; intros i Hi H.
  - simpl. apply (rfind_from_shift c t 0 i); [lia | exact Hi | exact H].
  - rewrite StrFacts.append_cons. simpl. rewrite (IH (i + 1) ltac:(lia) H). reflexivity.
Qed.

(** *** The letters of an extension *)

Lemma lower_char_dot (c : ascii) : Str.lower_char c = "."%char -> c = "."%char.
Proof.
  destruct c as [[] [] [] [] [] [] [] []]; vm_compute; intros H;
    try discriminate H; reflexivity.
Qed.

Lemma lower_char_not (c x y : ascii) :
  Str.lower_char c = x -> Str.lower_char y = y -> x <> y -> Ascii.eqb c y = false.
Proof.
  intros Hc Hy Ne. destruct (Ascii.eqb_spec c y) as [E|]; [| reflexivity].
  subst c. congruence.
Qed.

(** An extension that lower-cases to ".pdf" or ".docx" starts with its
    only dot and has no slash. *)
Lemma extension_shape (e : string) :
  Str.lower e = ".pdf" \/ Str.lower e = ".docx" ->
  (forall i, rfind_from "." e i = i) /\ rfind_from "/" e 0 = -1.
Proof.
  intros [H|H].
  - destruct e as [|c0 [|c1 [|c2 [|c3 [|c4 e]]]]]; try discriminate H.
    simpl in H. injection H as H0 H1 H2 H3.
    apply lower_char_dot in H0. subst c0.
    pose proof (lower_char_not c1 _ "." H1 eq_refl ltac:(discriminate)) as D1.
    pose proof (lower_char_not c2 _ "." H2 eq_refl ltac:(discriminate)) as D2.
    pose proof (lower_char_not c3 _ "." H3 eq_refl ltac:(discriminate)) as D3.
    pose proof (lower_char_not c1 _ "/" H1 eq_refl ltac:(discriminate)) as S1.
    pose proof (lower_char_not c2 _ "/" H2 eq_refl ltac:(discriminate)) as S2.
    pose proof (lower_char_not c3 _ "/" H3 eq_refl ltac:(discriminate)) as S3.
    split; [intros i |]; simpl; rewrite ?D1, ?D2, ?D3, ?S1, ?S2, ?S3; reflexivity.
  - destruct e as [|c0 [|c1 [|c2 [|c3 [|c4 [|c5 e]]]]]]; try discriminate H.
    simpl in H. injection H as H0 H1 H2 H3 H4.
    apply lower_char_dot in H0. subst c0.
    pose proof (lower_char_not c1 _ "." H1 eq_refl ltac:(discriminate)) as D1.
    pose proof (lower_char_not c2 _ "." H2 eq_refl ltac:(discriminate)) as D2.
    pose proof (lower_char_not c3 _ "." H3 eq_refl ltac:(discriminate)) as D3.
    pose proof (lower_char_not c4 _ "." H4 eq_refl ltac:(discriminate)) as D4.
    pose proof (lower_char_not c1 _ "/" H1 eq_refl ltac:(discriminate)) as S1.
    pose proof (lower_char_not c2 _ "/" H2 eq_refl ltac:(discriminate)) as S2.
    pose proof (lower_char_not c3 _ "/" H3 eq_refl ltac:(discriminate)) as S3.
    pose proof (lower_char_not c4 _ "/" H4 eq_refl ltac:(discriminate)) as S4.
    split; [intros i |]; simpl;
      rewrite ?D1, ?D2, ?D3, ?D4, ?S1, ?S2, ?S3, ?S4; reflexivity.
Qed.

End OsFacts.

(** X19: a name that [allowed_file] accepts ends, letter case aside, in
    ".pdf" or ".docx". *)
Theorem allowed_names_end_in_extension (name : string) :
  allowed_file Os.splitext_ext name = true ->
  Str.endswith (Str.lower name) ".pdf" = true
  \/ Str.endswith (Str.lower name) ".docx" = true.
Proof.
  unfold allowed_file. intros H.
  assert (E : Str.lower (Os.splitext_ext name) = ".pdf"
              \/ Str.lower (Os.splitext_ext name) = ".docx").
  { apply orb_true_iff in H. destruct H as [H|H]; apply String.eqb_eq in H; auto. }
  destruct (OsFacts.splitext_ext_cases name) as [Z|[n Hn]].
  - rewrite Z in E. destruct E as [E|E]; discriminate E.
  - rewrite Hn, OsFacts.lower_drop in E.
    destruct E as [E|E]; [left | right]; rewrite <- E; apply OsFacts.endswith_drop.
Qed.

(** X20: for a stem without a slash and an extension spelled ".pdf" or
    ".docx" in any letter case, [allowed_file] accepts the name exactly
    when the stem has a character other than the dot: "cv.PDF" passes,
    ".pdf" and "..docx" do not. *)
Theorem allowed_file_by_stem (stem ext : string) :
  Os.rfind "/" stem = -1 ->
  Str.lower ext = ".pdf" \/ Str.lower ext = ".docx" ->
  allowed_file Os.splitext_ext (String.append stem ext) = Os.has_non_dot stem.
Proof.
  intros Hs He.
  destruct (OsFacts.extension_shape ext He) as [Hdot Hsl].
  assert (Dot : Os.rfind "." (String.append stem ext) = Z.of_nat (String.length stem)).
  { unfold Os.rfind. rewrite OsFacts.rfind_from_app_found; rewrite Hdot; lia. }
  assert (Sep : Os.rfind "/" (String.append stem ext) = -1).
  { unfold Os.rfind. rewrite OsFacts.rfind_from_app_lacks by (trivial; lia). exact Hs. }
  unfold allowed_file, Os.splitext_ext, Os.splitext. rewrite Dot, Sep.
  replace (Z.to_nat (Z.of_nat (String.length stem) - (-1 + 1)))
    with (String.length stem) by lia.
  change (Z.to_nat (-1 + 1)) with 0%nat. cbn [Os.drop].
  rewrite OsFacts.take_app, Nat2Z.id.
  assert (L : (-1 <? Z.of_nat (String.length stem)) = true) by (apply Z.ltb_lt; lia).
  rewrite L. cbn [andb].
  destruct (Os.has_non_dot stem); cbn [snd].
  - rewrite OsFacts.drop_app.
    destruct He as [-> | ->]; reflexivity.
  - reflexivity.
Qed.

Lemma allowed_names_end_in_extension_witness :
  Str.endswith (Str.lower "CV.Pdf") ".pdf" = true
  \/ Str.endswith (Str.lower "CV.Pdf") ".docx" = true.
Proof. apply (allowed_names_end_in_extension "CV.Pdf"). reflexivity. Defined.

Lemma allowed_file_by_stem_witness :
  allowed_file Os.splitext_ext (String.append "cv" ".PDF") = Os.has_non_dot "cv".
Proof.
  apply (allowed_file_by_stem "cv" ".PDF"); [reflexivity | left; reflexivity].
Defined.

(** Names made of dots and an extension are refused. *)
Example hidden_names_refused :
  allowed_file Os.splitext_ext ".pdf" = false
  /\ allowed_file Os.splitext_ext "..docx" = false
  /\ allowed_file Os.splitext_ext "cv.PDF" = true
  /\ allowed_file Os.splitext_ext "cv.pdf.exe" = false
  /\ allowed_file Os.splitext_ext "cv" = false.
Proof. vm_compute. repeat split. Qed.

(** ** When [overall] is the mean of the stored fields *)

(** A whole number less [2^-11] is a binary64 value. *)
Lemma repr_margin (m : Z) :
  0 <= m <= 1000 -> Binary64.repr (inject_Z m - (1 # 2048))%Q.
Proof.
  intros Hm. unfold Binary64.repr.
  assert (P : 2048 * 1000 < 2 ^ 53) by reflexivity.
  assert (E : (inject_Z m - (1 # 2048) == inject_Z (2048 * m - 1) * (1 # 2048))%Q).
  { unfold Z.sub. rewrite inject_Z_plus, inject_Z_mult, inject_Z_opp.
    change (inject_Z 2048) with 2048%Q. change (inject_Z 1) with 1%Q. field. }
  rewrite E.
  pose proof (Rounding.rnd_dyadic (2048 * m - 1) (-11) ltac:(lia)) as R.
  change (2 ^ (-11))%Q with (1 # 2048)%Q in R. exact R.
Qed.

Section ReadabilityMargin.

Import Binary64 Rounding Py PyFacts.
Local Open Scope Q_scope.

Variable resume_text : option string.

Let n : Z := Z.of_nat (String.length (Str.or_empty resume_text)).
Let x : Q := rnd (inject_Z n / inject_Z 1500).
Let y : Q := rnd (rnd (inject_Z 100) - x).
Let k : Z := ((n + 1499) / 1500)%Z.

Lemma penalty_margin :
  (0 < n <= 103500)%Z -> y <= inject_Z (101 - k) - (1 # 2048).
Proof.
  intros Hn.
  destruct (started_blocks n ltac:(lia)) as [_ Hk]. specialize (Hk ltac:(lia)).
  pose proof (started_blocks_small n ltac:(lia)) as Ks. fold k in Hk, Ks.
  assert (R100 : rnd (inject_Z 100) == 100) by (apply rnd_int; reflexivity).
  assert (P : (2048 * 101 < 2 ^ 53)%Z) by reflexivity.
  assert (Rc : rnd (inject_Z (2048 * (k - 1) + 1) * (1 # 2048))
               == inject_Z (2048 * (k - 1) + 1) * (1 # 2048)).
  { pose proof (rnd_dyadic (2048 * (k - 1) + 1) (-11) ltac:(lia)) as R.
    change (2 ^ (-11)) with (1 # 2048) in R. exact R. }
  assert (Ec : inject_Z (2048 * (k - 1) + 1) * (1 # 2048)
               == inject_Z k - 1 + (1 # 2048)).
  { unfold Z.sub. rewrite inject_Z_plus, inject_Z_mult, inject_Z_plus, inject_Z_opp.
    change (inject_Z 2048) with 2048. change (inject_Z 1) with 1. field. }
  assert (En : 1500 * inject_Z k - 1499 <= inject_Z n).
  { assert (H : inject_Z (1500 * (k - 1) + 1) <= inject_Z n)
      by (rewrite <- Zle_Qle; exact Hk).
    unfold Z.sub in H.
    rewrite inject_Z_plus, inject_Z_mult, inject_Z_plus, inject_Z_opp in H.
    change (inject_Z 1500) with 1500 in H. change (inject_Z 1) with 1 in H. lra. }
  assert (Hq : inject_Z (2048 * (k - 1) + 1) * (1 # 2048)
               <= inject_Z n / inject_Z 1500).
  { rewrite Ec. apply Qle_shift_div_l; [reflexivity |].
    change (inject_Z 1500) with 1500. lra. }
  assert (Hx : inject_Z (2048 * (k - 1) + 1) * (1 # 2048) <= x)
    by (apply rnd_ge; assumption).
  rewrite Ec in Hx.
  apply rnd_le; [apply repr_margin; lia |].
  rewrite R100. unfold Z.sub. rewrite inject_Z_plus, inject_Z_opp.
  change (inject_Z 101) with 101. lra.
Qed.

Lemma long_text_margin : (103500 < n)%Z -> y <= 31 - (1 # 2048).
Proof.
  intros Hn.
  assert (Hq : 103501 # 1500 <= inject_Z n / inject_Z 1500).
  { apply Qle_shift_div_l; [reflexivity |].
    assert (inject_Z 103501 <= inject_Z n) by (rewrite <- Zle_Qle; lia).
    change (inject_Z 1500) with 1500.
    change (inject_Z 103501) with 103501 in H. lra. }
  apply rnd_mono in Hq. fold x in Hq.
  assert (Hy' : y <= rnd (rnd (inject_Z 100) - rnd (103501 # 1500))).
  { apply rnd_mono. lra. }
  assert (C : rnd (rnd (inject_Z 100) - rnd (103501 # 1500)) <= 31 - (1 # 2048))
    by (vm_compute; discriminate).
  lra.
Qed.

(** The readability before truncation stays [2^-11] under the next whole
    number above the stored one. *)
Lemma readability_margin :
  let stored := int (readability_of resume_text) in
  (30 <= stored <= 100)%Z
  /\ inject_Z stored <= val (readability_of resume_text)
     <= inject_Z (stored + 1) - (1 # 2048).
Proof.
  cbv zeta.
  pose proof (Components.readability_between resume_text) as B.
  assert (Bi : (30 <= int (readability_of resume_text) <= 100)%Z)
    by (apply int_between; [lia | exact B]).
  split; [exact Bi |].
  pose proof (int_brackets (readability_of resume_text) ltac:(destruct B; lra)) as [L _].
  split; [exact L |].
  assert (N0 : (0 <= n)%Z) by (unfold n; lia).
  revert Bi L. rewrite readability_unfold. fold n. fold x. fold y.
  destruct (Qle_bool y 30) eqn:E; cbn [negb]; intros Bi L.
  - cbn [int val]. rewrite inject_Z_plus.
    change (inject_Z 30) with 30. change (inject_Z 1) with 1. lra.
  - assert (Hy : 30 < y).
    { apply Qnot_le_lt. intros C. apply Qle_bool_iff in C. congruence. }
    cbn [int val] in *. rewrite trunc_floor in * by lra.
    destruct (Z.eq_dec n 0%Z) as [Z0|NZ]; [| destruct (Z.le_gt_cases n 103500) as [S|G]].
    + assert (Hx : 0 <= x).
      { apply rnd_ge; [apply rnd_zero; reflexivity |]. rewrite Z0. discriminate. }
      assert (R100 : rnd (inject_Z 100) == 100) by (apply rnd_int; reflexivity).
      assert (H100 : y <= 100).
      { apply rnd_le; [apply (rnd_int 100); reflexivity |]. lra. }
      assert (F : (100 <= Qfloor y)%Z).
      { pose proof (penalty_lower resume_text ltac:(fold n; lia)) as PL.
        fold n x y in PL.
        replace ((n + 1499) / 1500)%Z with 0%Z in PL by (rewrite Z0; reflexivity).
        apply Qfloor_resp_le in PL. rewrite Qfloor_Z in PL. exact PL. }
      rewrite inject_Z_plus. change (inject_Z 1) with 1.
      assert (inject_Z 100 <= inject_Z (Qfloor y)) by (rewrite <- Zle_Qle; exact F).
      change (inject_Z 100) with 100 in H. lra.
    + pose proof (penalty_margin ltac:(lia)) as M.
      pose proof (penalty_lower resume_text ltac:(fold n; lia)) as PL.
      fold n x y k in PL.
      assert (F : (100 - k <= Qfloor y)%Z).
      { apply Qfloor_resp_le in PL. rewrite Qfloor_Z in PL. exact PL. }
      assert (inject_Z (100 - k) <= inject_Z (Qfloor y)) by (rewrite <- Zle_Qle; exact F).
      unfold Z.sub in *. rewrite !inject_Z_plus, !inject_Z_opp in *.
      change (inject_Z 1) with 1. change (inject_Z 101) with 101 in M.
      change (inject_Z 100) with 100 in H. lra.
    + pose proof (long_text_margin G) as M.
      assert (F : (30 <= Qfloor y)%Z).
      { assert (H30 : 30 <= y) by lra. apply Qfloor_resp_le in H30. exact H30. }
      assert (inject_Z 30 <= inject_Z (Qfloor y)) by (rewrite <- Zle_Qle; exact F).
      rewrite inject_Z_plus. change (inject_Z 1) with 1.
      change (inject_Z 30) with 30 in H. lra.
Qed.

End ReadabilityMargin.

Module MeanFacts.

Import Binary64 Rounding Py PyFacts.
Local Open Scope Q_scope.

Lemma repr_eq (a b : Q) : a == b -> repr a -> repr b.
Proof. unfold repr. intros E R. rewrite <- E. exact R. Qed.

Lemma margin_sum (a b : Z) :
  inject_Z a + (inject_Z b - (1 # 2048)) == inject_Z (a + b) - (1 # 2048).
Proof. rewrite inject_Z_plus. ring. Qed.

(** A whole number, then a score with a margin under the next whole
    number, then the format score: the truncated quarter of the sum is
    the quarter of the whole parts. *)
Lemma overall_tail (whole rd : num) (c stored fmt : Z) :
  val whole == inject_Z c -> (0 <= c <= 200)%Z ->
  (30 <= stored <= 100)%Z ->
  inject_Z stored <= val rd <= inject_Z (stored + 1) - (1 # 2048) ->
  (70 <= fmt <= 90)%Z ->
  int (truediv (add (add whole rd) (Int fmt)) (Int 4)) = ((c + stored + fmt) / 4)%Z.
Proof.
  intros Hw Hc Hs Hrd Hf.
  assert (P : (1000 < 2 ^ 53)%Z) by reflexivity.
  assert (Bw : inject_Z c <= val whole <= inject_Z c) by (rewrite Hw; split; apply Qle_refl).
  assert (S1 : inject_Z c + inject_Z stored <= val (add whole rd)
               <= inject_Z c + (inject_Z (stored + 1) - (1 # 2048))).
  { apply add_between; trivial.
    - apply repr_int; lia.
    - apply repr_int; lia.
    - apply repr_int; lia.
    - apply repr_margin; lia.
    - rewrite <- inject_Z_plus. apply repr_int; lia.
    - apply (repr_eq _ _ (Qeq_sym _ _ (margin_sum c (stored + 1)))).
      apply repr_margin; lia. }
  assert (Bf : inject_Z fmt <= val (Int fmt) <= inject_Z fmt)
    by (cbn [val]; split; apply Qle_refl).
  assert (S2 : inject_Z c + inject_Z stored + inject_Z fmt
               <= val (add (add whole rd) (Int fmt))
               <= inject_Z c + (inject_Z (stored + 1) - (1 # 2048)) + inject_Z fmt).
  { apply add_between; trivial.
    - rewrite <- inject_Z_plus. apply repr_int; lia.
    - apply (repr_eq _ _ (Qeq_sym _ _ (margin_sum c (stored + 1)))).
      apply repr_margin; lia.
    - apply repr_int; lia.
    - apply repr_int; lia.
    - rewrite <- !inject_Z_plus. apply repr_int; lia.
    - assert (E : inject_Z (c + (stored + 1) + fmt) - (1 # 2048)
                  == inject_Z c + (inject_Z (stored + 1) - (1 # 2048)) + inject_Z fmt)
        by (rewrite !inject_Z_plus; ring).
      apply (repr_eq _ _ E). apply repr_margin; lia. }
  set (total := (c + stored + fmt)%Z).
  assert (E1 : inject_Z c + inject_Z stored + inject_Z fmt == inject_Z total)
    by (unfold total; rewrite !inject_Z_plus; ring).
  assert (E2 : inject_Z c + (inject_Z (stored + 1) - (1 # 2048)) + inject_Z fmt
               == inject_Z (total + 1) - (1 # 2048)).
  { unfold total. rewrite !inject_Z_plus. change (inject_Z 1) with 1. ring. }
  assert (Q4 : inject_Z total / 4
               <= val (truediv (add (add whole rd) (Int fmt)) (Int 4))
               <= (inject_Z (total + 1) - (1 # 2048)) / 4).
  { rewrite <- E1, <- E2. apply quarter_between; trivial.
    - apply (repr_eq _ _ (Qeq_sym _ _ E1)). apply repr_int. unfold total. lia.
    - apply (repr_eq _ _ (Qeq_sym _ _ E2)). apply repr_margin. unfold total. lia.
    - apply (repr_eq (inject_Z total / 4)); [rewrite E1; reflexivity |].
      apply repr_quarter. unfold total. lia.
    - assert (E : inject_Z (2048 * (total + 1) - 1) * 2 ^ (-13)
                  == (inject_Z c + (inject_Z (stored + 1) - (1 # 2048)) + inject_Z fmt) / 4).
      { rewrite E2. change (2 ^ (-13)) with (1 # 8192).
        unfold Z.sub. rewrite inject_Z_plus, inject_Z_mult, inject_Z_opp.
        change (inject_Z 2048) with 2048. change (inject_Z 1) with 1. field. }
      apply (repr_eq _ _ E). apply rnd_dyadic.
      assert (2048 * 1000 < 2 ^ 53)%Z by reflexivity. unfold total. lia. }
  destruct Q4 as [Q1 Q2].
  set (avg := truediv (add (add whole rd) (Int fmt)) (Int 4)) in *.
  assert (T0 : 0 <= inject_Z total).
  { change 0 with (inject_Z 0). rewrite <- Zle_Qle. unfold total. lia. }
  assert (A0 : 0 <= val avg).
  { apply Qle_trans with (inject_Z total / 4); [| exact Q1].
    apply Qle_shift_div_l; [reflexivity | lra]. }
  rewrite (int_floor avg A0).
  apply Z.le_antisymm.
  - apply Z.div_le_lower_bound; [lia |].
    pose proof (Qfloor_le (val avg)) as Fl.
    assert (U : inject_Z (Qfloor (val avg)) * 4 < inject_Z (total + 1)).
    { assert ((inject_Z (total + 1) - (1 # 2048)) / 4 * 4
              == inject_Z (total + 1) - (1 # 2048)) by field.
      assert (val avg * 4 <= (inject_Z (total + 1) - (1 # 2048)) / 4 * 4)
        by (apply Qmult_le_compat_r; [exact Q2 | discriminate]).
      lra. }
    change 4 with (inject_Z 4) in U. rewrite <- inject_Z_mult, <- Zlt_Qlt in U. lia.
  - apply Qfloor_resp_le in Q1.
    change 4 with (inject_Z 4) in Q1. rewrite <- Zdiv_Qdiv in Q1. exact Q1.
Qed.

End MeanFacts.

(** X21: when the resume has none of the job description's tokens, or
    all of them, [overall] is exactly the floored mean of the four
    stored fields. *)
Theorem overall_is_mean_when_overlap_whole (nlp : string -> list Token)
    (resume_text jd_text : option string) :
  normalize nlp resume_text ∩ normalize nlp jd_text = ∅
  \/ (normalize nlp jd_text <> ∅
      /\ normalize nlp jd_text ⊆ normalize nlp resume_text) ->
  let s := analyze_resume nlp resume_text jd_text in
  overall s = (keyword s + skill s + readability s + format s) / 4.
Proof.
  intros H. cbv zeta.
  set (km := keyword_match_of (normalize nlp resume_text) (normalize nlp jd_text)).
  change (overall_of km (skill_match_of km) (readability_of resume_text)
                     (format_score_of resume_text)
          = (Py.int km + Py.int (skill_match_of km)
             + Py.int (readability_of resume_text)
             + Py.int (format_score_of resume_text)) / 4).
  destruct (readability_margin resume_text) as [Bs Brd].
  assert (Bf : 70 <= Py.int (format_score_of resume_text) <= 90
               /\ format_score_of resume_text
                  = Py.Int (Py.int (format_score_of resume_text))).
  { destruct (Components.format_score_cases resume_text) as [E|E]; rewrite E;
      cbn [Py.int]; split; (lia || reflexivity). }
  destruct Bf as [Bf Ef]. unfold overall_of. rewrite Ef at 1.
  assert (K : exists known,
             PyRel.same km known
             /\ (known = Py.Int 0 \/ known = Py.Float 0 \/ known = Py.Float 100)).
  { destruct H as [D | [NE Sub]].
    - destruct (PyRelFacts.keyword_match_disjoint _ _ D) as [F|F];
        eexists; (split; [exact F |]); auto.
    - eexists. split; [exact (PyRelFacts.keyword_match_full _ _ NE Sub) |]. auto. }
  destruct K as (known & Sk & Cases).
  pose proof (PyRelFacts.skill_match_same _ _ Sk) as Ss.
  pose proof (PyRelFacts.add_same _ _ _ _ Sk Ss) as Sa.
  apply PyRelFacts.same_val in Sa.
  rewrite (PyRelFacts.int_same _ _ Sk), (PyRelFacts.int_same _ _ Ss).
  destruct Cases as [-> | [-> | ->]].
  - rewrite (MeanFacts.overall_tail _ _ 10 _ _ Sa ltac:(lia) Bs Brd Bf). reflexivity.
  - rewrite (MeanFacts.overall_tail _ _ 10 _ _
               ltac:(rewrite Sa; vm_compute; reflexivity) ltac:(lia) Bs Brd Bf).
    reflexivity.
  - rewrite (MeanFacts.overall_tail _ _ 200 _ _
               ltac:(rewrite Sa; vm_compute; reflexivity) ltac:(lia) Bs Brd Bf).
    reflexivity.
Qed.

Lemma overall_is_mean_when_overlap_whole_witness :
  let s := analyze_resume Plain.nlp (Some "linux admin") (Some "python sql") in
  overall s = (keyword s + skill s + readability s + format s) / 4.
Proof.
  apply (overall_is_mean_when_overlap_whole Plain.nlp (Some "linux admin")
           (Some "python sql")).
  left. vm_compute. reflexivity.
Defined.

(** X22: the letter case of the two texts does not change the keyword,
    skill and format scores. *)
Theorem letter_case_keeps_matching (nlp : string -> list Token) (resume_text jd_text : string) :
  let s := analyze_resume nlp (Some resume_text) (Some jd_text) in
  let s' := analyze_resume nlp (Some (Str.lower resume_text)) (Some (Str.lower jd_text)) in
  keyword s' = keyword s /\ skill s' = skill s /\ format s' = format s.
Proof.
  cbv zeta. unfold analyze_resume.
  assert (N : forall t, normalize nlp (Some (Str.lower t)) = normalize nlp (Some t)).
  { intros t. unfold normalize, Str.or_empty. rewrite StrFacts.lower_idem. reflexivity. }
  rewrite !N. repeat split.
  change (Py.int (format_score_of (Some (Str.lower resume_text)))
          = Py.int (format_score_of (Some resume_text))).
  unfold format_score_of, Str.or_empty. rewrite StrFacts.lower_idem. reflexivity.
Qed.

(** ** Accounts *)

Section AccountFacts.

Variable insert_outcome : list UserRow -> string -> string -> InsertOutcome.
Variable fresh_id : list UserRow -> Z.

Local Abbreviation signup := (register insert_outcome fresh_id).

Lemma find_user_some (users : list UserRow) (username password : string) (row : UserRow) :
  find_user users username password = Some row ->
  List.In row users /\ user_name row = username /\ user_password row = password.
Proof.
  unfold find_user. intros H. apply List.find_some in H. destruct H as [Hin Hb].
  apply andb_true_iff in Hb. destruct Hb as [Hu Hp].
  apply String.eqb_eq in Hu, Hp. auto.
Qed.

Lemma find_user_present (users : list UserRow) (row : UserRow) :
  List.In row users ->
  exists found, find_user users (user_name row) (user_password row) = Some found.
Proof.
  intros Hin. unfold find_user.
  destruct (List.find _ users) as [found|] eqn:F; [eexists; reflexivity |].
  pose proof (List.find_none _ _ F row Hin) as N. simpl in N.
  rewrite !String.eqb_refl in N. discriminate N.
Qed.

(** X23: after a registration that was answered with 201, logging in
    with the same user name and password succeeds with status 200. *)
Theorem registered_user_can_log_in (data : Credentials) (users : list UserRow) :
  fst (signup data users) = Json (AuthMessage "User registered") 201 ->
  exists userId,
    login data (snd (signup data users))
    = Json (AuthLogin userId "Login successful") 200.
Proof.
  unfold register, login.
  destruct (missing (cred_username data) || missing (cred_password data));
    [discriminate |].
  destruct (insert_outcome users _ _); try discriminate. intros _. cbn [snd].
  set (row := {| user_id := fresh_id users;
                 user_name := Str.or_empty (cred_username data);
                 user_password := Str.or_empty (cred_password data) |}).
  destruct (find_user_present (users ++ [row]) row) as [found F].
  { apply List.in_or_app. right. left. reflexivity. }
  cbn [user_name user_password row] in F. rewrite F. eexists. reflexivity.
Qed.

(** X24: a login is answered with status 200 only if the table has a row
    with exactly this user name and this password, and the user id in
    the answer is the id of such a row; the password is compared as
    stored. *)
Theorem login_needs_matching_row (data : Credentials) (users : list UserRow)
    (userId : Z) (message : string) :
  login data users = Json (AuthLogin userId message) 200 ->
  exists row username password,
    cred_username data = Some username /\ cred_password data = Some password
    /\ List.In row users
    /\ user_name row = username /\ user_password row = password
    /\ user_id row = userId.
Proof.
  unfold login.
  destruct (cred_username data) as [username|]; [| discriminate].
  destruct (cred_password data) as [password|];
    [| cbn [missing]; rewrite orb_true_r; discriminate].
  destruct (missing (Some username) || missing (Some password)); [discriminate |].
  cbn [Str.or_empty].
  destruct (find_user users username password) as [row|] eqn:F; [| discriminate].
  intros [= <- _]. apply find_user_some in F as (Hin & Hu & Hp).
  exists row, username, password. repeat split; auto.
Qed.

(** X25: a registration changes the table only when it is answered with
    201, and then by appending one row that holds the user name and the
    password exactly as sent; a missing or empty field is answered with
    400 without asking the table. *)
Theorem register_appends_on_201 (data : Credentials) (users : list UserRow) :
  ((fst (signup data users) = Json (AuthMessage "User registered") 201
    /\ exists username password,
         cred_username data = Some username /\ cred_password data = Some password
         /\ snd (signup data users)
            = users ++ [{| user_id := fresh_id users; user_name := username;
                           user_password := password |}])
   \/ (fst (signup data users) <> Json (AuthMessage "User registered") 201
       /\ snd (signup data users) = users))
  /\ (missing (cred_username data) = true \/ missing (cred_password data) = true ->
      signup data users
      = (Json (AuthError "username and password required") 400, users)).
Proof.
  unfold register.
  destruct (missing (cred_username data) || missing (cred_password data)) eqn:M.
  - split; [right; split; [discriminate | reflexivity] | reflexivity].
  - apply orb_false_iff in M. destruct M as [Mu Mp].
    split; [| intros [H|H]; congruence].
    destruct (cred_username data) as [username|]; [| discriminate Mu].
    destruct (cred_password data) as [password|]; [| discriminate Mp].
    cbn [Str.or_empty].
    destruct (insert_outcome users username password).
    + left. split; [reflexivity |]. exists username, password. auto.
    + right. split; [discriminate | reflexivity].
    + right. split; [discriminate | reflexivity].
Qed.

End AccountFacts.

(** *** Concrete runs *)

Lemma registered_user_can_log_in_witness :
  exists userId,
    login (SampleUsers.credentials "ada" "s3cret")
          (snd (SampleUsers.register (SampleUsers.credentials "ada" "s3cret") []))
    = Json (AuthLogin userId "Login successful") 200.
Proof.
  apply (registered_user_can_log_in SampleUsers.insert_outcome SampleUsers.fresh_id
           (SampleUsers.credentials "ada" "s3cret") []).
  reflexivity.
Defined.

Lemma login_needs_matching_row_witness :
  let users := [{| user_id := 1; user_name := "ada"; user_password := "s3cret" |}] in
  exists row username password,
    Some "ada" = Some username /\ Some "s3cret" = Some password
    /\ List.In row users
    /\ user_name row = username /\ user_password row = password
    /\ user_id row = 1.
Proof.
  intros users.
  apply (login_needs_matching_row (SampleUsers.credentials "ada" "s3cret") users 1
           "Login successful").
  reflexivity.
Defined.

(** A second registration under the same name is refused and changes
    nothing; an empty password is answered with 400. *)
Lemma register_appends_on_201_witness :
  let users := [{| user_id := 1; user_name := "ada"; user_password := "s3cret" |}] in
  SampleUsers.register {| cred_username := Some "ada"; cred_password := Some "" |} users
  = (Json (AuthError "username and password required") 400, users).
Proof.
  intros users.
  apply (proj2 (register_appends_on_201 SampleUsers.insert_outcome SampleUsers.fresh_id
                  {| cred_username := Some "ada"; cred_password := Some "" |} users)).
  right. reflexivity.
Defined.
